(** * faast.js / cloudify: the invocation facade, the AWS direct path and the
      local-process backend, embedded from the TypeScript sources.

    Layout:
    - [JS]        the JavaScript values the code inspects, truthiness, property
                  reads, [new Error], completions;
    - [Shared]    the call/return envelopes and the metrics ledger;
    - [Cloudify]  cloudify.ts: [processResponse] and the [CloudFunction] class;
    - [Aws]       aws/aws-cloudify.ts: the direct [cloudifyWithResponse],
                  [carefully], [quietly], [deleteRole], [cleanup];
    - [Process]   process-cloudify.ts: the child-process backend as an
                  event-driven transition system;
    - [ProcessLog] process-cloudify.ts: [appendLog] and [readLogs];
    - [AwsInit]   aws/aws-cloudify.ts: [zipStreamToBuffer], [pack] and
                  [initialize] with its nested functions;
    - the theorems. *)

From stdpp Require Import gmap strings list fin_maps pretty.
From Stdlib Require Import ZArith Lia.

Local Open Scope Z_scope.
Local Open Scope string_scope.
Local Open Scope list_scope.
Local Set Warnings "-register-all".

(* ===================================================================== *)
(** * JavaScript values *)
(* ===================================================================== *)
Module JS.

(** The data values that cross the call boundary ([any] in the sources).
    Numbers are the integer-valued ones: every number the code computes
    with is a millisecond timestamp or a difference of two. *)
Inductive jsval : Type :=
| VUndefined
| VNull
| VBool (b : bool)
| VNum (n : Z)
| VStr (s : string)
| VArr (items : list jsval)
| VObj (fields : list (string * jsval)).

(** ToBoolean. *)
Definition truthy (v : jsval) : bool :=
  match v with
  | VUndefined | VNull => false
  | VBool b => b
  | VNum n => negb (Z.eqb n 0)
  | VStr s => negb (String.eqb s "")
  | VArr _ | VObj _ => true
  end.

(** An optional string field ([string | undefined]) used as a condition. *)
Definition truthy_str (o : option string) : bool :=
  match o with
  | Some s => negb (String.eqb s "")
  | None => false
  end.

(** An optional number field ([number | undefined]) used as a condition. *)
Definition truthy_num (o : option Z) : bool :=
  match o with
  | Some n => negb (Z.eqb n 0)
  | None => false
  end.

Fixpoint lookup_field (k : string) (fields : list (string * jsval)) : jsval :=
  match fields with
  | [] => VUndefined
  | (k', v) :: rest => if String.eqb k k' then v else lookup_field k rest
  end.

(** [v.k] for a data property [k] (none of the inherited ones): reading a
    property of [undefined] or [null] throws a TypeError ([None]), a
    primitive or an array has no such property. *)
Definition get (v : jsval) (k : string) : option jsval :=
  match v with
  | VUndefined | VNull => None
  | VObj fields => Some (lookup_field k fields)
  | _ => Some VUndefined
  end.

(** ToString, as [new Error(message)] applies it to its argument. *)
Fixpoint ToString (v : jsval) : string :=
  match v with
  | VUndefined => "undefined"
  | VNull => "null"
  | VBool true => "true"
  | VBool false => "false"
  | VNum n => pretty n
  | VStr s => s
  | VArr items =>
      String.concat ","
        (map (fun x => match x with
                       | VUndefined | VNull => ""
                       | _ => ToString x
                       end) items)
  | VObj _ => "[object Object]"
  end.

(** An [Error] object, by the three properties the code reads and writes. *)
Record Error : Type := mkError {
  message : string;
  name : jsval;
  stack : jsval
}.

(** What a rejected promise or a [throw] carries. *)
Inductive exn : Type :=
| ExnError (e : Error)          (* an Error object built by the code *)
| ExnValue (v : jsval)          (* a rejection reason passed through *)
| ExnTypeError                  (* property read on undefined / null *)
| ExnSyntaxError.               (* JSON.parse on malformed text *)

Inductive completion (A : Type) : Type :=
| Normal (a : A)
| Throw (e : exn).
Arguments Normal {A} a.
Arguments Throw {A} e.

(** How a promise handed back by a collaborator settles. *)
Inductive settled (A : Type) : Type :=
| Resolved (a : A)
| Rejected (reason : jsval).
Arguments Resolved {A} a.
Arguments Rejected {A} reason.

(** The message of [new Error(m)]: [new Error(undefined)] leaves it empty,
    any other argument is converted with ToString. *)
Definition Error_message (m : jsval) : string :=
  match m with
  | VUndefined => ""
  | _ => ToString m
  end.

(** The error rebuilt from a remote error value, as both [processResponse]
    and the AWS direct path do it:
<<
    error = new Error(errValue.message);
    error.name = errValue.name;
    error.stack = errValue.stack;
>>
    The name and stack the constructor sets are overwritten by the two
    assignments. *)
Definition rebuildError (errValue : jsval) : completion Error :=
  match get errValue "message" with
  | None => Throw ExnTypeError
  | Some m =>
      match get errValue "name" with
      | None => Throw ExnTypeError
      | Some n =>
          match get errValue "stack" with
          | None => Throw ExnTypeError
          | Some s => Normal {| message := Error_message m; name := n; stack := s |}
          end
      end
  end.

(** [v === "s"] against a string literal. *)
Definition strict_eq_str (v : jsval) (s : string) : bool :=
  match v with
  | VStr s' => String.eqb s' s
  | _ => false
  end.

Definition nullish (v : jsval) : bool :=
  match v with
  | VUndefined | VNull => true
  | _ => false
  end.

(** Computations that read and change a world [W] and may throw: the body
    of an [async] function between two settled promises. *)
Definition SE (W A : Type) : Type := W -> completion A * W.

#[global] Instance SE_ret {W} : MRet (SE W) := fun A a w => (Normal a, w).
#[global] Instance SE_bind {W} : MBind (SE W) := fun A B f m w =>
  match m w with
  | (Normal a, w') => f a w'
  | (Throw e, w') => (Throw e, w')
  end.

Definition throw {W A} (e : exn) : SE W A := fun w => (Throw e, w).

Definition lift {W A} (c : completion A) : SE W A := fun w => (c, w).

(** [await promise]: a rejection is thrown at the [await]. *)
Definition await {W A} (p : settled A) : SE W A :=
  match p with
  | Resolved a => mret a
  | Rejected reason => throw (ExnValue reason)
  end.

(** [await promise.catch(handler)] *)
Definition await_catch {W A} (p : settled A) (handler : jsval -> SE W A) : SE W A :=
  match p with
  | Resolved a => mret a
  | Rejected reason => handler reason
  end.

End JS.

(* ===================================================================== *)
(** * shared.ts: envelopes and the metrics ledger *)
(* ===================================================================== *)
Module Shared.
Import JS.

(** [FunctionCall], as cloudify.ts builds it:
    [{ name: fn.name, args, CallId, start }]. *)
Record FunctionCall : Type := mkCall {
  call_name : string;
  call_args : list jsval;
  call_CallId : string;
  call_start : Z
}.

(** [FunctionReturn], by the fields cloudify.ts reads and writes. *)
Record FunctionReturn : Type := mkReturn {
  ret_type : string;
  ret_value : jsval;
  ret_CallId : string;
  ret_rawResponse : jsval;
  executionStart : option Z;
  executionEnd : option Z
}.

(** The object literal [{ executionLatency, startLatency, returnLatency }]
    of [processResponse]. *)
Record Latencies : Type := mkLatencies {
  lat_execution : Z;
  lat_start : Z;
  lat_return : Z
}.

(** The two counters [processResponse] increments. *)
Inductive counter : Type := completed | errors.

(** Modelled from the spec: a running latency average of the ledger
    (the class FunctionMetricsMap of ./shared is not among the sources).
    The average is kept exactly, as the number of merged samples and their
    sum. *)
Record RunningAverage : Type := mkAvg {
  samples : N;
  total : Z
}.

(** Modelled from the spec: one more sample merged into a running average
    (./shared is not among the sources). *)
Definition merge_sample (x : Z) (a : RunningAverage) : RunningAverage :=
  {| samples := (samples a + 1)%N; total := total a + x |}.

(** Modelled from the spec: FunctionMetrics, "per function name:
    {completedCount, errorCount, runningLatencyAverages for
    start/execution/return}" (./shared is not among the sources). *)
Record FunctionMetrics : Type := mkMetrics {
  completedCount : N;
  errorCount : N;
  startLatencyAvg : RunningAverage;
  executionLatencyAvg : RunningAverage;
  returnLatencyAvg : RunningAverage
}.

(** Modelled from the spec: the ledger entry of a function of which no
    Return was processed yet (./shared is not among the sources). *)
Definition no_samples : RunningAverage := {| samples := 0; total := 0 |}.

(** Modelled from the spec: see [no_samples]. *)
Definition fresh_metrics : FunctionMetrics :=
  {| completedCount := 0; errorCount := 0;
     startLatencyAvg := no_samples;
     executionLatencyAvg := no_samples;
     returnLatencyAvg := no_samples |}.

Abbreviation FunctionMetricsMap := (gmap string FunctionMetrics).

(** Modelled from the spec: the entry of a function name in the ledger; a
    name never seen counts from zero (./shared is not among the sources). *)
Definition metrics_of (fn : string) (m : FunctionMetricsMap) : FunctionMetrics :=
  default fresh_metrics (m !! fn).

(** Modelled from the spec: one counter of an entry incremented
    (./shared is not among the sources). *)
Definition bump (key : counter) (fm : FunctionMetrics) : FunctionMetrics :=
  match key with
  | completed =>
      {| completedCount := (completedCount fm + 1)%N;
         errorCount := errorCount fm;
         startLatencyAvg := startLatencyAvg fm;
         executionLatencyAvg := executionLatencyAvg fm;
         returnLatencyAvg := returnLatencyAvg fm |}
  | errors =>
      {| completedCount := completedCount fm;
         errorCount := (errorCount fm + 1)%N;
         startLatencyAvg := startLatencyAvg fm;
         executionLatencyAvg := executionLatencyAvg fm;
         returnLatencyAvg := returnLatencyAvg fm |}
  end.

(** Modelled from the spec: the three latencies of one Return merged into
    the running averages of an entry (./shared is not among the sources). *)
Definition merge_latencies (l : Latencies) (fm : FunctionMetrics) : FunctionMetrics :=
  {| completedCount := completedCount fm;
     errorCount := errorCount fm;
     startLatencyAvg := merge_sample (lat_start l) (startLatencyAvg fm);
     executionLatencyAvg := merge_sample (lat_execution l) (executionLatencyAvg fm);
     returnLatencyAvg := merge_sample (lat_return l) (returnLatencyAvg fm) |}.

(** Modelled from the spec: [metrics.increment(fn, key)], "increment
    completed always; increment errors if outcome is error" (the method's
    body is not among the sources). *)
Definition increment (fn : string) (key : counter) (m : FunctionMetricsMap)
  : FunctionMetricsMap :=
  <[fn := bump key (metrics_of fn m)]> m.

(** Modelled from the spec: [metrics.updateMany(fn, latencies)], "merge
    latencies if present" (the method's body is not among the sources). *)
Definition updateMany (fn : string) (l : Latencies) (m : FunctionMetricsMap)
  : FunctionMetricsMap :=
  <[fn := merge_latencies l (metrics_of fn m)]> m.

End Shared.

(* ===================================================================== *)
(** * cloudify.ts: the function facade *)
(* ===================================================================== *)
Module Cloudify.
Import JS Shared.

(** [ResponseDetails<D>]; an absent optional field is [None], and
    [rawResponse] is whatever the transport handed back. *)
Record Response (Raw : Type) : Type := mkResponse {
  value : jsval;
  error : option Error;
  rawResponse : Raw;
  startLatency : option Z;
  executionLatency : option Z;
  returnLatency : option Z
}.
Arguments mkResponse {Raw}.
Arguments value {Raw}.
Arguments error {Raw}.
Arguments rawResponse {Raw}.
Arguments startLatency {Raw}.
Arguments executionLatency {Raw}.
Arguments returnLatency {Raw}.

(** [{ ...rv, ...latencies }] *)
Definition spread_latencies {Raw} (rv : Response Raw) (l : Latencies) : Response Raw :=
  {| value := value rv;
     error := error rv;
     rawResponse := rawResponse rv;
     startLatency := Some (lat_start l);
     executionLatency := Some (lat_execution l);
     returnLatency := Some (lat_return l) |}.

(** What the facade's code observes and changes besides its arguments: the
    wall clock read by [Date.now()] (the value of the n-th reading is
    [clock n]), the identifiers [uuidv4()] hands out (the n-th is [uuids n]),
    the ledger [this.functionMetrics] and, for the statements only, the
    calls handed to the backend so far, oldest first. *)
Record World : Type := mkWorld {
  ticks : nat;
  clock : nat -> Z;
  drawn : nat;
  uuids : nat -> string;
  functionMetrics : FunctionMetricsMap;
  submitted : list FunctionCall
}.

Abbreviation M := (SE World).

(** [Date.now()] *)
Definition Date_now : M Z := fun w =>
  (Normal (clock w (ticks w)),
   {| ticks := S (ticks w); clock := clock w;
      drawn := drawn w; uuids := uuids w;
      functionMetrics := functionMetrics w; submitted := submitted w |}).

(** [uuidv4()] *)
Definition uuidv4 : M string := fun w =>
  (Normal (uuids w (drawn w)),
   {| ticks := ticks w; clock := clock w;
      drawn := S (drawn w); uuids := uuids w;
      functionMetrics := functionMetrics w; submitted := submitted w |}).

Definition with_metrics (f : FunctionMetricsMap -> FunctionMetricsMap) : M unit :=
  fun w =>
  (Normal tt,
   {| ticks := ticks w; clock := clock w;
      drawn := drawn w; uuids := uuids w;
      functionMetrics := f (functionMetrics w); submitted := submitted w |}).

(** [metrics.increment(fn, key)] *)
Definition metrics_increment (fn : string) (key : counter) : M unit :=
  with_metrics (increment fn key).

(** [metrics.updateMany(fn, latencies)] *)
Definition metrics_updateMany (fn : string) (l : Latencies) : M unit :=
  with_metrics (updateMany fn l).

(** [processResponse(returned, callRequest, metrics)], where [metrics] is the
    ledger of the world ([this.functionMetrics] at the only call site). *)
Definition processResponse (returned : FunctionReturn) (callRequest : FunctionCall)
  : M (Response jsval) :=
  error ← (if String.eqb (ret_type returned) "error"
           then e ← lift (rebuildError (ret_value returned)); mret (Some e)
           else mret None);
  (* const value = !error && returned.value; *)
  let value := match error with
               | Some _ => VBool false
               | None => ret_value returned
               end in
  let rv := {| value := value; error := error;
               rawResponse := ret_rawResponse returned;
               startLatency := None; executionLatency := None;
               returnLatency := None |} in
  let fn := call_name callRequest in
  metrics_increment fn completed;;
  rv ← (match executionStart returned, executionEnd returned with
        | Some es, Some ee =>
            if truthy (VNum es) && truthy (VNum ee) then
              now ← Date_now;
              let latencies :=
                {| lat_execution := ee - es;
                   lat_start := es - call_start callRequest;
                   lat_return := now - ee |} in
              metrics_updateMany fn latencies;;
              mret (spread_latencies rv latencies)
            else mret rv
        | _, _ => mret rv
        end);
  (match error with
   | Some _ => metrics_increment fn errors
   | None => mret tt
   end);;
  mret rv.

(** A function handed to the facade; only [fn.name] is used locally, the
    body runs on the backend. *)
Record AnyFunction : Type := mkFunction {
  fn_name : string
}.

(** [CloudFunctionImpl<State>], by the members the facade's call path uses.
    [callFunction] returns a promise; [settled] is how it settles. *)
Record CloudFunctionImpl (State : Type) : Type := mkImpl {
  impl_name : string;
  callFunction : State -> FunctionCall -> settled FunctionReturn
}.
Arguments impl_name {State}.
Arguments callFunction {State}.

(** A member of a module namespace handed to [cloudifyAll]:
    [typeof m === "function"] or not. *)
Inductive member : Type :=
| MFunction (f : AnyFunction)
| MData (v : jsval).

(** [Object.keys(module)] *)
Definition Object_keys {A} (o : gmap string A) : list string :=
  (map_to_list o).*1.

(** The two objects in scope in the loops of [cloudifyAll] and
    [cloudifyAllWithResponse]: the namespace passed in and the result. *)
Record Locals (P : Type) : Type := mkLocals {
  module : gmap string member;
  rv : gmap string P
}.
Arguments mkLocals {P}.
Arguments module {P}.
Arguments rv {P}.

(** The loop body:
<<
    if (typeof module[name] === "function") {
        rv[name] = wrap(module[name]);
    }
>> *)
Definition wrap_member {P} (wrap : AnyFunction -> P) (l : Locals P) (name : string)
  : Locals P :=
  match module l !! name with
  | Some (MFunction f) => {| module := module l; rv := <[name := wrap f]> (rv l) |}
  | _ => l
  end.

Definition wrap_all {P} (wrap : AnyFunction -> P) (module0 : gmap string member)
  : Locals P :=
  foldl (wrap_member wrap) {| module := module0; rv := ∅ |} (Object_keys module0).

Section CloudFunction.
Context {State : Type} (impl : CloudFunctionImpl State) (state : State).

(** [this.impl.callFunction(this.state, callRequest)]: the promise the
    backend hands back, by how it settles. *)
Definition impl_callFunction (callRequest : FunctionCall)
  : M (settled FunctionReturn) := fun w =>
  (Normal (callFunction impl state callRequest),
   {| ticks := ticks w; clock := clock w;
      drawn := drawn w; uuids := uuids w;
      functionMetrics := functionMetrics w;
      submitted := submitted w ++ [callRequest] |}).

(** [CloudFunction.cloudifyWithResponse(fn)]: the proxy, applied to [args]. *)
Definition cloudifyWithResponse (fn : AnyFunction) (args : list jsval)
  : M (Response jsval) :=
  CallId ← uuidv4;
  start ← Date_now;
  let callRequest :=
    {| call_name := fn_name fn; call_args := args;
       call_CallId := CallId; call_start := start |} in
  p ← impl_callFunction callRequest;
  rv ← await_catch p
         (fun value =>
            executionEnd ← Date_now;
            mret {| ret_type := "error";
                    ret_value := value;
                    ret_CallId := CallId;
                    ret_rawResponse := VUndefined;
                    executionStart := Some start;
                    executionEnd := Some executionEnd |});
  processResponse rv callRequest.

(** [CloudFunction.cloudify(fn)]: the proxy, applied to [args]. *)
Definition cloudify (fn : AnyFunction) (args : list jsval) : M jsval :=
  response ← cloudifyWithResponse fn args;
  match error response with
  | Some e => throw (ExnError e)      (* an Error object is always truthy *)
  | None => mret (value response)
  end.

(** [CloudFunction.cloudifyAll(module)] *)
Definition cloudifyAll (module0 : gmap string member)
  : gmap string (list jsval -> M jsval) :=
  rv (wrap_all cloudify module0).

(** [CloudFunction.cloudifyAllWithResponse(module)] *)
Definition cloudifyAllWithResponse (module0 : gmap string member)
  : gmap string (list jsval -> M (Response jsval)) :=
  rv (wrap_all cloudifyWithResponse module0).

End CloudFunction.

End Cloudify.

(* ===================================================================== *)
(** * aws/aws-cloudify.ts: the direct path and the teardown *)
(* ===================================================================== *)
Module Aws.
Import JS.

(** [aws.Lambda.Types.InvocationRequest], by the fields the code sets. *)
Record InvocationRequest : Type := mkInvocationRequest {
  req_FunctionName : string;
  req_LogType : string;
  req_Payload : string
}.

(** [aws.Lambda.Types.InvocationResponse], by the fields the code reads. *)
Record InvocationResponse : Type := mkInvocationResponse {
  FunctionError : option string;
  LogResult : option string;
  Payload : option string
}.

(** [aws.IAM.AttachedPolicy] *)
Record AttachedPolicy : Type := mkAttachedPolicy {
  PolicyName : option string;
  PolicyArn : option string
}.

(** [aws.IAM.ListAttachedRolePoliciesResponse] *)
Record ListAttachedRolePoliciesResponse : Type := mkPolicies {
  AttachedPolicies : option (list AttachedPolicy)
}.

(** The requests this file sends through the SDK, indexed by the type of
    what each resolves with. *)
Inductive Request : Type -> Type :=
| Lambda_invoke (request : InvocationRequest) : Request InvocationResponse
| Lambda_deleteFunction (FunctionName : string) : Request unit
| IAM_listAttachedRolePolicies (RoleName : string)
    : Request ListAttachedRolePoliciesResponse
| IAM_detachRolePolicy (RoleName : string) (PolicyArn : option string) : Request unit
| IAM_deleteRolePolicy (RoleName PolicyName : string) : Request unit
| IAM_deleteRole (RoleName : string) : Request unit
| CloudWatch_deleteLogGroup (logGroupName : string) : Request unit.

(** A request, forgetting the type of its reply. *)
Definition sent : Type := { T : Type & Request T }.

(** [AWSVariables] *)
Record State : Type := mkState {
  FunctionName : string;
  RoleName : string;
  roleNeedsCleanup : bool;
  logGroupName : string;
  region : string;
  noCreateLogGroupPolicy : string
}.

(** [Partial<AWSVariables>], the argument of [cleanup]. *)
Record PartialState : Type := mkPartialState {
  p_FunctionName : option string;
  p_RoleName : option string;
  p_roleNeedsCleanup : option bool;
  p_logGroupName : option string;
  p_region : option string;
  p_noCreateLogGroupPolicy : option string
}.

(** What the code of this file observes and changes: the provider's
    resources behind the service handles ([AWSServices]), the debug log, and
    (for the statements only) the requests sent so far, oldest first. *)
Record World (Cloud : Type) : Type := mkWorld {
  cloud : Cloud;
  logged : list jsval;
  issued : list sent
}.
Arguments mkWorld {Cloud}.
Arguments cloud {Cloud}.
Arguments logged {Cloud}.
Arguments issued {Cloud}.

(** The collaborators that are not code of this repository: the provider
    behind the SDK (how each request settles and what it does to the
    provider's resources), [JSON.stringify], [JSON.parse] ([None]: a
    SyntaxError) and the stack text the engine gives to an [Error] built
    locally. *)
Record Platform (Cloud : Type) : Type := mkPlatform {
  serve : forall T, Request T -> Cloud -> settled T * Cloud;
  JSON_stringify : jsval -> string;
  JSON_parse : string -> option jsval;
  local_stack : string
}.
Arguments serve {Cloud}.
Arguments JSON_stringify {Cloud}.
Arguments JSON_parse {Cloud}.
Arguments local_stack {Cloud}.

Section WithPlatform.
Context {Cloud : Type} (platform : Platform Cloud).

Abbreviation M := (SE (World Cloud)).

(** [log(entry)] *)
Definition log (entry : jsval) : M unit := fun w =>
  (Normal tt,
   {| cloud := cloud w; logged := logged w ++ [entry]; issued := issued w |}).

(** [request.promise()]: the request is sent and the promise settles. *)
Definition promise {T} (arg : Request T) : M (settled T) := fun w =>
  let '(outcome, cloud') := serve platform T arg (cloud w) in
  (Normal outcome,
   {| cloud := cloud'; logged := logged w;
      issued := issued w ++ [existT T arg] |}).

Definition settled_map {A B} (f : A -> B) (p : settled A) : settled B :=
  match p with
  | Resolved a => Resolved (f a)
  | Rejected reason => Rejected reason
  end.

(** [arg.promise().catch(err => log(err))]: resolves with the reply, or with
    [undefined] ([None]) after logging the failure. *)
Definition carefully {T} (arg : Request T) : M (option T) :=
  p ← promise arg;
  await_catch (settled_map Some p) (fun err => log err;; mret None).

(** [arg.promise().catch(_ => {})] *)
Definition quietly {T} (arg : Request T) : M (option T) :=
  p ← promise arg;
  await_catch (settled_map Some p) (fun _ => mret None).

(** The value a [catch] handler receives for what was thrown. *)
Definition caught (e : exn) : jsval :=
  match e with
  | ExnValue v => v
  | ExnError err =>
      VObj [("message", VStr (message err)); ("name", name err);
            ("stack", stack err)]
  | ExnTypeError => VObj [("name", VStr "TypeError")]
  | ExnSyntaxError => VObj [("name", VStr "SyntaxError")]
  end.

(** [m.catch(handler)] around a computation. *)
Definition try_catch {A} (m : M A) (handler : jsval -> M A) : M A := fun w =>
  match m w with
  | (Normal a, w') => (Normal a, w')
  | (Throw e, w') => handler (caught e) w'
  end.

(** [Promise.all(items.map(f))]: the requests go out in the order of the
    list, and the result is rejected as soon as one element is. *)
Fixpoint Promise_all_map {A B} (f : A -> M B) (items : list A) : M (list B) :=
  match items with
  | [] => mret []
  | x :: rest =>
      y ← f x;
      ys ← Promise_all_map f rest;
      mret (y :: ys)
  end.

(** [new Error(m)] built locally: name and stack as the engine sets them. *)
Definition new_Error (m : jsval) : Error :=
  {| message := Error_message m; name := VStr "Error";
     stack := VStr (local_stack platform) |}.

Definition opt_str (o : option string) : jsval :=
  match o with
  | Some s => VStr s
  | None => VUndefined
  end.

(** [let callArgs: FunctionCall = { name: fn.name, args };] *)
Definition callArgs (fn : Cloudify.AnyFunction) (args : list jsval) : jsval :=
  VObj [("name", VStr (Cloudify.fn_name fn)); ("args", VArr args)].

(** [cloudifyWithResponse(state, fn)]: the proxy, applied to [args].  The
    calls of [log] in this function only write to the debug channel and are
    left out. *)
Definition cloudifyWithResponse (state : State) (fn : Cloudify.AnyFunction)
    (args : list jsval) : M (Cloudify.Response InvocationResponse) :=
  let callArgsStr := JSON_stringify platform (callArgs fn args) in
  let request :=
    {| req_FunctionName := FunctionName state;
       req_LogType := "Tail";
       req_Payload := callArgsStr |} in
  p ← promise (Lambda_invoke request);
  rawResponse ← await p;
  let error :=
    if truthy_str (FunctionError rawResponse)
    then Some (new_Error (opt_str (Payload rawResponse)))
    else None in
  (* returned = !error && rawResponse.Payload && JSON.parse(rawResponse.Payload) *)
  returned ← match error with
             | Some _ => mret (VBool false)
             | None =>
                 if truthy_str (Payload rawResponse)
                 then match JSON_parse platform (default "" (Payload rawResponse)) with
                      | Some v => mret v
                      | None => throw ExnSyntaxError
                      end
                 else mret (opt_str (Payload rawResponse))
             end;
  error ← (if truthy returned
              && strict_eq_str (default VUndefined (get returned "type")) "error"
           then e ← lift (rebuildError (default VUndefined (get returned "value")));
                mret (Some e)
           else mret error);
  (* value = !error && returned && returned.value *)
  let value :=
    match error with
    | Some _ => VBool false
    | None =>
        if truthy returned
        then default VUndefined (get returned "value")
        else returned
    end in
  mret (Cloudify.mkResponse value error rawResponse None None None).

(** [deleteRole(RoleName, noCreateLogGroupPolicy, iam)] *)
Definition deleteRole (RoleName : string) (noCreateLogGroupPolicy : option string)
  : M unit :=
  policies ← carefully (IAM_listAttachedRolePolicies RoleName);
  (* (policies && policies.AttachedPolicies) || [] *)
  let AttachedPolicies :=
    match policies with
    | Some reply => default [] (AttachedPolicies reply)
    | None => []
    end in
  let detach (policy : AttachedPolicy) :=
    carefully (IAM_detachRolePolicy RoleName (PolicyArn policy)) in
  try_catch (Promise_all_map detach AttachedPolicies ≫= fun _ => mret tt)
            (fun err => log err);;
  (if truthy_str noCreateLogGroupPolicy
   then carefully (IAM_deleteRolePolicy RoleName (default "" noCreateLogGroupPolicy));;
        mret tt
   else mret tt);;
  carefully (IAM_deleteRole RoleName);;
  mret tt.

(** [cleanup(state)] *)
Definition cleanup (state : PartialState) : M unit :=
  (if truthy_str (p_FunctionName state)
   then let FunctionName := default "" (p_FunctionName state) in
        log (VStr ("Deleting function: " +:+ FunctionName));;
        carefully (Lambda_deleteFunction FunctionName);;
        mret tt
   else mret tt);;
  (if truthy_str (p_RoleName state) && bool_decide (p_roleNeedsCleanup state = Some true)
   then let RoleName := default "" (p_RoleName state) in
        log (VStr ("Deleting role name: " +:+ RoleName));;
        deleteRole RoleName (p_noCreateLogGroupPolicy state)
   else mret tt);;
  (if truthy_str (p_logGroupName state)
   then let logGroupName := default "" (p_logGroupName state) in
        log (VStr ("Deleting log group: " +:+ logGroupName));;
        carefully (CloudWatch_deleteLogGroup logGroupName);;
        mret tt
   else mret tt).

(** Modelled from the spec: the garbage collector's Reclaim step, "for each
    orphan, invoke a pluggable worker with the backend's service handles and
    the orphan's resource descriptors; the worker attempts to delete every
    resource kind belonging to that record, tolerating and logging (never
    aborting on) individual deletion failures".  The collector is not among
    the sources; the worker plugged in here is [cleanup], and an orphan's
    descriptors are the variables [cleanup] takes. *)
Fixpoint gcReclaim (orphans : list PartialState) : M unit :=
  match orphans with
  | [] => mret tt
  | orphan :: rest => cleanup orphan;; gcReclaim rest
  end.

End WithPlatform.

End Aws.

(* ===================================================================== *)
(** * funnel.ts *)
(* ===================================================================== *)
Module Funnel.

(** Modelled from the spec: the Invocation Funnel, "a FIFO queue of
    not-yet-started operations and a running count.  An operation is admitted
    (moved to running) only when running < current max.  On settlement of a
    running operation, running is decremented and the queue head, if any, is
    admitted ... Default cap, if never set, is unbounded" (the class Funnel
    of ../funnel is not among the sources). *)
Record t (Task : Type) : Type := mk {
  pendingQueue : list Task;
  running : nat;
  maxConcurrency : option nat
}.
Arguments mk {Task}.
Arguments pendingQueue {Task}.
Arguments running {Task}.
Arguments maxConcurrency {Task}.

(** Modelled from the spec: a funnel just created, with no cap set. *)
Definition empty {Task} : t Task :=
  {| pendingQueue := []; running := 0%nat; maxConcurrency := None |}.

(** Modelled from the spec: "running < current max", no cap meaning
    unbounded. *)
Definition has_room (running : nat) (cap : option nat) : bool :=
  match cap with
  | None => true
  | Some n => (running <? n)%nat
  end.

(** Modelled from the spec: admission in arrival order while there is room;
    returns the operations started, the ones left queued and the new running
    count. *)
Fixpoint take_queued {Task} (queue : list Task) (running : nat) (cap : option nat)
  : list Task * list Task * nat :=
  match queue with
  | [] => ([], [], running)
  | task :: rest =>
      if has_room running cap
      then let '(started, queued, n) := take_queued rest (S running) cap in
           (task :: started, queued, n)
      else ([], queue, running)
  end.

(** Modelled from the spec: the funnel after admission from [queue]. *)
Definition dispatch {Task} (queue : list Task) (running : nat) (cap : option nat)
  : list Task * t Task :=
  let '(started, queued, n) := take_queued queue running cap in
  (started, {| pendingQueue := queued; running := n; maxConcurrency := cap |}).

(** Modelled from the spec: [push(operation)]. *)
Definition push {Task} (task : Task) (f : t Task) : list Task * t Task :=
  dispatch (pendingQueue f ++ [task]) (running f) (maxConcurrency f).

(** Modelled from the spec: settlement of a running operation. *)
Definition settle {Task} (f : t Task) : list Task * t Task :=
  dispatch (pendingQueue f) (Nat.pred (running f)) (maxConcurrency f).

(** Modelled from the spec: [setMaxConcurrency(n)], which "changes the cap
    for future admissions only ... if the new cap is larger it immediately
    attempts to admit queued operations up to the new limit". *)
Definition setMaxConcurrency {Task} (n : nat) (f : t Task) : list Task * t Task :=
  dispatch (pendingQueue f) (running f) (Some n).

(** Modelled from the spec: [clearPending()], which "removes every operation
    still queued (not yet admitted) without starting it"; returns the
    operations removed. *)
Definition clearPending {Task} (f : t Task) : list Task * t Task :=
  (pendingQueue f,
   {| pendingQueue := []; running := running f;
      maxConcurrency := maxConcurrency f |}).

End Funnel.

(* ===================================================================== *)
(** * process-cloudify.ts: the child-process backend *)
(* ===================================================================== *)
Module Process.
Import JS Shared.

Definition pid : Type := nat.

(** A forked trampoline process: the call it was sent and how the promise
    of that call has settled so far ([None]: still pending). *)
Record Child : Type := mkChild {
  child_call : FunctionCall;
  child_outcome : option (settled FunctionReturn)
}.

(** [State], by the fields the call path and [stop] use. *)
Record State : Type := mkState {
  childProcesses : gset pid;                 (* resources.childProcesses *)
  callFunnel : Funnel.t FunctionCall
}.

(** One call of [stop]: the children it registered an exit listener on, and
    those whose exit it still awaits.  The promise [completed] is resolved,
    and [stop] returns, when nothing is awaited any more. *)
Record StopCall : Type := mkStop {
  listened : gset pid;
  awaited : gset pid
}.

Definition stop_resolved (s : StopCall) : bool :=
  bool_decide (awaited s = ∅).

(** The backend instance together with what the operating system and the
    event loop hold for it: every child forked so far (numbered in fork
    order), the children whose exit event has fired, the children [kill()]
    was called on, the funnel tasks cancelled, and the calls of [stop]. *)
Record World : Type := mkWorld {
  state : State;
  forked : list Child;
  exited : gset pid;
  killed : gset pid;
  cancelled : list FunctionCall;
  stops : list StopCall
}.

(** [initialize(serverModule, options)] *)
Definition initialize : World :=
  {| state := {| childProcesses := ∅; callFunnel := Funnel.empty |};
     forked := []; exited := ∅; killed := ∅; cancelled := []; stops := [] |}.

Definition with_state (f : State -> State) (w : World) : World :=
  {| state := f (state w); forked := forked w; exited := exited w;
     killed := killed w; cancelled := cancelled w; stops := stops w |}.

Definition set_funnel (f : Funnel.t FunctionCall) (w : World) : World :=
  with_state (fun s => {| childProcesses := childProcesses s; callFunnel := f |}) w.

(** The funnel task of [callFunction], once started:
    [childProcess.fork(...)], [state.resources.childProcesses.add(child)],
    [child.send(pfCall)]. *)
Definition fork (w : World) (call : FunctionCall) : World :=
  let child : pid := length (forked w) in
  {| state := {| childProcesses := {[child]} ∪ childProcesses (state w);
                 callFunnel := callFunnel (state w) |};
     forked := forked w ++ [{| child_call := call; child_outcome := None |}];
     exited := exited w; killed := killed w;
     cancelled := cancelled w; stops := stops w |}.

Definition start_all (started : list FunctionCall) (w : World) : World :=
  foldl fork w started.

(** [resolve(v)] / [reject(err)] of the promise of child [p]: settles it if
    it is still pending, and the funnel then admits from its queue. *)
Definition settle_child (p : pid) (outcome : settled FunctionReturn) (w : World)
  : World :=
  match forked w !! p with
  | Some {| child_call := call; child_outcome := None |} =>
      let '(started, f) := Funnel.settle (callFunnel (state w)) in
      let w1 :=
        {| state := {| childProcesses := childProcesses (state w); callFunnel := f |};
           forked := <[p := {| child_call := call; child_outcome := Some outcome |}]>
                       (forked w);
           exited := exited w; killed := killed w;
           cancelled := cancelled w; stops := stops w |} in
      start_all started w1
  | _ => w
  end.

(** [state.resources.childProcesses.delete(child)] *)
Definition delete_child (p : pid) (w : World) : World :=
  with_state (fun s => {| childProcesses := childProcesses s ∖ {[p]};
                          callFunnel := callFunnel s |}) w.

Definition error_object (msg : string) : jsval :=
  VObj [("message", VStr msg); ("name", VStr "Error")].

(** What happens to the instance: calls of its methods and the events Node
    emits on its children. *)
Inductive Event : Type :=
| CallFunction (call : FunctionCall)
| ChildMessage (p : pid) (ret : FunctionReturn)
| ChildError (p : pid) (err : jsval)
| ChildExit (p : pid) (code : option Z) (signal : option string)
| Stop
| SetConcurrency (maxConcurrentExecutions : nat).

(** A child emits events only once forked. *)
Definition is_forked (p : pid) (w : World) : bool :=
  bool_decide (p < length (forked w))%nat.

(** A child emits its exit event once. *)
Definition alive (p : pid) (w : World) : bool :=
  bool_decide (p < length (forked w))%nat && bool_decide (p ∉ exited w).

(** [callFunction(state, call)]: [state.callFunnel.push(task)]. *)
Definition callFunction (call : FunctionCall) (w : World) : World :=
  let '(started, f) := Funnel.push call (callFunnel (state w)) in
  start_all started (set_funnel f w).

(** [child.on("message", resolve)] *)
Definition on_message (p : pid) (ret : FunctionReturn) (w : World) : World :=
  settle_child p (Resolved ret) w.

(** The handler of the child's error event:
<<
    state.resources.childProcesses.delete(child);
    reject(err);
>> *)
Definition on_error (p : pid) (err : jsval) (w : World) : World :=
  settle_child p (Rejected err) (delete_child p w).

(** The handlers of the child's exit event, in the order they were
    registered: the one of [callFunction],
<<
    if (code) { reject(new Error(`Exited with error code ${code}`)); }
    else if (signal) { reject(new Error(`Aborted with signal ${signal}`)); }
    state.resources.childProcesses.delete(child);
>>
    then the [resolve] of every [stop] that listens on this child. *)
Definition on_exit (p : pid) (code : option Z) (signal : option string) (w : World)
  : World :=
  let w1 :=
    if truthy_num code
    then settle_child p
           (Rejected (error_object
              ("Exited with error code " +:+ pretty (default 0 code)))) w
    else if truthy_str signal
    then settle_child p
           (Rejected (error_object
              ("Aborted with signal " +:+ default "" signal))) w
    else w in
  let w2 := delete_child p w1 in
  {| state := state w2; forked := forked w2;
     exited := {[p]} ∪ exited w2; killed := killed w2;
     cancelled := cancelled w2;
     stops := (fun s => {| listened := listened s; awaited := awaited s ∖ {[p]} |})
                <$> stops w2 |}.

(** [stop(state)], up to its [await]:
<<
    state.callFunnel.clearPending();
    const childProcesses = state.resources.childProcesses;
    const completed = Promise.all(
        [...childProcesses].map(p => new Promise(resolve => p.on("exit", resolve))));
    childProcesses.forEach(p => p.kill());
    await completed;
>> *)
Definition stop (w : World) : World :=
  let '(removed, f) := Funnel.clearPending (callFunnel (state w)) in
  let childProcesses := childProcesses (state w) in
  {| state := {| childProcesses := childProcesses; callFunnel := f |};
     forked := forked w;
     exited := exited w;
     killed := killed w ∪ childProcesses;
     cancelled := cancelled w ++ removed;
     stops := stops w ++ [{| listened := childProcesses; awaited := childProcesses |}] |}.

(** [cleanup(state)] is [stop(state)]. *)
Definition cleanup (w : World) : World := stop w.

(** [setConcurrency(state, n)]: [state.callFunnel.setMaxConcurrency(n)]. *)
Definition setConcurrency (n : nat) (w : World) : World :=
  let '(started, f) := Funnel.setMaxConcurrency n (callFunnel (state w)) in
  start_all started (set_funnel f w).

Definition step (w : World) (e : Event) : World :=
  match e with
  | CallFunction call => callFunction call w
  | ChildMessage p ret => if is_forked p w then on_message p ret w else w
  | ChildError p err => if is_forked p w then on_error p err w else w
  | ChildExit p code signal => if alive p w then on_exit p code signal w else w
  | Stop => stop w
  | SetConcurrency n => setConcurrency n w
  end.

Definition run (events : list Event) (w : World) : World :=
  foldl step w events.

(** The children whose call is in flight: forked, promise still pending. *)
Definition in_flight (p : pid) (w : World) : bool :=
  match forked w !! p with
  | Some c => negb (bool_decide (is_Some (child_outcome c)))
              && bool_decide (p ∉ exited w)
  | None => false
  end.

End Process.

(* ===================================================================== *)
(** * Vocabulary of the statements *)
(* ===================================================================== *)
Module Statements.
Import JS Shared Cloudify.

(** [v.k], where [v] is known not to be [undefined] or [null]. *)
Definition getd (v : jsval) (k : string) : jsval := default VUndefined (get v k).

(** The local error that carries the name, message and stack of a remote
    error value. *)
Definition rebuilt (errValue : jsval) : Error :=
  {| message := Error_message (getd errValue "message");
     name := getd errValue "name";
     stack := getd errValue "stack" |}.

(** A remote error with name [N], message [M] and stack [S]. *)
Definition carries (errValue : jsval) (N M S : string) : Prop :=
  get errValue "name" = Some (VStr N) /\
  get errValue "message" = Some (VStr M) /\
  get errValue "stack" = Some (VStr S).

Definition is_error (returned : FunctionReturn) : bool :=
  String.eqb (ret_type returned) "error".

(** A Return whose error outcome, if it has one, carries an error value. *)
Definition well_formed (returned : FunctionReturn) : Prop :=
  is_error returned = true -> nullish (ret_value returned) = false.

(** Both execution timestamps are present and not zero. *)
Definition timed (returned : FunctionReturn) : bool :=
  truthy_num (executionStart returned) && truthy_num (executionEnd returned).

(** A backend outcome the facade turns into a Response: a well-formed
    Return, or a rejection whose reason is not [undefined] or [null]. *)
Definition acceptable (p : settled FunctionReturn) : Prop :=
  match p with
  | Resolved returned => well_formed returned
  | Rejected reason => nullish reason = false
  end.

(** The Call an invocation of a facade proxy builds in world [w]. *)
Definition call_built (fn : AnyFunction) (args : list jsval) (w : World)
  : FunctionCall :=
  {| call_name := fn_name fn; call_args := args;
     call_CallId := uuids w (drawn w);
     call_start := clock w (ticks w) |}.

(** The world in which the backend's promise has settled: one identifier
    drawn, the clock read once, the call handed over. *)
Definition after_submit (fn : AnyFunction) (args : list jsval) (w : World) : World :=
  {| ticks := S (ticks w); clock := clock w;
     drawn := S (drawn w); uuids := uuids w;
     functionMetrics := functionMetrics w;
     submitted := submitted w ++ [call_built fn args w] |}.

(** The clock read once more. *)
Definition tick (w : World) : World :=
  {| ticks := S (ticks w); clock := clock w;
     drawn := drawn w; uuids := uuids w;
     functionMetrics := functionMetrics w; submitted := submitted w |}.

(** The error Return that stands for a failed attempt: started when the
    call was built, ended when the failure was caught. *)
Definition synthesized (reason : jsval) (fn : AnyFunction) (args : list jsval)
    (w : World) : FunctionReturn :=
  {| ret_type := "error";
     ret_value := reason;
     ret_CallId := uuids w (drawn w);
     ret_rawResponse := VUndefined;
     executionStart := Some (clock w (ticks w));
     executionEnd := Some (clock w (S (ticks w))) |}.

(** An invocation of a [cloudifyWithResponse] proxy up to its [await]: the
    Call is built and handed to the backend. *)
Definition submit_call {State} (impl : CloudFunctionImpl State) (state : State)
    (fn : AnyFunction) (args : list jsval)
  : M (FunctionCall * settled FunctionReturn) :=
  CallId ← uuidv4;
  start ← Date_now;
  let callRequest :=
    {| call_name := fn_name fn; call_args := args;
       call_CallId := CallId; call_start := start |} in
  p ← impl_callFunction impl state callRequest;
  mret (callRequest, p).

(** The same invocation from the moment the backend's promise has settled
    with [p], which is when the event loop resumes it. *)
Definition respond (callRequest : FunctionCall) (p : settled FunctionReturn)
  : M (Response jsval) :=
  rv ← await_catch p
         (fun value =>
            executionEnd ← Date_now;
            mret {| ret_type := "error";
                    ret_value := value;
                    ret_CallId := call_CallId callRequest;
                    ret_rawResponse := VUndefined;
                    executionStart := Some (call_start callRequest);
                    executionEnd := Some executionEnd |});
  processResponse rv callRequest.

(** One turn of the event loop on a facade: a proxy is invoked, or the
    promise of a call settles, in whatever way, and its invocation resumes.
    Between two turns no code of the facade runs. *)
Inductive Turn : Type :=
| Invoked (fn : AnyFunction) (args : list jsval)
| Settled (callRequest : FunctionCall) (p : settled FunctionReturn).

Definition turn {State} (impl : CloudFunctionImpl State) (state : State)
    (w : World) (t : Turn) : World :=
  match t with
  | Invoked fn args => snd (submit_call impl state fn args w)
  | Settled callRequest p => snd (respond callRequest p w)
  end.

(** The world after a series of turns, the invocations interleaved in any
    way. *)
Definition lifetime {State} (impl : CloudFunctionImpl State) (state : State)
    (turns : list Turn) (w : World) : World :=
  foldl (turn impl state) w turns.

(** The invocations made in a series of turns, in order. *)
Definition invocations (turns : list Turn) : list (AnyFunction * list jsval) :=
  omap (fun t => match t with
                 | Invoked fn args => Some (fn, args)
                 | Settled _ _ => None
                 end) turns.

(** The counters of a function name in a ledger. *)
Definition completed_of (fn : string) (w : World) : N :=
  completedCount (metrics_of fn (functionMetrics w)).
Definition errors_of (fn : string) (w : World) : N :=
  errorCount (metrics_of fn (functionMetrics w)).

Definition N_of_bool (b : bool) : N := if b then 1%N else 0%N.

(** The ledger after a Return was processed for function [fn]. *)
Definition ledger_after (returned : FunctionReturn) (fn : string)
    (l : Latencies) (m : FunctionMetricsMap) : FunctionMetricsMap :=
  let m1 := increment fn completed m in
  let m2 := if timed returned then updateMany fn l m1 else m1 in
  if is_error returned then increment fn errors m2 else m2.

Definition latencies_at (returned : FunctionReturn) (callRequest : FunctionCall)
    (now : Z) : Latencies :=
  let es := default 0 (executionStart returned) in
  let ee := default 0 (executionEnd returned) in
  {| lat_execution := ee - es;
     lat_start := es - call_start callRequest;
     lat_return := now - ee |}.

End Statements.

(* ===================================================================== *)
(** * Concrete inputs *)
(* ===================================================================== *)
Module Examples.
Import JS Shared Cloudify Statements.

(** A world whose clock reads 1250, 1251, ... and whose identifiers are
    "0", "1", ... *)
Definition world0 : World :=
  {| ticks := 0%nat; clock := fun n => 1250 + Z.of_nat n;
     drawn := 0%nat; uuids := fun n => pretty n;
     functionMetrics := ∅; submitted := [] |}.

Definition hello : AnyFunction := {| fn_name := "hello" |}.

(** The call of the spec's latency example: submitted at 1000. *)
Definition call1000 : FunctionCall :=
  {| call_name := "hello"; call_args := [VStr "world"];
     call_CallId := "c1"; call_start := 1000 |}.

(** The Return of the spec's latency example. *)
Definition return_timed : FunctionReturn :=
  {| ret_type := "returned"; ret_value := VStr "Hello world";
     ret_CallId := "c1"; ret_rawResponse := VNull;
     executionStart := Some 1050; executionEnd := Some 1200 |}.

(** A Return that carries both timestamps, the first being 0. *)
Definition return_epoch : FunctionReturn :=
  {| ret_type := "returned"; ret_value := VStr "Hello world";
     ret_CallId := "c1"; ret_rawResponse := VNull;
     executionStart := Some 0; executionEnd := Some 1200 |}.

(** The remote error of the spec's example. *)
Definition validation_error : jsval :=
  VObj [("name", VStr "ValidationError");
        ("message", VStr "bad input");
        ("stack", VStr "ValidationError: bad input at remote.js:1")].

Definition return_error : FunctionReturn :=
  {| ret_type := "error"; ret_value := validation_error;
     ret_CallId := "c1"; ret_rawResponse := VNull;
     executionStart := Some 1050; executionEnd := Some 1200 |}.

(** Backends that settle every call the same way. *)
Definition backend_resolving (returned : FunctionReturn) : CloudFunctionImpl unit :=
  {| impl_name := "test"; callFunction := fun _ _ => Resolved returned |}.

Definition backend_rejecting (reason : jsval) : CloudFunctionImpl unit :=
  {| impl_name := "test"; callFunction := fun _ _ => Rejected reason |}.

(** Two invocations in flight at once, the second settling first, with a
    failure. *)
Definition overlapping : list Turn :=
  [Invoked hello [VStr "a"];
   Invoked hello [VStr "b"];
   Settled {| call_name := "hello"; call_args := [VStr "b"];
              call_CallId := "1"; call_start := 1251 |}
           (Rejected validation_error);
   Settled {| call_name := "hello"; call_args := [VStr "a"];
              call_CallId := "0"; call_start := 1250 |}
           (Resolved return_timed)].

End Examples.

(* ===================================================================== *)
(** * Vocabulary of the statements about aws-cloudify.ts *)
(* ===================================================================== *)
Module AwsStatements.
Import JS Aws.

(** The invocation request the direct path sends for [fn(...args)]. *)
Definition request_of {Cloud} (platform : Platform Cloud) (state : State)
    (fn : Cloudify.AnyFunction) (args : list jsval) : InvocationRequest :=
  {| req_FunctionName := FunctionName state;
     req_LogType := "Tail";
     req_Payload := JSON_stringify platform (callArgs fn args) |}.

(** The requests that delete a resource. *)
Inductive Deletion : Type :=
| DelFunction (FunctionName : string)
| DelRolePolicy (RoleName PolicyName : string)
| DelRole (RoleName : string)
| DelLogGroup (logGroupName : string).

Definition as_deletion (s : sent) : option Deletion :=
  match projT2 s with
  | Lambda_deleteFunction n => Some (DelFunction n)
  | IAM_deleteRolePolicy r p => Some (DelRolePolicy r p)
  | IAM_deleteRole r => Some (DelRole r)
  | CloudWatch_deleteLogGroup l => Some (DelLogGroup l)
  | _ => None
  end.

Definition deletions (trace : list sent) : list Deletion := omap as_deletion trace.

(** The deletions [deleteRole] is to attempt. *)
Definition role_deletions (RoleName : string) (noCreateLogGroupPolicy : option string)
  : list Deletion :=
  (if truthy_str noCreateLogGroupPolicy
   then [DelRolePolicy RoleName (default "" noCreateLogGroupPolicy)]
   else []) ++ [DelRole RoleName].

(** The deletions [cleanup] is to attempt for the variables it is given. *)
Definition targeted (state : PartialState) : list Deletion :=
  (if truthy_str (p_FunctionName state)
   then [DelFunction (default "" (p_FunctionName state))] else [])
  ++ (if truthy_str (p_RoleName state)
         && bool_decide (p_roleNeedsCleanup state = Some true)
      then role_deletions (default "" (p_RoleName state))
             (p_noCreateLogGroupPolicy state)
      else [])
  ++ (if truthy_str (p_logGroupName state)
      then [DelLogGroup (default "" (p_logGroupName state))] else []).

(** A computation that never throws, whatever the provider answers, and
    attempts exactly the deletions [ds], in this order. *)
Definition attempts {Cloud A} (m : SE (World Cloud) A) (ds : list Deletion) : Prop :=
  forall w, exists a w',
    m w = (Normal a, w') /\
    deletions (issued w') = deletions (issued w) ++ ds.

End AwsStatements.

(* ===================================================================== *)
(** * A provider to run the AWS code against *)
(* ===================================================================== *)
Module AwsSim.
Import JS Aws.

(** A role: the managed policies attached to it and its inline policies. *)
Record Role : Type := mkRole {
  attached : list AttachedPolicy;
  inline : gset string
}.

(** The resources of an account. *)
Record Cloud : Type := mkCloud {
  functions : gset string;
  roles : gmap string Role;
  logGroups : gset string
}.

Definition aws_error (code : string) : jsval := VObj [("code", VStr code)].

Definition has_arn (arn : option string) (p : AttachedPolicy) : bool :=
  bool_decide (PolicyArn p = arn).

Definition set_role (r : string) (role : option Role) (c : Cloud) : Cloud :=
  {| functions := functions c;
     roles := match role with
              | Some x => <[r := x]> (roles c)
              | None => delete r (roles c)
              end;
     logGroups := logGroups c |}.

(** Every deletion of something absent is rejected, as the provider does;
    a role still holding a policy cannot be deleted. *)
Definition sim_serve (T : Type) (req : Request T) (c : Cloud) : settled T * Cloud :=
  match req in Request T return settled T * Cloud with
  | Lambda_invoke _ => (Rejected (aws_error "ResourceNotFoundException"), c)
  | Lambda_deleteFunction n =>
      if bool_decide (n ∈ functions c)
      then (Resolved tt,
            {| functions := functions c ∖ {[n]}; roles := roles c;
               logGroups := logGroups c |})
      else (Rejected (aws_error "ResourceNotFoundException"), c)
  | IAM_listAttachedRolePolicies r =>
      match roles c !! r with
      | Some role => (Resolved {| AttachedPolicies := Some (attached role) |}, c)
      | None => (Rejected (aws_error "NoSuchEntity"), c)
      end
  | IAM_detachRolePolicy r arn =>
      match roles c !! r with
      | Some role =>
          if existsb (has_arn arn) (attached role)
          then (Resolved tt,
                set_role r (Some {| attached := filter (fun p => PolicyArn p <> arn)
                                                  (attached role);
                                    inline := inline role |}) c)
          else (Rejected (aws_error "NoSuchEntity"), c)
      | None => (Rejected (aws_error "NoSuchEntity"), c)
      end
  | IAM_deleteRolePolicy r p =>
      match roles c !! r with
      | Some role =>
          if bool_decide (p ∈ inline role)
          then (Resolved tt,
                set_role r (Some {| attached := attached role;
                                    inline := inline role ∖ {[p]} |}) c)
          else (Rejected (aws_error "NoSuchEntity"), c)
      | None => (Rejected (aws_error "NoSuchEntity"), c)
      end
  | IAM_deleteRole r =>
      match roles c !! r with
      | Some role =>
          if bool_decide (attached role = []) && bool_decide (inline role = ∅)
          then (Resolved tt, set_role r None c)
          else (Rejected (aws_error "DeleteConflict"), c)
      | None => (Rejected (aws_error "NoSuchEntity"), c)
      end
  | CloudWatch_deleteLogGroup l =>
      if bool_decide (l ∈ logGroups c)
      then (Resolved tt,
            {| functions := functions c; roles := roles c;
               logGroups := logGroups c ∖ {[l]} |})
      else (Rejected (aws_error "ResourceNotFoundException"), c)
  end.

Definition sim : Platform Cloud :=
  {| serve := sim_serve;
     JSON_stringify := fun _ => "";
     JSON_parse := fun _ => None;
     local_stack := "Error at local.js:1" |}.

(** An account holding what one instance created. *)
Definition account : Cloud :=
  {| functions := {["cloudify-1"]};
     roles := {["cloudify-role-1" :=
                  {| attached :=
                       [{| PolicyName := Some "AdministratorAccess";
                           PolicyArn := Some "arn:aws:iam::aws:policy/AdministratorAccess" |}];
                     inline := {["cloudify-deny-create-log-group-policy"]} |}]};
     logGroups := {["/aws/lambda/cloudify-1"]} |}.

Definition empty_account : Cloud :=
  {| functions := ∅; roles := ∅; logGroups := ∅ |}.

Definition instance : PartialState :=
  {| p_FunctionName := Some "cloudify-1";
     p_RoleName := Some "cloudify-role-1";
     p_roleNeedsCleanup := Some true;
     p_logGroupName := Some "/aws/lambda/cloudify-1";
     p_region := Some "us-east-1";
     p_noCreateLogGroupPolicy := Some "cloudify-deny-create-log-group-policy" |}.

Definition start_world (c : Cloud) : World Cloud :=
  {| cloud := c; logged := []; issued := [] |}.

(** A provider whose Lambda service settles every invocation with
    [outcome], and which parses the payload ["<error>"] as the Return of the
    remote error of [Examples]. *)
Definition invoking (outcome : settled InvocationResponse) : Platform unit :=
  {| serve := fun T (req : Request T) c =>
       match req in Request T return settled T * unit with
       | Lambda_invoke _ => (outcome, c)
       | _ => (Rejected (aws_error "ServiceUnavailable"), c)
       end;
     JSON_stringify := fun _ => "<call>";
     JSON_parse := fun s =>
       if String.eqb s "<error>"
       then Some (VObj [("type", VStr "error");
                        ("value", Examples.validation_error)])
       else None;
     local_stack := "Error at local.js:1" |}.

Definition deployed : State :=
  {| FunctionName := "cloudify-1"; RoleName := "cloudify-role-1";
     roleNeedsCleanup := true; logGroupName := "/aws/lambda/cloudify-1";
     region := "us-east-1";
     noCreateLogGroupPolicy := "cloudify-deny-create-log-group-policy" |}.

Definition idle : World unit := {| cloud := tt; logged := []; issued := [] |}.

End AwsSim.

(* ===================================================================== *)
(** * Vocabulary of the statements about process-cloudify.ts *)
(* ===================================================================== *)
Module ProcessStatements.
Import JS Shared Process.

(** What holds of a backend instance at every moment of its life. *)
Definition consistent (w : World) : Prop :=
  (forall p, p ∈ childProcesses (state w) ->
             (p < length (forked w))%nat /\ p ∉ exited w) /\
  (forall p, p ∈ exited w -> (p < length (forked w))%nat) /\
  (forall s, s ∈ stops w ->
             (forall p, p ∈ listened s -> p ∈ awaited s \/ p ∈ exited w) /\
             (forall p, p ∈ awaited s -> p ∈ listened s /\ p ∉ exited w)).

(** Two calls, both running in a child of their own. *)
Definition call_a : FunctionCall :=
  {| call_name := "hello"; call_args := []; call_CallId := "a"; call_start := 1000 |}.
Definition call_b : FunctionCall :=
  {| call_name := "hello"; call_args := []; call_CallId := "b"; call_start := 1001 |}.
Definition two_running : list Event := [CallFunction call_a; CallFunction call_b].
Definition both_exit : list Event :=
  [ChildExit 0%nat None (Some "SIGTERM"); ChildExit 1%nat None (Some "SIGTERM")].
Definition send_failed : list Event :=
  [CallFunction call_a; CallFunction call_b; ChildError 0%nat (VObj [("code", VStr "ERR_IPC_CHANNEL_CLOSED")])].
Definition stop_then_exit : list Event :=
  [Stop; ChildExit 1%nat None (Some "SIGTERM")].

End ProcessStatements.

(* ===================================================================== *)
(** * process-cloudify.ts: the log buffer *)
(* ===================================================================== *)
Module ProcessLog.

(** [LogEntry], as [appendLog] builds it: [{ message: chunk, timestamp }]. *)
Record LogEntry : Type := mkLogEntry {
  message : string;
  timestamp : Z
}.

(** [appendLog(chunk)] of [callFunction], on [state.logEntries]; [now] is
    what [Date.now()] returns:
<<
    if (state.logEntries.length > 5000) {
        state.logEntries.splice(0, 1000);
    }
    state.logEntries.push({ message: chunk, timestamp: Date.now() });
>> *)
Definition appendLog (chunk : string) (now : Z) (logEntries : list LogEntry)
  : list LogEntry :=
  (if Z.ltb 5000 (Z.of_nat (length logEntries))
   then drop 1000 logEntries
   else logEntries)
  ++ [{| message := chunk; timestamp := now |}].

(** [readLogs(state)], an async generator: the batches it yields and the
    [state.logEntries] it leaves:
<<
    const entries = state.logEntries;
    state.logEntries = [];
    if (entries.length > 0) { yield entries; }
>> *)
Definition readLogs (logEntries : list LogEntry)
  : list (list LogEntry) * list LogEntry :=
  let entries := logEntries in
  (if Z.ltb 0 (Z.of_nat (length entries)) then [entries] else [], []).

(** What happens to the log of an instance: a child writes a chunk to its
    stdout or stderr, or the log is read. *)
Inductive LogEvent : Type :=
| Output (chunk : string) (now : Z)
| Read.

(** The log of an instance with, for the statements only, every entry ever
    appended and every batch ever yielded, oldest first. *)
Record LogState : Type := mkLogState {
  logEntries : list LogEntry;
  appended : list LogEntry;
  yielded : list (list LogEntry)
}.

(** [initialize]: [logEntries: []]. *)
Definition no_log : LogState :=
  {| logEntries := []; appended := []; yielded := [] |}.

Definition log_step (s : LogState) (e : LogEvent) : LogState :=
  match e with
  | Output chunk now =>
      {| logEntries := appendLog chunk now (logEntries s);
         appended := appended s ++ [{| message := chunk; timestamp := now |}];
         yielded := yielded s |}
  | Read =>
      let '(batches, rest) := readLogs (logEntries s) in
      {| logEntries := rest;
         appended := appended s;
         yielded := yielded s ++ batches |}
  end.

Definition log_run (events : list LogEvent) (s : LogState) : LogState :=
  foldl log_step s events.

(** For the statements: the number of chunks output since the log was last
    read, and whether no more than 5001 chunks were ever output between two
    reads. *)
Definition gauge_step (g : Z * bool) (e : LogEvent) : Z * bool :=
  match e with
  | Output _ _ => (fst g + 1, snd g && Z.leb (fst g + 1) 5001)
  | Read => (0, snd g)
  end.

Definition since_read (events : list LogEvent) : Z :=
  fst (foldl gauge_step (0, true) events).

Definition read_in_time (events : list LogEvent) : bool :=
  snd (foldl gauge_step (0, true) events).

(** What holds of the log after any run from an empty one: the history is
    what was output before the last read, [prev], followed by what was output
    since; the buffer is what is left of the latter after trimming, and the
    batches are drawn from the former. *)
Definition log_invariant (s : LogState) (g : Z * bool) : Prop :=
  exists prev since k,
    appended s = prev ++ since /\
    Z.of_nat (length since) = fst g /\
    logEntries s = drop k since /\
    (k <= length since)%nat /\
    sublist (concat (yielded s)) prev /\
    Forall (fun batch => batch <> []) (yielded s) /\
    Z.min (fst g) 4002 <= Z.of_nat (length (logEntries s)) <= 5001 /\
    (snd g = true -> k = 0%nat /\ concat (yielded s) = prev).

End ProcessLog.

(* ===================================================================== *)
(** * Further vocabulary for the facade *)
(* ===================================================================== *)
Module FacadeStatements.
Import JS Shared Cloudify Statements.

(** A settled promise that [processResponse] turns into a Response: it does
    not carry an error without an error value. *)
Definition processable (p : settled FunctionReturn) : bool :=
  match p with
  | Resolved returned => negb (is_error returned && nullish (ret_value returned))
  | Rejected reason => negb (nullish reason)
  end.

(** A settled promise that stands for a failure. *)
Definition failure (p : settled FunctionReturn) : bool :=
  match p with
  | Resolved returned => is_error returned
  | Rejected _ => true
  end.

(** The turns in which a call of function [fn] is processed. *)
Definition processed (fn : string) (t : Turn) : bool :=
  match t with
  | Settled callRequest p => String.eqb (call_name callRequest) fn && processable p
  | Invoked _ _ => false
  end.

(** The turns in which a failed call of function [fn] is processed. *)
Definition processed_failure (fn : string) (t : Turn) : bool :=
  match t with
  | Settled callRequest p =>
      String.eqb (call_name callRequest) fn && processable p && failure p
  | Invoked _ _ => false
  end.

Definition count (f : Turn -> bool) (turns : list Turn) : N :=
  N.of_nat (length (List.filter f turns)).

(** A ledger in which no function has more errors, or more latency samples,
    than completed calls, and the three averages of a function have the same
    number of samples. *)
Definition ledger_sound (m : FunctionMetricsMap) : Prop :=
  forall g,
    let fm := metrics_of g m in
    (errorCount fm <= completedCount fm)%N /\
    (samples (executionLatencyAvg fm) <= completedCount fm)%N /\
    samples (startLatencyAvg fm) = samples (executionLatencyAvg fm) /\
    samples (returnLatencyAvg fm) = samples (executionLatencyAvg fm).

(** A remote error value that is not an object: a string, a number, a
    boolean or an array. *)
Definition primitive (v : jsval) : bool :=
  match v with
  | VBool _ | VNum _ | VStr _ | VArr _ => true
  | _ => false
  end.

End FacadeStatements.

(* ===================================================================== *)
(** * Further vocabulary for aws-cloudify.ts *)
(* ===================================================================== *)
Module AwsTraceStatements.
Import JS Aws AwsStatements.

(** The requests that go to the IAM service. *)
Definition to_iam (s : sent) : bool :=
  match projT2 s with
  | IAM_listAttachedRolePolicies _ | IAM_detachRolePolicy _ _
  | IAM_deleteRolePolicy _ _ | IAM_deleteRole _ => true
  | _ => false
  end.

(** The policies [deleteRole] goes on to detach, given how the listing
    settled: [(policies && policies.AttachedPolicies) || []]. *)
Definition listed (p : settled ListAttachedRolePoliciesResponse)
  : list AttachedPolicy :=
  match p with
  | Resolved reply => default [] (AttachedPolicies reply)
  | Rejected _ => []
  end.

(** The request [detach(policy)] sends. *)
Definition detach_request (RoleName : string) (policy : AttachedPolicy) : sent :=
  existT _ (IAM_detachRolePolicy RoleName (PolicyArn policy)).

(** The requests [deleteRole] sends when the listing settles with [p]. *)
Definition deleteRole_requests (RoleName : string)
    (noCreateLogGroupPolicy : option string)
    (p : settled ListAttachedRolePoliciesResponse) : list sent :=
  [existT _ (IAM_listAttachedRolePolicies RoleName)]
  ++ map (detach_request RoleName) (listed p)
  ++ (if truthy_str noCreateLogGroupPolicy
      then [existT _ (IAM_deleteRolePolicy RoleName (default "" noCreateLogGroupPolicy))]
      else [])
  ++ [existT _ (IAM_deleteRole RoleName)].

(** Why the proxy of the direct path rejects. *)
Inductive DirectFailure : Type :=
| InvokeRejected (reason : jsval)
| PayloadMalformed
| ErrorValueMissing.

(** What is thrown for each. *)
Definition thrown (f : DirectFailure) : exn :=
  match f with
  | InvokeRejected reason => ExnValue reason
  | PayloadMalformed => ExnSyntaxError
  | ErrorValueMissing => ExnTypeError
  end.

(** Whether the invocation fails, given how [lambda.invoke] settled: the
    request was rejected; or no FunctionError is reported and the payload is
    not JSON; or it is the JSON of an error Return without an error value. *)
Definition direct_failure {Cloud} (platform : Platform Cloud)
    (p : settled InvocationResponse) : option DirectFailure :=
  match p with
  | Rejected reason => Some (InvokeRejected reason)
  | Resolved raw =>
      if truthy_str (FunctionError raw) then None
      else if truthy_str (Payload raw) then
        match JSON_parse platform (default "" (Payload raw)) with
        | None => Some PayloadMalformed
        | Some returned =>
            if truthy returned
               && strict_eq_str (Statements.getd returned "type") "error"
               && nullish (Statements.getd returned "value")
            then Some ErrorValueMissing
            else None
        end
      else None
  end.

(** Whether [cleanup] takes the role for its own to delete:
    [RoleName && roleNeedsCleanup]. *)
Definition owns_role (state : PartialState) : bool :=
  truthy_str (p_RoleName state) && bool_decide (p_roleNeedsCleanup state = Some true).

(** The requests [cleanup] sends for [state], when the provider's resources
    are [c] at the start. *)
Definition cleanup_requests {Cloud} (platform : Platform Cloud)
    (state : PartialState) (c : Cloud) : list sent :=
  let function_request : sent :=
    existT _ (Lambda_deleteFunction (default "" (p_FunctionName state))) in
  let group_request : sent :=
    existT _ (CloudWatch_deleteLogGroup (default "" (p_logGroupName state))) in
  let RoleName := default "" (p_RoleName state) in
  let c1 :=
    if truthy_str (p_FunctionName state)
    then snd (serve platform _ (Lambda_deleteFunction (default "" (p_FunctionName state))) c)
    else c in
  (if truthy_str (p_FunctionName state) then [function_request] else [])
  ++ (if owns_role state
      then deleteRole_requests RoleName (p_noCreateLogGroupPolicy state)
             (fst (serve platform _ (IAM_listAttachedRolePolicies RoleName) c1))
      else [])
  ++ (if truthy_str (p_logGroupName state) then [group_request] else []).

(** A state that names a role of the caller's. *)
Definition borrowed_role : PartialState :=
  {| p_FunctionName := Some "cloudify-1";
     p_RoleName := Some "cloudify-role-1";
     p_roleNeedsCleanup := Some false;
     p_logGroupName := Some "/aws/lambda/cloudify-1";
     p_region := Some "us-east-1";
     p_noCreateLogGroupPolicy := Some "cloudify-deny-create-log-group-policy" |}.

End AwsTraceStatements.

(* ===================================================================== *)
(** * aws-cloudify.ts: [initialize] *)
(* ===================================================================== *)
Module AwsInit.
Import JS.

(** A [Buffer], by its bytes. *)
Definition Buffer : Type := list Byte.byte.

(** What a [Readable] emits to the three listeners of [zipStreamToBuffer]. *)
Inductive StreamEvent : Type :=
| OnData (data : Buffer)
| OnEnd
| OnError (reason : jsval).

(** The state of [zipStreamToBuffer]: the chunks pushed so far, and how the
    promise has settled, if it has. *)
Record Collector : Type := mkCollector {
  buffers : list Buffer;
  promised : option (settled Buffer)
}.

(** A promise settles once: later calls of [resolve] and [reject] do
    nothing. *)
Definition settle {A} (now : settled A) (p : option (settled A)) : option (settled A) :=
  match p with
  | None => Some now
  | Some earlier => Some earlier
  end.

(** The three listeners:
<<
    zipStream.on("data", data => buffers.push(data as Buffer));
    zipStream.on("end", () => resolve(Buffer.concat(buffers)));
    zipStream.on("error", reject);
>> *)
Definition listen (c : Collector) (e : StreamEvent) : Collector :=
  match e with
  | OnData data => {| buffers := buffers c ++ [data]; promised := promised c |}
  | OnEnd => {| buffers := buffers c;
                promised := settle (Resolved (concat (buffers c))) (promised c) |}
  | OnError reason => {| buffers := buffers c;
                         promised := settle (Rejected reason) (promised c) |}
  end.

(** [zipStreamToBuffer(zipStream)], for a stream that emits [zipStream] and
    then nothing more: how the promise settles, [None] if it never does. *)
Definition zipStreamToBuffer (zipStream : list StreamEvent) : option (settled Buffer) :=
  promised (foldl listen {| buffers := []; promised := None |} zipStream).

(** [Options] *)
Record CreateFunctionOverrides : Type := mkOverrides {
  ov_FunctionName : option string;
  ov_Role : option string;
  ov_Runtime : option string;
  ov_Handler : option string;
  ov_ZipFile : option Buffer;
  ov_Description : option string;
  ov_Timeout : option Z;
  ov_MemorySize : option Z
}.

Record Options : Type := mkOptions {
  o_region : option string;
  o_PolicyArn : option string;
  o_RoleName : option string;
  o_awsLambdaOptions : option CreateFunctionOverrides
}.

(** [aws.Lambda.Types.CreateFunctionRequest], by the fields the code sets. *)
Record CreateFunctionRequest : Type := mkCreateFunctionRequest {
  cf_FunctionName : string;
  cf_Role : string;
  cf_Runtime : string;
  cf_Handler : string;
  cf_ZipFile : Buffer;
  cf_Description : option string;
  cf_Timeout : option Z;
  cf_MemorySize : option Z
}.

(** [aws.Lambda.FunctionConfiguration], by the field the code reads. *)
Record FunctionConfiguration : Type := mkFunctionConfiguration {
  fc_FunctionName : option string
}.

(** [aws.Lambda.GetFunctionResponse] *)
Record GetFunctionResponse : Type := mkGetFunctionResponse {
  Configuration : option FunctionConfiguration
}.

(** [aws.IAM.Role], by the field the code reads. *)
Record IAMRole : Type := mkIAMRole {
  Arn : string
}.

(** [aws.IAM.GetRoleResponse] and [aws.IAM.CreateRoleResponse]. *)
Record RoleResponse : Type := mkRoleResponse {
  Role : IAMRole
}.

(** [aws.IAM.CreateRoleRequest] *)
Record CreateRoleRequest : Type := mkCreateRoleRequest {
  cr_AssumeRolePolicyDocument : string;
  cr_RoleName : string;
  cr_Description : string;
  cr_MaxSessionDuration : Z
}.

(** The argument of [packer]. *)
Record PackerOptions : Type := mkPackerOptions {
  trampolineModule : string;
  functionModule : option string;
  packageBundling : string;
  webpackOptions_externals : string
}.

(** [PackerResult], by the field the code reads. *)
Record PackerResult : Type := mkPackerResult {
  archive : list StreamEvent
}.

(** The requests [initialize] sends through the SDK. *)
Inductive Request : Type -> Type :=
| IAM_getRole (RoleName : string) : Request RoleResponse
| IAM_createRole (params : CreateRoleRequest) : Request RoleResponse
| IAM_attachRolePolicy (RoleName PolicyArn : string) : Request unit
| IAM_putRolePolicy (RoleName PolicyName PolicyDocument : string) : Request unit
| Lambda_getFunction (FunctionName : string) : Request GetFunctionResponse
| Lambda_createFunction (request : CreateFunctionRequest)
    : Request FunctionConfiguration
| Lambda_deleteFunction (FunctionName : string) : Request unit
| CloudWatch_createLogGroup (logGroupName : string) : Request unit.

Definition sent : Type := { T : Type & Request T }.

(** A request, and whether its promise resolved. *)
Record Exchange : Type := mkExchange {
  request : sent;
  resolved : bool
}.

(** What [initialize] observes and changes: the provider's resources, the
    debug log, how many uuids were drawn, and (for the statements only) the
    requests sent so far with their outcomes and the delays waited for, both
    oldest first. *)
Record World (Cloud : Type) : Type := mkWorld {
  cloud : Cloud;
  logged : list jsval;
  drawn : nat;
  issued : list Exchange;
  slept : list Z
}.
Arguments mkWorld {Cloud}.
Arguments cloud {Cloud}.
Arguments logged {Cloud}.
Arguments drawn {Cloud}.
Arguments issued {Cloud}.
Arguments slept {Cloud}.

(** The collaborators that are not code of this file: the provider behind
    the service handles of a region, the packer, [uuid/v4] (the n-th uuid
    drawn), [JSON.stringify], [humanStringify], [require.resolve] and the
    stack text the engine gives to an [Error] built locally. *)
Record Platform (Cloud : Type) : Type := mkPlatform {
  serve : string -> forall T, Request T -> Cloud -> settled T * Cloud;
  packer : PackerOptions -> Cloud -> settled PackerResult * Cloud;
  uuidv4 : nat -> string;
  JSON_stringify : jsval -> string;
  humanStringify : CreateFunctionRequest -> string;
  require_resolve : string -> string;
  local_stack : string
}.
Arguments serve {Cloud}.
Arguments packer {Cloud}.
Arguments uuidv4 {Cloud}.
Arguments JSON_stringify {Cloud}.
Arguments humanStringify {Cloud}.
Arguments require_resolve {Cloud}.
Arguments local_stack {Cloud}.

(** How an [async] function stands once nothing more happens: it returned,
    it threw, or it waits at an [await] for a promise that never settles. *)
Inductive result (A : Type) : Type :=
| Returned (a : A)
| Thrown (e : exn)
| Pending.
Arguments Returned {A} a.
Arguments Thrown {A} e.
Arguments Pending {A}.

Definition Async (W A : Type) : Type := W -> result A * W.

#[global] Instance Async_ret {W} : MRet (Async W) := fun A a w => (Returned a, w).
#[global] Instance Async_bind {W} : MBind (Async W) := fun A B f m w =>
  match m w with
  | (Returned a, w') => f a w'
  | (Thrown e, w') => (Thrown e, w')
  | (Pending, w') => (Pending, w')
  end.

Definition throw {W A} (e : exn) : Async W A := fun w => (Thrown e, w).

(** [await promise] *)
Definition await {W A} (p : option (settled A)) : Async W A :=
  match p with
  | Some (Resolved a) => mret a
  | Some (Rejected reason) => throw (ExnValue reason)
  | None => fun w => (Pending, w)
  end.

(** [let defaults = {...}] *)
Record Defaults : Type := mkDefaults {
  d_region : string;
  d_PolicyArn : string;
  d_Timeout : Z;
  d_MemorySize : Z
}.

Definition defaults : Defaults :=
  {| d_region := "us-east-1";
     d_PolicyArn := "arn:aws:iam::aws:policy/AdministratorAccess";
     d_Timeout := 60;
     d_MemorySize := 128 |}.

(** The double quote character, for the log messages that hold one. *)
Definition dquote : string := String (Ascii.ascii_of_nat 34) EmptyString.

(** [{ ...request, ...awsLambdaOptions }]: a property of the second object
    replaces the one of the first. *)
Definition override {A} (given : option A) (own : A) : A := default own given.

Definition override_opt {A} (given : option A) (own : option A) : option A :=
  match given with
  | Some a => Some a
  | None => own
  end.

Definition spread (request : CreateFunctionRequest)
    (awsLambdaOptions : CreateFunctionOverrides) : CreateFunctionRequest :=
  {| cf_FunctionName := override (ov_FunctionName awsLambdaOptions) (cf_FunctionName request);
     cf_Role := override (ov_Role awsLambdaOptions) (cf_Role request);
     cf_Runtime := override (ov_Runtime awsLambdaOptions) (cf_Runtime request);
     cf_Handler := override (ov_Handler awsLambdaOptions) (cf_Handler request);
     cf_ZipFile := override (ov_ZipFile awsLambdaOptions) (cf_ZipFile request);
     cf_Description :=
       override_opt (ov_Description awsLambdaOptions) (cf_Description request);
     cf_Timeout := override_opt (ov_Timeout awsLambdaOptions) (cf_Timeout request);
     cf_MemorySize :=
       override_opt (ov_MemorySize awsLambdaOptions) (cf_MemorySize request) |}.

(** [awsLambdaOptions = {}] *)
Definition no_overrides : CreateFunctionOverrides :=
  {| ov_FunctionName := None; ov_Role := None; ov_Runtime := None;
     ov_Handler := None; ov_ZipFile := None; ov_Description := None;
     ov_Timeout := None; ov_MemorySize := None |}.

(** [options: Options = {}] *)
Definition no_options : Options :=
  {| o_region := None; o_PolicyArn := None; o_RoleName := None;
     o_awsLambdaOptions := None |}.

(** The request of the readiness test. *)
Definition test_request (nonce : string) (Role : IAMRole) (ZipFile : Buffer)
  : CreateFunctionRequest :=
  {| cf_FunctionName := "cloudify-testfunction-" +:+ nonce;
     cf_Role := Arn Role;
     cf_Runtime := "nodejs6.10";
     cf_Handler := "index.trampoline";
     cf_ZipFile := ZipFile;
     cf_Description := None;
     cf_Timeout := None;
     cf_MemorySize := None |}.

(** The request that deploys the trampoline function. *)
Definition deploy_request (nonce : string) (Role : IAMRole) (ZipFile : Buffer)
    (awsLambdaOptions : CreateFunctionOverrides) : CreateFunctionRequest :=
  spread
    {| cf_FunctionName := "cloudify-" +:+ nonce;
       cf_Role := Arn Role;
       cf_Runtime := "nodejs6.10";
       cf_Handler := "index.trampoline";
       cf_ZipFile := ZipFile;
       cf_Description := Some "cloudify trampoline function";
       cf_Timeout := Some (d_Timeout defaults);
       cf_MemorySize := Some (d_MemorySize defaults) |}
    awsLambdaOptions.

Definition is_resolved {A} (p : settled A) : bool :=
  match p with
  | Resolved _ => true
  | Rejected _ => false
  end.

Section WithPlatform.
Context {Cloud : Type} (platform : Platform Cloud).

Abbreviation M := (Async (World Cloud)).

(** [log(entry)] *)
Definition log (entry : jsval) : M unit := fun w =>
  (Returned tt,
   {| cloud := cloud w; logged := logged w ++ [entry]; drawn := drawn w;
      issued := issued w; slept := slept w |}).

(** [uuidv4()] *)
Definition uuid : M string := fun w =>
  (Returned (uuidv4 platform (drawn w)),
   {| cloud := cloud w; logged := logged w; drawn := S (drawn w);
      issued := issued w; slept := slept w |}).

(** [sleep(ms)] *)
Definition sleep (ms : Z) : M unit := fun w =>
  (Returned tt,
   {| cloud := cloud w; logged := logged w; drawn := drawn w;
      issued := issued w; slept := slept w ++ [ms] |}).

(** [request.promise()] on a handle of [createAWSApis(region)]. *)
Definition promise (region : string) {T} (arg : Request T) : M (settled T) := fun w =>
  let '(outcome, cloud') := serve platform region T arg (cloud w) in
  (Returned outcome,
   {| cloud := cloud'; logged := logged w; drawn := drawn w;
      issued := issued w ++ [{| request := existT T arg;
                                resolved := is_resolved outcome |}];
      slept := slept w |}).

(** [arg.promise().catch(err => log(err))] *)
Definition carefully (region : string) {T} (arg : Request T) : M (option T) :=
  p ← promise region arg;
  match p with
  | Resolved reply => mret (Some reply)
  | Rejected err => log err;; mret None
  end.

(** [arg.promise().catch(_ => {})] *)
Definition quietly (region : string) {T} (arg : Request T) : M (option T) :=
  p ← promise region arg;
  match p with
  | Resolved reply => mret (Some reply)
  | Rejected _ => mret None
  end.

(** [await packer(options)] *)
Definition await_packer (options : PackerOptions) : M PackerResult := fun w =>
  let '(outcome, cloud') := packer platform options (cloud w) in
  await (Some outcome)
    {| cloud := cloud'; logged := logged w; drawn := drawn w;
       issued := issued w; slept := slept w |}.

(** [pack(functionModule)] *)
Definition pack (functionModule : string) : M PackerResult :=
  await_packer
    {| trampolineModule := require_resolve platform "./aws-trampoline";
       functionModule := Some functionModule;
       packageBundling := "bundleNodeModules";
       webpackOptions_externals := "aws-sdk" |}.

(** [new Error(m)] built locally. *)
Definition new_Error (m : string) : exn :=
  ExnError {| message := m; name := VStr "Error";
              stack := VStr (local_stack platform) |}.

(** The loop of [checkRoleReadiness], with [attempts] iterations left; the
    result is [testfunc] when the loop is left.
<<
    for (let i = 0; i < 100; i++) {
        log(`Polling for role readiness...`);
        testfunc = await quietly(lambda.createFunction(createFunctionRequest));
        if (testfunc) {
            break;
        }
        await sleep(1000);
    }
>> *)
Fixpoint poll (region : string) (createFunctionRequest : CreateFunctionRequest)
    (attempts : nat) : M (option FunctionConfiguration) :=
  match attempts with
  | O => mret None
  | S attempts' =>
      log (VStr "Polling for role readiness...");;
      testfunc ← quietly region (Lambda_createFunction createFunctionRequest);
      match testfunc with
      | Some created => mret (Some created)
      | None =>
          sleep 1000;;
          poll region createFunctionRequest attempts'
      end
  end.

(** [checkRoleReadiness(Role)] *)
Definition checkRoleReadiness (region nonce : string) (Role : IAMRole) : M bool :=
  log (VStr "Creating test function to ensure new role is ready for use");;
  packed ← await_packer
    {| trampolineModule := require_resolve platform "./aws-trampoline";
       functionModule := None;
       packageBundling := "bundleNodeModules";
       webpackOptions_externals := "aws-sdk" |};
  let FunctionName := "cloudify-testfunction-" +:+ nonce in
  ZipFile ← await (zipStreamToBuffer (archive packed));
  let createFunctionRequest := test_request nonce Role ZipFile in
  sleep 2000;;
  testfunc ← poll region createFunctionRequest 100;
  match testfunc with
  | None =>
      log (VStr "Could not initialize lambda execution role");;
      mret false
  | Some _ =>
      log (VStr "Role ready. Cleaning up.");;
      carefully region (Lambda_deleteFunction FunctionName);;
      mret true
  end.

(** [createRole()] *)
Definition createRole (region nonce RoleName PolicyArn : string)
  : M (option RoleResponse) :=
  log (VStr ("Creating role " +:+ dquote +:+ RoleName +:+ dquote
             +:+ " for cloudify trampoline function"));;
  let AssumeRolePolicyDocument :=
    JSON_stringify platform
      (VObj [("Version", VStr "2012-10-17");
             ("Statement",
              VArr [VObj [("Principal",
                           VObj [("Service", VStr "lambda.amazonaws.com")]);
                          ("Action", VStr "sts:AssumeRole");
                          ("Effect", VStr "Allow")]])]) in
  let roleParams :=
    {| cr_AssumeRolePolicyDocument := AssumeRolePolicyDocument;
       cr_RoleName := RoleName;
       cr_Description := "role for lambda functions created by cloudify";
       cr_MaxSessionDuration := 3600 |} in
  roleResponse ← carefully region (IAM_createRole roleParams);
  match roleResponse with
  | None => mret None
  | Some created =>
      carefully region (IAM_attachRolePolicy RoleName PolicyArn);;
      checkRoleReadiness region nonce (Role created);;
      mret (Some created)
  end.

(** [addNoCreateLogPolicyToRole()] *)
Definition addNoCreateLogPolicyToRole (region RoleName : string) : M string :=
  log (VStr ("Adding inline policy to not allow log group creation to role "
             +:+ dquote +:+ RoleName +:+ dquote));;
  let NoCreateLogGroupPolicy :=
    JSON_stringify platform
      (VObj [("Version", VStr "2012-10-17");
             ("Statement",
              VArr [VObj [("Resource", VStr "*");
                          ("Action", VStr "logs:CreateLogGroup");
                          ("Effect", VStr "Deny")]])]) in
  let PolicyName := "cloudify-deny-create-log-group-policy" in
  carefully region (IAM_putRolePolicy RoleName PolicyName NoCreateLogGroupPolicy);;
  mret PolicyName.

(** [createFunction(Role)] *)
Definition createFunction (region nonce serverModule : string)
    (awsLambdaOptions : CreateFunctionOverrides) (Role : IAMRole)
  : M (option string) :=
  packed ← pack serverModule;
  let FunctionName := "cloudify-" +:+ nonce in
  previous ← quietly region (Lambda_getFunction FunctionName);
  match previous with
  | Some _ =>
      log (VStr "Function name hash collision");;
      mret None
  | None =>
      ZipFile ← await (zipStreamToBuffer (archive packed));
      let createFunctionRequest :=
        deploy_request nonce Role ZipFile awsLambdaOptions in
      log (VStr ("createFunctionRequest: "
                 +:+ humanStringify platform createFunctionRequest));;
      func ← carefully region (Lambda_createFunction createFunctionRequest);
      match func with
      | Some created =>
          log (VStr ("Created function "
                     +:+ ToString (Aws.opt_str (fc_FunctionName created))));;
          mret (Some FunctionName)
      | None => mret None
      end
  end.

(** [initialize(serverModule, options)] *)
Definition initialize (serverModule : string) (options : Options) : M Aws.State :=
  nonce ← uuid;
  log (VStr ("Nonce: " +:+ nonce));;
  let region := default (d_region defaults) (o_region options) in
  let PolicyArn := default (d_PolicyArn defaults) (o_PolicyArn options) in
  let RoleName := default ("cloudify-role-" +:+ nonce) (o_RoleName options) in
  let awsLambdaOptions := default no_overrides (o_awsLambdaOptions options) in
  (* (await quietly(iam.getRole({ RoleName }))) || (await createRole()) *)
  existing ← quietly region (IAM_getRole RoleName);
  roleResponse ← match existing with
                 | Some found => mret (Some found)
                 | None => createRole region nonce RoleName PolicyArn
                 end;
  match roleResponse with
  | None => throw (new_Error ("Could not create role " +:+ RoleName))
  | Some response =>
      FunctionName ← createFunction region nonce serverModule awsLambdaOptions
                       (Role response);
      if truthy_str FunctionName
      then
        let logGroupName := "/aws/lambda/" +:+ default "" FunctionName in
        carefully region (CloudWatch_createLogGroup logGroupName);;
        let roleNeedsCleanup :=
          negb (bool_decide (Some RoleName = o_RoleName options)) in
        noCreateLogGroupPolicy ← addNoCreateLogPolicyToRole region RoleName;
        mret {| Aws.FunctionName := default "" FunctionName;
                Aws.RoleName := RoleName;
                Aws.roleNeedsCleanup := roleNeedsCleanup;
                Aws.logGroupName := logGroupName;
                Aws.region := region;
                Aws.noCreateLogGroupPolicy := noCreateLogGroupPolicy |}
      else
        throw (new_Error ("Could not create lambda function "
                          +:+ ToString (Aws.opt_str FunctionName)))
  end.

End WithPlatform.

(** A [State] where [cleanup] expects its [Partial<AWSVariables>]. *)
Definition as_partial (state : Aws.State) : Aws.PartialState :=
  {| Aws.p_FunctionName := Some (Aws.FunctionName state);
     Aws.p_RoleName := Some (Aws.RoleName state);
     Aws.p_roleNeedsCleanup := Some (Aws.roleNeedsCleanup state);
     Aws.p_logGroupName := Some (Aws.logGroupName state);
     Aws.p_region := Some (Aws.region state);
     Aws.p_noCreateLogGroupPolicy := Some (Aws.noCreateLogGroupPolicy state) |}.

End AwsInit.

(* ===================================================================== *)
(** * Vocabulary for the statements about [initialize] *)
(* ===================================================================== *)
Module AwsInitStatements.
Import JS AwsInit.

Definition exchange {T} (arg : Request T) (ok : bool) : Exchange :=
  {| request := existT T arg; resolved := ok |}.

(** What a computation added: [h] to the requests, [z] to the delays. *)
Definition since {Cloud} (w w' : World Cloud) (h : list Exchange) (z : list Z) : Prop :=
  issued w' = issued w ++ h /\ slept w' = slept w ++ z.

(** How the readiness test went: the role was ready after [failures]
    rejected attempts (and the test function's deletion resolved or not), or
    never within the attempts made. *)
Inductive Readiness : Type :=
| Ready (failures : nat) (deleted : bool)
| NotReady.

Definition is_ready (r : Readiness) : bool :=
  match r with
  | Ready _ _ => true
  | NotReady => false
  end.

(** The attempts that were rejected. *)
Definition failures_of (r : Readiness) : nat :=
  match r with
  | Ready failures _ => failures
  | NotReady => 100
  end.

(** The requests of the readiness test. *)
Definition polling (nonce : string) (role : IAMRole) (ZipFile : Buffer)
    (r : Readiness) : list Exchange :=
  let attempt := exchange (Lambda_createFunction (test_request nonce role ZipFile)) in
  match r with
  | Ready failures deleted =>
      replicate failures (attempt false)
      ++ [attempt true;
          exchange (Lambda_deleteFunction ("cloudify-testfunction-" +:+ nonce)) deleted]
  | NotReady => replicate 100 (attempt false)
  end.

(** The delays of the readiness test. *)
Definition waited (r : Readiness) : list Z :=
  2000 :: replicate (failures_of r) 1000.

(** The names [initialize] derives from the nonce and the options. *)
Definition region_of (options : Options) : string :=
  default "us-east-1" (o_region options).

Definition RoleName_of (nonce : string) (options : Options) : string :=
  default ("cloudify-role-" +:+ nonce) (o_RoleName options).

Definition state_of (nonce : string) (options : Options) : Aws.State :=
  {| Aws.FunctionName := "cloudify-" +:+ nonce;
     Aws.RoleName := RoleName_of nonce options;
     Aws.roleNeedsCleanup := bool_decide (o_RoleName options = None);
     Aws.logGroupName := "/aws/lambda/cloudify-" +:+ nonce;
     Aws.region := region_of options;
     Aws.noCreateLogGroupPolicy := "cloudify-deny-create-log-group-policy" |}.

(** The requests that set a role up and test it: the creation of a role,
    the attachment of a policy, the creation of a test function (the only
    functions created without a description) and the deletion of a
    function. *)
Definition role_setup (x : Exchange) : bool :=
  match projT2 (request x) with
  | IAM_createRole _ | IAM_attachRolePolicy _ _ | Lambda_deleteFunction _ => true
  | Lambda_createFunction r => bool_decide (cf_Description r = None)
  | _ => false
  end.

(** The exchange by which the trampoline function was deployed. *)
Definition deployed_with (nonce : string) (options : Options) (x : Exchange) : Prop :=
  exists role ZipFile,
    x = exchange
          (Lambda_createFunction
             (deploy_request nonce role ZipFile
                (default no_overrides (o_awsLambdaOptions options))))
          true.

(** The exchanges between two worlds. *)
Definition added {Cloud} (w w' : World Cloud) : list Exchange :=
  drop (length (issued w)) (issued w').

(** A function created with a description, the request resolved. *)
Definition is_deployment (x : Exchange) : bool :=
  match projT2 (request x) with
  | Lambda_createFunction r =>
      bool_decide (is_Some (cf_Description r)) && resolved x
  | _ => false
  end.

(** What [initialize] asks the packer for: the trampoline alone, for the
    readiness test, and the trampoline with the server module. *)
Definition test_package {Cloud} (platform : Platform Cloud) : PackerOptions :=
  {| trampolineModule := require_resolve platform "./aws-trampoline";
     functionModule := None;
     packageBundling := "bundleNodeModules";
     webpackOptions_externals := "aws-sdk" |}.

Definition server_package {Cloud} (platform : Platform Cloud) (serverModule : string)
  : PackerOptions :=
  {| trampolineModule := require_resolve platform "./aws-trampoline";
     functionModule := Some serverModule;
     packageBundling := "bundleNodeModules";
     webpackOptions_externals := "aws-sdk" |}.

(** Packing failed with [reason]: asked for one of the two packages, the
    packer rejected with [reason], or the archive it resolved with emitted
    an error with [reason] before its end. *)
Definition packing_failed {Cloud} (platform : Platform Cloud) (serverModule : string)
    (reason : jsval) : Prop :=
  exists options c,
    (options = test_package platform \/
     options = server_package platform serverModule) /\
    (fst (packer platform options c) = Rejected reason \/
     exists packed,
       fst (packer platform options c) = Resolved packed /\
       zipStreamToBuffer (archive packed) = Some (Rejected reason)).

(** Packing stalled: the archive of one of the two packages neither ends nor
    fails. *)
Definition packing_stalled {Cloud} (platform : Platform Cloud) (serverModule : string)
  : Prop :=
  exists options c packed,
    (options = test_package platform \/
     options = server_package platform serverModule) /\
    fst (packer platform options c) = Resolved packed /\
    zipStreamToBuffer (archive packed) = None.

(** An [async] function of [initialize] that did not return because packing
    failed (the reason is thrown as it is) or stalled (nothing settles). *)
Definition interrupted {Cloud} (platform : Platform Cloud) (serverModule : string)
    {A} (r : result A) : Prop :=
  (r = Pending /\ packing_stalled platform serverModule) \/
  (exists reason,
     r = Thrown (ExnValue reason) /\ packing_failed platform serverModule reason).

(** A readiness test that found the role ready did so within the hundred
    attempts. *)
Definition within_attempts (r : Readiness) : Prop :=
  match r with
  | Ready failures _ => (failures < 100)%nat
  | NotReady => True
  end.

Section Outline.
Context {Cloud : Type} (platform : Platform Cloud).
Context (nonce : string) (options : Options) (serverModule : string).

Definition PolicyArn_of : string :=
  default "arn:aws:iam::aws:policy/AdministratorAccess" (o_PolicyArn options).

(** The requests of [createRole] before the readiness test. *)
Definition role_request : CreateRoleRequest :=
  {| cr_AssumeRolePolicyDocument :=
       JSON_stringify platform
         (VObj [("Version", VStr "2012-10-17");
                ("Statement",
                 VArr [VObj [("Principal",
                              VObj [("Service", VStr "lambda.amazonaws.com")]);
                             ("Action", VStr "sts:AssumeRole");
                             ("Effect", VStr "Allow")]])]);
     cr_RoleName := RoleName_of nonce options;
     cr_Description := "role for lambda functions created by cloudify";
     cr_MaxSessionDuration := 3600 |}.

Definition role_created (attached : bool) : list Exchange :=
  [exchange (IAM_getRole (RoleName_of nonce options)) false;
   exchange (IAM_createRole role_request) true;
   exchange (IAM_attachRolePolicy (RoleName_of nonce options) PolicyArn_of) attached].

Definition role_refused : list Exchange :=
  [exchange (IAM_getRole (RoleName_of nonce options)) false;
   exchange (IAM_createRole role_request) false].

(** How [initialize] came by [role]: it was there, or it was created and
    tested. *)
Definition role_obtained (role : IAMRole) (h : list Exchange) (z : list Z) : Prop :=
  (h = [exchange (IAM_getRole (RoleName_of nonce options)) true] /\ z = []) \/
  (exists attached ZipFile r,
     within_attempts r /\
     h = role_created attached ++ polling nonce role ZipFile r /\
     z = waited r).

Definition deploy_exchange (role : IAMRole) (ZipFile : Buffer) (ok : bool) : Exchange :=
  exchange
    (Lambda_createFunction
       (deploy_request nonce role ZipFile
          (default no_overrides (o_awsLambdaOptions options))))
    ok.

Definition lookup_exchange (ok : bool) : Exchange :=
  exchange (Lambda_getFunction ("cloudify-" +:+ nonce)) ok.

Definition policy_exchange (ok : bool) : Exchange :=
  exchange
    (IAM_putRolePolicy (RoleName_of nonce options)
       "cloudify-deny-create-log-group-policy"
       (JSON_stringify platform
          (VObj [("Version", VStr "2012-10-17");
                 ("Statement",
                  VArr [VObj [("Resource", VStr "*");
                              ("Action", VStr "logs:CreateLogGroup");
                              ("Effect", VStr "Deny")]])])))
    ok.

Definition error_role : exn :=
  new_Error platform ("Could not create role " +:+ RoleName_of nonce options).

Definition error_function : exn :=
  new_Error platform "Could not create lambda function undefined".

(** How [initialize] ended once it had [role], with the requests it sent
    from there. *)
Definition deployment (role : IAMRole) (r : result Aws.State) (h : list Exchange)
  : Prop :=
  (r = Thrown error_function /\ h = [lookup_exchange true]) \/
  (exists ZipFile,
     r = Thrown error_function /\
     h = [lookup_exchange false; deploy_exchange role ZipFile false]) \/
  (exists ZipFile group policy,
     r = Returned (state_of nonce options) /\
     h = [lookup_exchange false; deploy_exchange role ZipFile true;
          exchange (CloudWatch_createLogGroup ("/aws/lambda/cloudify-" +:+ nonce)) group;
          policy_exchange policy]) \/
  (interrupted platform serverModule r /\ (h = [] \/ h = [lookup_exchange false])).

(** The ways [initialize] can go, by what it returned or threw [r], the
    requests it sent [h] and the delays it waited for [z]. *)
Definition outline (r : result Aws.State) (h : list Exchange) (z : list Z) : Prop :=
  (r = Thrown error_role /\ h = role_refused /\ z = []) \/
  (exists attached,
     interrupted platform serverModule r /\ h = role_created attached /\ z = []) \/
  (exists role h_role h_deploy,
     role_obtained role h_role z /\ deployment role r h_deploy /\
     h = h_role ++ h_deploy).

End Outline.

(** ** A provider to run [initialize] against *)

(** An account: its roles, its functions, and how many more function
    creations are rejected because the newest role is not ready yet. *)
Record Account : Type := mkAccount {
  roles : gset string;
  functions : gset string;
  unready : nat
}.

Definition aws_error (code : string) : jsval := VObj [("code", VStr code)].

Definition sim_serve (region : string) (T : Type) (req : Request T) (c : Account)
  : settled T * Account :=
  match req in Request T return settled T * Account with
  | IAM_getRole r =>
      if bool_decide (r ∈ roles c)
      then (Resolved {| Role := {| Arn := "arn:aws:iam::role/" +:+ r |} |}, c)
      else (Rejected (aws_error "NoSuchEntity"), c)
  | IAM_createRole params =>
      if bool_decide (cr_RoleName params ∈ roles c)
      then (Rejected (aws_error "EntityAlreadyExists"), c)
      else (Resolved {| Role := {| Arn := "arn:aws:iam::role/" +:+ cr_RoleName params |} |},
            {| roles := roles c ∪ {[cr_RoleName params]};
               functions := functions c; unready := unready c |})
  | IAM_attachRolePolicy r _ | IAM_putRolePolicy r _ _ =>
      if bool_decide (r ∈ roles c)
      then (Resolved tt, c)
      else (Rejected (aws_error "NoSuchEntity"), c)
  | Lambda_getFunction f =>
      if bool_decide (f ∈ functions c)
      then (Resolved {| Configuration := Some {| fc_FunctionName := Some f |} |}, c)
      else (Rejected (aws_error "ResourceNotFoundException"), c)
  | Lambda_createFunction r =>
      match unready c with
      | S n =>
          (Rejected (aws_error "InvalidParameterValueException"),
           {| roles := roles c; functions := functions c; unready := n |})
      | O =>
          if bool_decide (cf_FunctionName r ∈ functions c)
          then (Rejected (aws_error "ResourceConflictException"), c)
          else (Resolved {| fc_FunctionName := Some (cf_FunctionName r) |},
                {| roles := roles c; functions := functions c ∪ {[cf_FunctionName r]};
                   unready := 0 |})
      end
  | Lambda_deleteFunction f =>
      if bool_decide (f ∈ functions c)
      then (Resolved tt,
            {| roles := roles c; functions := functions c ∖ {[f]};
               unready := unready c |})
      else (Rejected (aws_error "ResourceNotFoundException"), c)
  | CloudWatch_createLogGroup _ => (Resolved tt, c)
  end.

(** The provider, with a packer whose archive is two chunks and an end. *)
Definition sim : Platform Account :=
  {| serve := sim_serve;
     packer := fun _ c =>
       (Resolved {| archive := [OnData [Byte.x50; Byte.x4b]; OnData [Byte.x03]; OnEnd] |}, c);
     uuidv4 := fun n => match n with O => "1f0e" | _ => "2a7c" end;
     JSON_stringify := fun _ => "<json>";
     humanStringify := fun _ => "<request>";
     require_resolve := fun path => path;
     local_stack := "Error at local.js:1" |}.

Definition start_world (c : Account) : World Account :=
  {| cloud := c; logged := []; drawn := 0; issued := []; slept := [] |}.

(** An empty account in which a new role is ready at the third attempt. *)
Definition fresh_account : Account :=
  {| roles := ∅; functions := ∅; unready := 2 |}.

(** An account that holds a role of the caller's. *)
Definition account_with_role : Account :=
  {| roles := {["my-role"]}; functions := ∅; unready := 0 |}.

(** An account in which the function name to come is taken. *)
Definition account_with_collision : Account :=
  {| roles := {["my-role"]}; functions := {["cloudify-1f0e"]}; unready := 0 |}.

Definition with_role : Options :=
  {| o_region := Some "eu-west-1"; o_PolicyArn := None;
     o_RoleName := Some "my-role"; o_awsLambdaOptions := None |}.

Definition with_name : Options :=
  {| o_region := None; o_PolicyArn := None; o_RoleName := Some "my-role";
     o_awsLambdaOptions :=
       Some {| ov_FunctionName := Some "my-function"; ov_Role := None;
               ov_Runtime := None; ov_Handler := None; ov_ZipFile := None;
               ov_Description := None; ov_Timeout := Some 300;
               ov_MemorySize := None |} |}.

End AwsInitStatements.

(* ===================================================================== *)
(** * The facade: [processResponse] *)
(* ===================================================================== *)
Module CloudifyFacts.
Import JS Shared Cloudify Statements Examples.

Lemma rebuildError_object v :
  nullish v = false -> rebuildError v = Normal (rebuilt v).
Proof. destruct v; try discriminate; reflexivity. Qed.

Lemma rebuildError_nullish v :
  nullish v = true -> rebuildError v = Throw ExnTypeError.
Proof. destruct v; try discriminate; reflexivity. Qed.

Lemma rebuilt_carries errValue N M S :
  carries errValue N M S ->
  nullish errValue = false /\
  rebuilt errValue = {| message := M; name := VStr N; stack := VStr S |}.
Proof.
  intros (Hn & Hm & Hs). split.
  - destruct errValue; try reflexivity; discriminate.
  - unfold rebuilt, getd. rewrite Hn, Hm, Hs. reflexivity.
Qed.

(** [processResponse] on a well-formed Return, step by step. *)
Lemma processResponse_run returned callRequest w :
  well_formed returned ->
  let l := latencies_at returned callRequest (clock w (ticks w)) in
  let err := if is_error returned then Some (rebuilt (ret_value returned)) else None in
  let rv0 :=
    {| value := if is_error returned then VBool false else ret_value returned;
       error := err;
       rawResponse := ret_rawResponse returned;
       startLatency := None; executionLatency := None; returnLatency := None |} in
  processResponse returned callRequest w =
  (Normal (if timed returned then spread_latencies rv0 l else rv0),
   {| ticks := if timed returned then S (ticks w) else ticks w;
      clock := clock w; drawn := drawn w; uuids := uuids w;
      functionMetrics :=
        ledger_after returned (call_name callRequest) l (functionMetrics w);
      submitted := submitted w |}).
Proof.
  intros Hwf. unfold well_formed in Hwf.
  unfold processResponse, ledger_after, latencies_at, timed, is_error in *.
  destruct (String.eqb (ret_type returned) "error").
  - rewrite (rebuildError_object _ (Hwf eq_refl)).
    destruct (executionStart returned) as [es|], (executionEnd returned) as [ee|];
      cbn; rewrite ?andb_false_r; try reflexivity.
    destruct (negb (Z.eqb es 0) && negb (Z.eqb ee 0)); reflexivity.
  - destruct (executionStart returned) as [es|], (executionEnd returned) as [ee|];
      cbn; rewrite ?andb_false_r; try reflexivity.
    destruct (negb (Z.eqb es 0) && negb (Z.eqb ee 0)); reflexivity.
Qed.

(** An ill-formed error Return makes [processResponse] throw before it
    touches the ledger. *)
Lemma processResponse_throws returned callRequest w :
  is_error returned = true -> nullish (ret_value returned) = true ->
  processResponse returned callRequest w = (Throw ExnTypeError, w).
Proof.
  intros He Hn. unfold processResponse, is_error in *.
  rewrite He, (rebuildError_nullish _ Hn). reflexivity.
Qed.

(** An invocation of a [cloudifyWithResponse] proxy: the Call is built from
    one identifier and one clock reading and handed to the backend; what comes
    back, or the Return synthesized from a rejection, goes through
    [processResponse]. *)
Lemma cloudifyWithResponse_unfold {State} (impl : CloudFunctionImpl State) state fn args w :
  cloudifyWithResponse impl state fn args w =
  match callFunction impl state (call_built fn args w) with
  | Resolved returned =>
      processResponse returned (call_built fn args w) (after_submit fn args w)
  | Rejected reason =>
      processResponse (synthesized reason fn args w) (call_built fn args w)
        (tick (after_submit fn args w))
  end.
Proof.
  unfold cloudifyWithResponse, call_built, mbind, SE_bind, uuidv4, Date_now,
    impl_callFunction; cbn.
  destruct (callFunction impl state _); reflexivity.
Qed.

Lemma metrics_of_increment fn key m g :
  metrics_of g (increment fn key m) =
  if decide (fn = g) then bump key (metrics_of fn m) else metrics_of g m.
Proof.
  unfold metrics_of, increment. rewrite lookup_insert.
  destruct (decide (fn = g)); reflexivity.
Qed.

Lemma metrics_of_updateMany fn l m g :
  metrics_of g (updateMany fn l m) =
  if decide (fn = g) then merge_latencies l (metrics_of fn m) else metrics_of g m.
Proof.
  unfold metrics_of, updateMany. rewrite lookup_insert.
  destruct (decide (fn = g)); reflexivity.
Qed.

Lemma metrics_of_ledger_after returned fn l m :
  metrics_of fn (ledger_after returned fn l m) =
  let fm1 := bump completed (metrics_of fn m) in
  let fm2 := if timed returned then merge_latencies l fm1 else fm1 in
  if is_error returned then bump errors fm2 else fm2.
Proof.
  unfold ledger_after.
  destruct (is_error returned), (timed returned); cbn;
    rewrite ?metrics_of_increment, ?metrics_of_updateMany, ?decide_True by reflexivity;
    rewrite ?metrics_of_increment, ?metrics_of_updateMany, ?decide_True by reflexivity;
    rewrite ?metrics_of_increment, ?metrics_of_updateMany, ?decide_True by reflexivity;
    reflexivity.
Qed.

Lemma ledger_after_other returned fn l m g :
  fn <> g -> ledger_after returned fn l m !! g = m !! g.
Proof.
  intros Hne. unfold ledger_after, increment, updateMany.
  destruct (is_error returned), (timed returned);
    rewrite ?lookup_insert_ne by exact Hne; reflexivity.
Qed.

(** C2, as amended.  For every Return whose executionStart and executionEnd
    are both present and not zero, the Response built by [processResponse]
    carries the three latencies separately: startLatency = executionStart -
    the Call's start, executionLatency = executionEnd - executionStart,
    returnLatency = the clock reading at processing time - executionEnd.  If
    either timestamp is absent or zero, none of the three fields is set. *)
Theorem processResponse_latencies returned callRequest w :
  well_formed returned ->
  exists rv w',
    processResponse returned callRequest w = (Normal rv, w') /\
    (forall es ee,
        executionStart returned = Some es -> executionEnd returned = Some ee ->
        es <> 0 -> ee <> 0 ->
        startLatency rv = Some (es - call_start callRequest) /\
        executionLatency rv = Some (ee - es) /\
        returnLatency rv = Some (clock w (ticks w) - ee)) /\
    (executionStart returned = None \/ executionStart returned = Some 0 \/
     executionEnd returned = None \/ executionEnd returned = Some 0 ->
     startLatency rv = None /\ executionLatency rv = None /\
     returnLatency rv = None).
Proof.
  intros Hwf. eexists _, _. split; [apply processResponse_run, Hwf|].
  split.
  - intros es ee Hs He Hes Hee.
    assert (Ht : timed returned = true).
    { unfold timed. rewrite Hs, He. cbn.
      apply andb_true_iff; split; apply negb_true_iff, Z.eqb_neq; assumption. }
    rewrite Ht. unfold latencies_at. rewrite Hs, He. cbn. auto.
  - intros Hcase.
    assert (Ht : timed returned = false).
    { unfold timed.
      destruct Hcase as [H|[H|[H|H]]]; rewrite H; cbn;
        rewrite ?andb_false_r; reflexivity. }
    rewrite Ht. cbn. auto.
Qed.

Lemma processResponse_latencies_witness :
  exists rv w',
    processResponse return_timed call1000 world0 = (Normal rv, w') /\
    startLatency rv = Some 50 /\ executionLatency rv = Some 150 /\
    returnLatency rv = Some 50.
Proof.
  destruct (processResponse_latencies return_timed call1000 world0)
    as (rv & w' & Hrun & Hlat & _).
  - intros H; discriminate H.
  - exists rv, w'. split; [exact Hrun|].
    apply (Hlat 1050 1200); [reflexivity | reflexivity | lia | lia].
Defined.

(** A Return that carries both timestamps, the first of them 0: no latency
    field is set. *)
Lemma processResponse_epoch_start_untimed :
  executionStart return_epoch = Some 0 /\
  executionEnd return_epoch = Some 1200 /\
  fst (processResponse return_epoch call1000 world0) =
  Normal {| value := VStr "Hello world"; error := None; rawResponse := VNull;
            startLatency := None; executionLatency := None;
            returnLatency := None |}.
Proof. repeat split. Qed.


Lemma well_formed_dec returned :
  well_formed returned \/
  (is_error returned = true /\ nullish (ret_value returned) = true).
Proof.
  unfold well_formed.
  destruct (is_error returned); [|left; discriminate].
  destruct (nullish (ret_value returned)); [right|left]; auto.
Qed.

(** What [processResponse] leaves alone, whether it returns or throws. *)
Lemma processResponse_frame returned callRequest w :
  let w' := snd (processResponse returned callRequest w) in
  clock w' = clock w /\ uuids w' = uuids w /\ drawn w' = drawn w /\
  submitted w' = submitted w /\ (ticks w <= ticks w')%nat.
Proof.
  destruct (well_formed_dec returned) as [Hwf|[He Hn]].
  - rewrite (processResponse_run _ _ _ Hwf). cbn.
    repeat split. destruct (timed returned); lia.
  - rewrite (processResponse_throws _ _ _ He Hn). cbn. repeat split. lia.
Qed.

Lemma bump_completed_le key fm :
  (completedCount fm <= completedCount (bump key fm))%N /\
  (errorCount fm <= errorCount (bump key fm))%N.
Proof. destruct key; cbn; lia. Qed.



(** An invocation of the proxy is its two halves, one after the other, the
    second resumed with how the backend's promise settled. *)
Lemma cloudifyWithResponse_halves {State} (impl : CloudFunctionImpl State)
    state fn args :
  cloudifyWithResponse impl state fn args =
  (submit_call impl state fn args ≫= fun '(callRequest, p) => respond callRequest p).
Proof. reflexivity. Qed.

Lemma submit_call_run {State} (impl : CloudFunctionImpl State) state fn args w :
  submit_call impl state fn args w =
  (Normal (call_built fn args w, callFunction impl state (call_built fn args w)),
   after_submit fn args w).
Proof. reflexivity. Qed.

Lemma respond_run callRequest p w :
  respond callRequest p w =
  match p with
  | Resolved returned => processResponse returned callRequest w
  | Rejected reason =>
      processResponse
        {| ret_type := "error"; ret_value := reason;
           ret_CallId := call_CallId callRequest;
           ret_rawResponse := VUndefined;
           executionStart := Some (call_start callRequest);
           executionEnd := Some (clock w (ticks w)) |}
        callRequest (tick w)
  end.
Proof. destruct p; reflexivity. Qed.

Lemma respond_frame callRequest p w :
  let w' := snd (respond callRequest p w) in
  clock w' = clock w /\ uuids w' = uuids w /\ drawn w' = drawn w /\
  submitted w' = submitted w /\ (ticks w <= ticks w')%nat.
Proof.
  rewrite respond_run. destruct p as [returned|reason].
  - apply processResponse_frame.
  - match goal with |- context [processResponse ?r ?c ?w1] =>
      destruct (processResponse_frame r c w1) as (Hc & Hu & Hd & Hs & Ht) end.
    cbn in *. repeat split; try assumption. lia.
Qed.







(** The Calls handed to the backend over a series of turns: one per
    invocation, in order, the i-th carrying the i-th identifier drawn and a
    reading of the clock. *)
Lemma lifetime_submitted {State} (impl : CloudFunctionImpl State) state turns w :
  let w' := lifetime impl state turns w in
  clock w' = clock w /\ uuids w' = uuids w /\
  exists calls,
    submitted w' = submitted w ++ calls /\
    length calls = length (invocations turns) /\
    forall i c, calls !! i = Some c ->
      call_CallId c = uuids w (drawn w + i)%nat /\
      (exists n, (ticks w <= n)%nat /\ call_start c = clock w n) /\
      exists fn args, invocations turns !! i = Some (fn, args) /\
                      call_name c = fn_name fn /\ call_args c = args.
Proof.
  revert w. induction turns as [|t rest IH]; intros w; cbn.
  - split; [reflexivity|]. split; [reflexivity|].
    exists []. rewrite app_nil_r. split; [reflexivity|]. split; [reflexivity|].
    intros i c Hi. discriminate Hi.
  - destruct (IH (turn impl state w t)) as (Hc' & Hu' & calls & Hsub & Hlen & Hcalls).
    unfold lifetime in *. destruct t as [fn args|callRequest p]; cbn [turn] in *.
    + rewrite submit_call_run in *. cbn [snd after_submit clock uuids drawn ticks submitted] in *.
      split; [exact Hc'|]. split; [exact Hu'|].
      exists (call_built fn args w :: calls).
      split; [rewrite Hsub, <- app_assoc; reflexivity|].
      split; [cbn [length]; f_equal; exact Hlen|].
      intros [|i] c Hi; cbn in Hi.
      * injection Hi as <-. cbn. rewrite Nat.add_0_r.
        split; [reflexivity|]. split; [exists (ticks w); split; [lia|reflexivity]|].
        exists fn, args. repeat split.
      * destruct (Hcalls i c Hi) as (Hid & (n & Hn & Hst) & fn' & args' & Hinv & Hnm).
        split; [rewrite Hid; f_equal; lia|].
        split; [exists n; split; [lia|exact Hst]|].
        exists fn', args'. split; [exact Hinv|exact Hnm].
    + destruct (respond_frame callRequest p w) as (Hc & Hu & Hd & Hs & Ht).
      split; [congruence|]. split; [congruence|].
      exists calls. split; [rewrite Hsub, Hs; reflexivity|].
      split; [exact Hlen|].
      intros i c Hi.
      destruct (Hcalls i c Hi) as (Hid & (n & Hn & Hst) & Hinv).
      split; [rewrite Hid, Hu, Hd; reflexivity|].
      split; [exists n; split; [lia|rewrite Hst, Hc; reflexivity]|exact Hinv].
Qed.

(** The Call at a position of the list handed to the backend is the one
    built by the invocation at that position, in the world the turns before it
    have left. *)
Lemma lifetime_submitted_at {State} (impl : CloudFunctionImpl State) state turns w i c :
  submitted (lifetime impl state turns w) !! (length (submitted w) + i)%nat = Some c ->
  exists before fn args after,
    turns = before ++ Invoked fn args :: after /\
    i = length (invocations before) /\
    c = call_built fn args (lifetime impl state before w).
Proof.
  revert i c. induction turns as [|t turns IH] using rev_ind; intros i c Hi.
  - cbn in Hi. apply lookup_lt_Some in Hi. lia.
  - destruct (lifetime_submitted impl state turns w)
      as (_ & _ & calls & Hsub & Hlen & _).
    unfold lifetime in *. rewrite foldl_app in Hi. cbn [foldl] in Hi.
    assert (Hold : forall j,
              submitted (foldl (turn impl state) w turns)
                !! (length (submitted w) + j)%nat = Some c ->
              exists before fn args after,
                turns ++ [t] = before ++ Invoked fn args :: after /\
                j = length (invocations before) /\
                c = call_built fn args (foldl (turn impl state) w before)).
    { intros j Hj. destruct (IH j c Hj) as (before & fn & args & after & -> & -> & ->).
      exists before, fn, args, (after ++ [t]).
      split; [rewrite <- app_assoc; reflexivity|]. split; reflexivity. }
    destruct t as [fn args|callRequest p]; cbn [turn] in Hi.
    + rewrite submit_call_run in Hi. cbn [snd after_submit submitted] in Hi.
      rewrite Hsub, <- app_assoc in Hi. rewrite lookup_app_r in Hi by lia.
      replace (length (submitted w) + i - length (submitted w))%nat with i in Hi by lia.
      destruct (decide (i < length calls)%nat) as [Hlt|Hge].
      * rewrite lookup_app_l in Hi by exact Hlt.
        apply (Hold i). rewrite Hsub, lookup_app_r by lia.
        replace (length (submitted w) + i - length (submitted w))%nat with i by lia.
        exact Hi.
      * rewrite lookup_app_r in Hi by lia.
        destruct (i - length calls)%nat as [|k] eqn:Ek; [|discriminate Hi].
        cbn in Hi. injection Hi as <-.
        exists turns, fn, args, []. split; [reflexivity|].
        split; [lia|reflexivity].
    + destruct (respond_frame callRequest p (foldl (turn impl state) w turns))
        as (_ & _ & _ & Hs & _).
      cbn zeta in Hs. rewrite Hs in Hi.
      apply (Hold i). exact Hi.
Qed.

(** C5, as amended.  Every invocation of a proxy of the facade hands the
    backend a Call whose callId is one fresh draw of uuidv4 and whose start is
    what [Date.now()] reads at that invocation, that is in the world the
    turns before it have left: the i-th Call handed over is the one the i-th
    invocation built there.  Over all invocations made through one facade,
    interleaved in any way, if uuidv4 never hands out the same identifier
    twice, no two Calls share a callId. *)
Theorem facade_callIds_unique {State} (impl : CloudFunctionImpl State) state
    turns w :
  (forall i j, uuids w i = uuids w j -> i = j) ->
  submitted w = [] ->
  let calls := submitted (lifetime impl state turns w) in
  length calls = length (invocations turns) /\
  NoDup (call_CallId <$> calls) /\
  forall i c, calls !! i = Some c ->
    call_CallId c = uuids w (drawn w + i)%nat /\
    (exists before fn args after,
       turns = before ++ Invoked fn args :: after /\
       i = length (invocations before) /\
       let now := lifetime impl state before w in
       c = call_built fn args now /\
       call_start c = clock now (ticks now) /\
       call_CallId c = uuids now (drawn now) /\
       clock now = clock w /\ uuids now = uuids w /\
       (ticks w <= ticks now)%nat) /\
    exists fn args, invocations turns !! i = Some (fn, args) /\
                    call_name c = fn_name fn /\ call_args c = args.
Proof.
  intros Hinj Hempty.
  destruct (lifetime_submitted impl state turns w)
    as (_ & _ & calls & Hsub & Hlen & Hcalls).
  cbn zeta.
  assert (Hat : forall i c, submitted (lifetime impl state turns w) !! i = Some c ->
            exists before fn args after,
              turns = before ++ Invoked fn args :: after /\
              i = length (invocations before) /\
              c = call_built fn args (lifetime impl state before w)).
  { intros i c Hi. apply (lifetime_submitted_at impl state turns w i c).
    rewrite Hempty. exact Hi. }
  rewrite Hsub, Hempty in *. cbn [app] in *.
  split; [exact Hlen|]. split.
  - apply NoDup_alt. intros i j x Hi Hj.
    rewrite list_lookup_fmap in Hi, Hj.
    destruct (calls !! i) as [ci|] eqn:Eci; [|discriminate].
    destruct (calls !! j) as [cj|] eqn:Ecj; [|discriminate].
    cbn in Hi, Hj.
    destruct (Hcalls i ci Eci) as (Hidi & _).
    destruct (Hcalls j cj Ecj) as (Hidj & _).
    assert (Heq : uuids w (drawn w + i)%nat = uuids w (drawn w + j)%nat) by congruence.
    apply Hinj in Heq. lia.
  - intros i c Hi. destruct (Hcalls i c Hi) as (Hid & _ & Hinv).
    split; [exact Hid|]. split; [|exact Hinv].
    destruct (Hat i c Hi) as (before & fn & args & after & Hturns & Hpos & Hc).
    exists before, fn, args, after.
    split; [exact Hturns|]. split; [exact Hpos|]. cbn zeta.
    split; [exact Hc|]. split; [rewrite Hc; reflexivity|].
    split; [rewrite Hc; reflexivity|].
    destruct (lifetime_submitted impl state before w) as (Hck & Hu & _).
    cbn zeta in Hck, Hu. split; [exact Hck|]. split; [exact Hu|].
    clear. revert w. induction before as [|t rest IH] using rev_ind; intros w.
    + cbn. lia.
    + unfold lifetime in *. rewrite foldl_app. cbn [foldl].
      specialize (IH w). destruct t as [fn args|callRequest p]; cbn [turn].
      * rewrite submit_call_run. cbn. lia.
      * destruct (respond_frame callRequest p (foldl (turn impl state) w rest))
          as (_ & _ & _ & _ & Ht). cbn zeta in Ht. lia.
Qed.

Lemma pretty_nat_inj (i j : nat) : pretty i = pretty j -> i = j.
Proof. apply (inj pretty). Qed.

Lemma facade_callIds_unique_witness :
  NoDup (call_CallId <$> submitted (lifetime (backend_resolving return_timed) tt
                                      overlapping world0)).
Proof.
  refine (proj1 (proj2 (facade_callIds_unique (backend_resolving return_timed) tt
                          overlapping world0 _ _))).
  - intros i j. apply pretty_nat_inj.
  - reflexivity.
Defined.

(** C1, as amended.  For every invocation of a proxy made by the facade's
    [cloudifyWithResponse], when the backend's [callFunction] resolves with a
    well-formed Return or rejects with a reason other than [undefined] and
    [null], the invocation resolves with a Response and does not throw.  A
    rejection is turned into an error Return whose executionStart is the
    start time of the Call and whose executionEnd is the clock reading taken
    when the rejection is caught, and that Return goes through
    [processResponse]. *)
Theorem facade_resolves_with_response {State} (impl : CloudFunctionImpl State)
    state fn args w :
  acceptable (callFunction impl state (call_built fn args w)) ->
  (exists rv w', cloudifyWithResponse impl state fn args w = (Normal rv, w')) /\
  (forall reason,
      callFunction impl state (call_built fn args w) = Rejected reason ->
      let synth := synthesized reason fn args w in
      cloudifyWithResponse impl state fn args w
        = processResponse synth (call_built fn args w) (tick (after_submit fn args w)) /\
      ret_type synth = "error" /\ ret_value synth = reason /\
      executionStart synth = Some (call_start (call_built fn args w)) /\
      executionEnd synth = Some (clock w (S (ticks w))) /\
      exists rv w',
        cloudifyWithResponse impl state fn args w = (Normal rv, w') /\
        error rv = Some (rebuilt reason)).
Proof.
  intros Hok. rewrite cloudifyWithResponse_unfold.
  destruct (callFunction impl state _) as [returned|reason0]; cbn in Hok.
  - split; [|intros reason Hr; discriminate Hr].
    eexists _, _. apply processResponse_run, Hok.
  - assert (Hwf : well_formed (synthesized reason0 fn args w)) by (intros _; exact Hok).
    split.
    + eexists _, _. apply processResponse_run, Hwf.
    + intros reason Hr. injection Hr as <-. cbn zeta.
      repeat (split; [reflexivity|]).
      eexists _, _. split; [apply processResponse_run, Hwf|].
      cbn. destruct (timed _); reflexivity.
Qed.

Lemma facade_resolves_with_response_witness :
  exists rv w',
    cloudifyWithResponse (backend_rejecting validation_error) tt hello [] world0
      = (Normal rv, w') /\
    error rv = Some (rebuilt validation_error).
Proof.
  destruct (facade_resolves_with_response (backend_rejecting validation_error) tt
              hello [] world0) as (_ & Hrej).
  - reflexivity.
  - destruct (Hrej validation_error eq_refl) as (_ & _ & _ & _ & _ & Hex).
    exact Hex.
Defined.

(** C4.  For every invocation of a proxy made by [cloudify]: if the Response
    of the corresponding [cloudifyWithResponse] invocation has an error, the
    invocation throws exactly that error; otherwise it returns the Response's
    value, and nothing else of the Response. *)
Theorem cloudify_unwraps {State} (impl : CloudFunctionImpl State) state fn args w
    response w' :
  cloudifyWithResponse impl state fn args w = (Normal response, w') ->
  (forall e, error response = Some e ->
             cloudify impl state fn args w = (Throw (ExnError e), w')) /\
  (error response = None ->
   cloudify impl state fn args w = (Normal (value response), w')).
Proof.
  intros Hrun. unfold cloudify, mbind, SE_bind. rewrite Hrun.
  split; [intros e He|intros He]; rewrite He; reflexivity.
Qed.

Lemma cloudify_unwraps_witness :
  fst (cloudify (backend_resolving return_error) tt hello [] world0)
    = Throw (ExnError {| message := "bad input";
                         name := VStr "ValidationError";
                         stack := VStr "ValidationError: bad input at remote.js:1" |}) /\
  fst (cloudify (backend_resolving return_timed) tt hello [] world0)
    = Normal (VStr "Hello world").
Proof.
  split.
  - pose proof (cloudify_unwraps (backend_resolving return_error) tt hello []
                  world0 _ _ eq_refl) as [Hthrow _].
    rewrite (Hthrow _ eq_refl). reflexivity.
  - pose proof (cloudify_unwraps (backend_resolving return_timed) tt hello []
                  world0 _ _ eq_refl) as [_ Hret].
    rewrite (Hret eq_refl). reflexivity.
Defined.


(** An error Return that carries name, message and stack is rebuilt with
    exactly these. *)
Lemma processResponse_rebuilds returned callRequest w N M S :
  is_error returned = true ->
  carries (ret_value returned) N M S ->
  exists rv w',
    processResponse returned callRequest w = (Normal rv, w') /\
    error rv = Some {| message := M; name := VStr N; stack := VStr S |}.
Proof.
  intros He Hc. destruct (rebuilt_carries _ _ _ _ Hc) as [Hn Hr].
  eexists _, _. split; [apply processResponse_run; intros _; exact Hn|].
  rewrite He, Hr. destruct (timed returned); reflexivity.
Qed.

Lemma elem_of_Object_keys {A} (o : gmap string A) k :
  k ∈ Object_keys o <-> is_Some (o !! k).
Proof.
  unfold Object_keys. rewrite list_elem_of_fmap. split.
  - intros ([k' v] & -> & Hin). apply elem_of_map_to_list in Hin. eauto.
  - intros [v Hv]. exists (k, v). split; [reflexivity|].
    apply elem_of_map_to_list, Hv.
Qed.

(** The loop of [cloudifyAll], over any list of names. *)
Lemma wrap_members_spec {P} (wrap : AnyFunction -> P) names l0 :
  let l := foldl (wrap_member wrap) l0 names in
  module l = module l0 /\
  forall k,
    rv l !! k =
    match module l0 !! k with
    | Some (MFunction f) => if decide (k ∈ names) then Some (wrap f) else rv l0 !! k
    | _ => rv l0 !! k
    end.
Proof.
  revert l0. induction names as [|name rest IH]; intros l0; cbn.
  - split; [reflexivity|]. intros k.
    destruct (module l0 !! k) as [[f|v]|]; reflexivity.
  - destruct (IH (wrap_member wrap l0 name)) as [Hm Hrv].
    assert (Hm1 : module (wrap_member wrap l0 name) = module l0).
    { unfold wrap_member. destruct (module l0 !! name) as [[f|v]|]; reflexivity. }
    split; [congruence|]. intros k. rewrite Hrv, Hm1.
    unfold wrap_member.
    destruct (module l0 !! k) as [[f|v]|] eqn:Ek.
    + destruct (decide (k ∈ rest)) as [Hin|Hnin].
      * rewrite decide_True by (apply elem_of_cons; auto). reflexivity.
      * destruct (decide (k = name)) as [->|Hne].
        -- rewrite Ek. cbn. rewrite lookup_insert_eq.
           rewrite decide_True by (apply elem_of_cons; auto). reflexivity.
        -- rewrite decide_False
             by (intros [?|?]%elem_of_cons; contradiction).
           destruct (module l0 !! name) as [[g|u]|]; try reflexivity.
           cbn. apply lookup_insert_ne. congruence.
    + destruct (module l0 !! name) as [[g|u]|] eqn:En; try reflexivity.
      cbn. apply lookup_insert_ne. congruence.
    + destruct (module l0 !! name) as [[g|u]|] eqn:En; try reflexivity.
      cbn. apply lookup_insert_ne. congruence.
Qed.

Lemma wrap_all_spec {P} (wrap : AnyFunction -> P) module0 :
  module (wrap_all wrap module0) = module0 /\
  forall k,
    rv (wrap_all wrap module0) !! k =
    match module0 !! k with
    | Some (MFunction f) => Some (wrap f)
    | _ => None
    end.
Proof.
  unfold wrap_all.
  destruct (wrap_members_spec wrap (Object_keys module0)
              {| module := module0; rv := ∅ |}) as [Hm Hrv].
  split; [exact Hm|]. intros k. rewrite Hrv. cbn.
  destruct (module0 !! k) as [[f|v]|] eqn:Ek; try apply lookup_empty.
  rewrite decide_True; [reflexivity|].
  apply elem_of_Object_keys. rewrite Ek. eauto.
Qed.

(** C7.  For every namespace passed to [cloudifyAll] or
    [cloudifyAllWithResponse], the result has under each key of a
    function-valued entry the proxy wrapping that function, and has no entry
    under any other key: the entries that are not functions are omitted.
    The namespace passed in is the same after the loop as before. *)
Theorem cloudifyAll_wraps_functions {State} (impl : CloudFunctionImpl State)
    state (module0 : gmap string member) :
  (forall k,
      cloudifyAll impl state module0 !! k =
      match module0 !! k with
      | Some (MFunction f) => Some (cloudify impl state f)
      | _ => None
      end) /\
  (forall k,
      cloudifyAllWithResponse impl state module0 !! k =
      match module0 !! k with
      | Some (MFunction f) => Some (cloudifyWithResponse impl state f)
      | _ => None
      end) /\
  module (wrap_all (cloudify impl state) module0) = module0 /\
  module (wrap_all (cloudifyWithResponse impl state) module0) = module0.
Proof.
  unfold cloudifyAll, cloudifyAllWithResponse.
  destruct (wrap_all_spec (cloudify impl state) module0) as [Hm1 Hrv1].
  destruct (wrap_all_spec (cloudifyWithResponse impl state) module0) as [Hm2 Hrv2].
  auto.
Qed.

(** A namespace of two functions and one constant: the two functions are
    wrapped, the constant is left out. *)
Example cloudifyAll_two_functions_one_constant {State}
    (impl : CloudFunctionImpl State) state :
  let namespace : gmap string member :=
    {[ "hello" := MFunction hello;
       "add" := MFunction {| fn_name := "add" |};
       "version" := MData (VStr "1.0") ]} in
  cloudifyAll impl state namespace !! "hello" = Some (cloudify impl state hello) /\
  cloudifyAll impl state namespace !! "add"
    = Some (cloudify impl state {| fn_name := "add" |}) /\
  cloudifyAll impl state namespace !! "version" = None.
Proof.
  cbn zeta.
  destruct (wrap_all_spec (cloudify impl state)
              {[ "hello" := MFunction hello;
                 "add" := MFunction {| fn_name := "add" |};
                 "version" := MData (VStr "1.0") ]}) as [_ Hrv].
  unfold cloudifyAll. rewrite !Hrv. repeat split.
Qed.

End CloudifyFacts.

(* ===================================================================== *)
(** * The AWS direct path and the teardown *)
(* ===================================================================== *)
Module AwsFacts.
Import JS Aws AwsStatements AwsSim.
Import Statements CloudifyFacts.

Section WithPlatform.
Context {Cloud : Type} (platform : Platform Cloud).

Lemma attempts_ret {A} (a : A) : attempts (mret a : SE (World Cloud) A) [].
Proof. intros w. exists a, w. split; [reflexivity|]. rewrite app_nil_r. reflexivity. Qed.

Lemma attempts_bind {A B} (m : SE (World Cloud) A) (f : A -> SE (World Cloud) B) ds1 ds2 :
  attempts m ds1 -> (forall a, attempts (f a) ds2) -> attempts (m ≫= f) (ds1 ++ ds2).
Proof.
  intros Hm Hf w. destruct (Hm w) as (a & w1 & Hrun & Hd).
  destruct (Hf a w1) as (b & w2 & Hrun2 & Hd2).
  exists b, w2. unfold mbind, SE_bind. rewrite Hrun. split; [exact Hrun2|].
  rewrite Hd2, Hd, app_assoc. reflexivity.
Qed.

Lemma attempts_log entry : attempts (log entry : SE (World Cloud) unit) [].
Proof.
  intros w. eexists tt, _. split; [reflexivity|]. rewrite app_nil_r. reflexivity.
Qed.

Lemma deletions_snoc trace s :
  deletions (trace ++ [s]) = deletions trace ++ from_option (fun d => [d]) [] (as_deletion s).
Proof.
  unfold deletions. rewrite omap_app. cbn. destruct (as_deletion s); reflexivity.
Qed.

(** [carefully] never throws: a rejection is logged and becomes [undefined]. *)
Lemma carefully_run {T} (arg : Request T) w :
  carefully platform arg w =
  match serve platform T arg (cloud w) with
  | (Resolved reply, c) =>
      (Normal (Some reply),
       {| cloud := c; logged := logged w; issued := issued w ++ [existT T arg] |})
  | (Rejected err, c) =>
      (Normal None,
       {| cloud := c; logged := logged w ++ [err];
          issued := issued w ++ [existT T arg] |})
  end.
Proof.
  unfold carefully, promise, mbind, SE_bind.
  destruct (serve platform T arg (cloud w)) as [[reply|err] c]; reflexivity.
Qed.

(** [quietly] never throws: a rejection becomes [undefined], unlogged. *)
Lemma quietly_run {T} (arg : Request T) w :
  quietly platform arg w =
  match serve platform T arg (cloud w) with
  | (Resolved reply, c) =>
      (Normal (Some reply),
       {| cloud := c; logged := logged w; issued := issued w ++ [existT T arg] |})
  | (Rejected err, c) =>
      (Normal None,
       {| cloud := c; logged := logged w; issued := issued w ++ [existT T arg] |})
  end.
Proof.
  unfold quietly, promise, mbind, SE_bind.
  destruct (serve platform T arg (cloud w)) as [[reply|err] c]; reflexivity.
Qed.

Lemma attempts_carefully {T} (arg : Request T) :
  attempts (carefully platform arg)
    (from_option (fun d => [d]) [] (as_deletion (existT T arg))).
Proof.
  intros w. rewrite carefully_run.
  destruct (serve platform T arg (cloud w)) as [[reply|err] c];
    eexists _, _; (split; [reflexivity|]); cbn [issued]; apply deletions_snoc.
Qed.

Lemma attempts_try_catch {A} (m : SE (World Cloud) A) handler ds :
  attempts m ds -> attempts (try_catch m handler) ds.
Proof.
  intros Hm w. destruct (Hm w) as (a & w' & Hrun & Hd).
  exists a, w'. unfold try_catch. rewrite Hrun. auto.
Qed.

Lemma attempts_detach_all RoleName (policies : list AttachedPolicy) :
  attempts
    (Promise_all_map
       (fun policy => carefully platform (IAM_detachRolePolicy RoleName (PolicyArn policy)))
       policies) [].
Proof.
  induction policies as [|p rest IH]; cbn [Promise_all_map].
  - apply attempts_ret.
  - change (@nil Deletion) with (@nil Deletion ++ ([] ++ [])).
    apply attempts_bind; [apply (attempts_carefully (IAM_detachRolePolicy _ _))|].
    intros y. apply attempts_bind; [exact IH|]. intros ys. apply attempts_ret.
Qed.

Lemma attempts_deleteRole RoleName noCreateLogGroupPolicy :
  attempts (deleteRole platform RoleName noCreateLogGroupPolicy)
           (role_deletions RoleName noCreateLogGroupPolicy).
Proof.
  unfold deleteRole, role_deletions.
  change (?x ++ [DelRole RoleName]) with ([] ++ ([] ++ (x ++ ([DelRole RoleName] ++ [])))).
  apply attempts_bind; [apply (attempts_carefully (IAM_listAttachedRolePolicies _))|].
  intros policies.
  apply attempts_bind.
  { apply attempts_try_catch.
    change (@nil Deletion) with (@nil Deletion ++ []).
    apply attempts_bind; [apply attempts_detach_all|]. intros; apply attempts_ret. }
  intros _. apply attempts_bind.
  { destruct (truthy_str noCreateLogGroupPolicy).
    - change [DelRolePolicy RoleName (default "" noCreateLogGroupPolicy)]
        with ([DelRolePolicy RoleName (default "" noCreateLogGroupPolicy)] ++ []).
      apply attempts_bind; [apply (attempts_carefully (IAM_deleteRolePolicy _ _))|].
      intros; apply attempts_ret.
    - apply attempts_ret. }
  intros _. apply attempts_bind; [apply (attempts_carefully (IAM_deleteRole _))|].
  intros; apply attempts_ret.
Qed.

Lemma attempts_cleanup state :
  attempts (cleanup platform state) (targeted state).
Proof.
  unfold cleanup, targeted.
  apply attempts_bind.
  { destruct (truthy_str (p_FunctionName state)); [|apply attempts_ret].
    change [DelFunction ?n] with ([] ++ ([DelFunction n] ++ [])).
    apply attempts_bind; [apply attempts_log|]. intros _.
    apply attempts_bind; [apply (attempts_carefully (Lambda_deleteFunction _))|].
    intros; apply attempts_ret. }
  intros _. apply attempts_bind.
  { destruct (truthy_str (p_RoleName state)
              && bool_decide (p_roleNeedsCleanup state = Some true));
      [|apply attempts_ret].
    change (role_deletions ?r ?p) with ([] ++ role_deletions r p).
    apply attempts_bind; [apply attempts_log|]. intros _.
    apply attempts_deleteRole. }
  intros _.
  destruct (truthy_str (p_logGroupName state)); [|apply attempts_ret].
  change [DelLogGroup ?n] with ([] ++ ([DelLogGroup n] ++ [])).
  apply attempts_bind; [apply attempts_log|]. intros _.
  apply attempts_bind; [apply (attempts_carefully (CloudWatch_deleteLogGroup _))|].
  intros; apply attempts_ret.
Qed.

Lemma attempts_gcReclaim orphans :
  attempts (gcReclaim platform orphans) (concat (targeted <$> orphans)).
Proof.
  induction orphans as [|o rest IH]; cbn [gcReclaim fmap list_fmap concat].
  - apply attempts_ret.
  - apply attempts_bind; [apply attempts_cleanup|]. intros _. exact IH.
Qed.


(** The direct path does not catch a rejected invocation. *)
Lemma direct_rejected state fn args w reason c :
  serve platform _ (Lambda_invoke (request_of platform state fn args)) (cloud w)
    = (Rejected reason, c) ->
  fst (Aws.cloudifyWithResponse platform state fn args w) = Throw (ExnValue reason).
Proof.
  intros Hs. unfold Aws.cloudifyWithResponse, promise, mbind, SE_bind.
  fold (request_of platform state fn args). rewrite Hs. reflexivity.
Qed.


(** A parsed error Return that carries name, message and stack is rebuilt
    with exactly these on the direct path. *)
Lemma direct_rebuilds state fn args w raw c payload returned errValue N M S :
  serve platform _ (Lambda_invoke (request_of platform state fn args)) (cloud w)
    = (Resolved raw, c) ->
  truthy_str (FunctionError raw) = false ->
  Payload raw = Some payload -> payload <> "" ->
  JSON_parse platform payload = Some returned ->
  get returned "type" = Some (VStr "error") ->
  get returned "value" = Some errValue ->
  carries errValue N M S ->
  exists rv w',
    Aws.cloudifyWithResponse platform state fn args w = (Normal rv, w') /\
    Cloudify.error rv = Some {| message := M; name := VStr N; stack := VStr S |}.
Proof.
  intros Hs Hfe Hp Hne Hj Hty Hv Hc.
  destruct (rebuilt_carries _ _ _ _ Hc) as [Hn Hr].
  unfold Aws.cloudifyWithResponse, promise, mbind, SE_bind.
  fold (request_of platform state fn args). rewrite Hs. cbn.
  rewrite Hfe, Hp. cbn.
  assert (Hpt : negb (String.eqb payload "") = true).
  { apply negb_true_iff, String.eqb_neq, Hne. }
  rewrite Hpt, Hj. cbn.
  assert (Ht : truthy returned = true).
  { destruct returned; try discriminate Hty; try reflexivity. }
  rewrite Ht, Hty, Hv. cbn.
  rewrite (rebuildError_object _ Hn), Hr. cbn. eauto.
Qed.

(** C8.  Resource deletion in [cleanup], and in a reclamation pass that
    runs it over a set of orphans, is total and idempotent: whatever the
    provider answers to each request (a deletion of something already absent
    is rejected by the provider), the pass never throws and attempts every
    deletion it is to attempt, in order, none being skipped because an
    earlier one failed; a rejected request is logged by [carefully], passed
    over silently by [quietly], and resolves with [undefined] either way; a
    second pass over the same resources behaves the same. *)
Theorem cleanup_total_idempotent state orphans :
  attempts (cleanup platform state) (targeted state) /\
  attempts (cleanup platform state;; cleanup platform state)
           (targeted state ++ targeted state) /\
  attempts (gcReclaim platform orphans) (concat (targeted <$> orphans)) /\
  attempts (gcReclaim platform orphans;; gcReclaim platform orphans)
           (concat (targeted <$> orphans) ++ concat (targeted <$> orphans)) /\
  (forall T (arg : Request T) w,
      carefully platform arg w =
      match serve platform T arg (cloud w) with
      | (Resolved reply, c) =>
          (Normal (Some reply),
           {| cloud := c; logged := logged w;
              issued := issued w ++ [existT T arg] |})
      | (Rejected err, c) =>
          (Normal None,
           {| cloud := c; logged := logged w ++ [err];
              issued := issued w ++ [existT T arg] |})
      end) /\
  (forall T (arg : Request T) w,
      quietly platform arg w =
      match serve platform T arg (cloud w) with
      | (Resolved reply, c) =>
          (Normal (Some reply),
           {| cloud := c; logged := logged w;
              issued := issued w ++ [existT T arg] |})
      | (Rejected err, c) =>
          (Normal None,
           {| cloud := c; logged := logged w;
              issued := issued w ++ [existT T arg] |})
      end).
Proof.
  split; [apply attempts_cleanup|].
  split; [apply attempts_bind; [apply attempts_cleanup|intros _; apply attempts_cleanup]|].
  split; [apply attempts_gcReclaim|].
  split; [apply attempts_bind; [apply attempts_gcReclaim|intros _; apply attempts_gcReclaim]|].
  split; [intros; apply carefully_run|intros; apply quietly_run].
Qed.

End WithPlatform.

(** Tearing down the instance of [AwsSim] deletes all it created; a second
    teardown finds everything absent, logs the five rejections and returns
    all the same, leaving the account as it was. *)
Example cleanup_twice_on_account :
  let '(first, w1) := cleanup sim instance (start_world account) in
  let '(second, w2) := cleanup sim instance w1 in
  first = Normal tt /\ second = Normal tt /\
  cloud w1 = empty_account /\ cloud w2 = empty_account /\
  logged w2 = logged w1 ++
    [VStr "Deleting function: cloudify-1";
     aws_error "ResourceNotFoundException";
     VStr "Deleting role name: cloudify-role-1";
     aws_error "NoSuchEntity"; aws_error "NoSuchEntity"; aws_error "NoSuchEntity";
     VStr "Deleting log group: /aws/lambda/cloudify-1";
     aws_error "ResourceNotFoundException"].
Proof. vm_compute. repeat split. Qed.

End AwsFacts.

(* ===================================================================== *)
(** * Both call paths *)
(* ===================================================================== *)
Module BoundaryFacts.
Import JS Shared.
Import Aws AwsStatements AwsSim AwsFacts.
Import Cloudify Statements Examples CloudifyFacts.

(** C3.  For every Return whose outcome is an error with remote name N,
    message M and stack S, the error placed in the Response has exactly the
    name N, the message M and the stack S, on the facade path
    ([processResponse]) and on the AWS direct path alike, and the unwrapping
    proxy of [cloudify] throws exactly that error. *)
Theorem remote_error_preserved (errValue : jsval) (N M S : string) :
  carries errValue N M S ->
  let e := {| message := M; name := VStr N; stack := VStr S |} in
  (forall returned callRequest w,
      is_error returned = true -> ret_value returned = errValue ->
      exists rv w',
        processResponse returned callRequest w = (Normal rv, w') /\
        error rv = Some e) /\
  (forall State (impl : CloudFunctionImpl State) state fn args w returned,
      callFunction impl state (call_built fn args w) = Resolved returned ->
      is_error returned = true -> ret_value returned = errValue ->
      exists w', cloudify impl state fn args w = (Throw (ExnError e), w')) /\
  (forall Cloud (platform : Platform Cloud) state fn args w raw c payload returned,
      serve platform _ (Lambda_invoke (request_of platform state fn args)) (Aws.cloud w)
        = (Resolved raw, c) ->
      truthy_str (FunctionError raw) = false ->
      Payload raw = Some payload -> payload <> "" ->
      JSON_parse platform payload = Some returned ->
      get returned "type" = Some (VStr "error") ->
      get returned "value" = Some errValue ->
      exists rv w',
        Aws.cloudifyWithResponse platform state fn args w = (Normal rv, w') /\
        error rv = Some e).
Proof.
  intros Hc. cbn zeta. split; [|split].
  - intros returned callRequest w He <-.
    apply processResponse_rebuilds; assumption.
  - intros State impl state fn args w returned Hcall He Hv. subst errValue.
    destruct (processResponse_rebuilds returned (call_built fn args w)
                (after_submit fn args w) N M S He Hc) as (rv & w' & Hrun & Herr).
    exists w'.
    assert (Hwr : cloudifyWithResponse impl state fn args w = (Normal rv, w')).
    { rewrite cloudifyWithResponse_unfold, Hcall. exact Hrun. }
    unfold cloudify, mbind, SE_bind. rewrite Hwr, Herr. reflexivity.
  - intros Cloud platform state fn args w raw c payload returned
      Hs Hfe Hp Hne Hj Hty Hv.
    eapply direct_rebuilds; eassumption.
Qed.

Lemma remote_error_preserved_witness :
  let e := {| message := "bad input"; name := VStr "ValidationError";
              stack := VStr "ValidationError: bad input at remote.js:1" |} in
  (exists rv w',
      processResponse return_error call1000 world0 = (Normal rv, w') /\
      error rv = Some e) /\
  (exists w',
      cloudify (backend_resolving return_error) tt hello [] world0
        = (Throw (ExnError e), w')) /\
  (exists rv w',
      Aws.cloudifyWithResponse
        (invoking (Resolved {| FunctionError := None; LogResult := None;
                               Payload := Some "<error>" |}))
        deployed hello [] idle = (Normal rv, w') /\
      error rv = Some e).
Proof.
  destruct (remote_error_preserved validation_error "ValidationError" "bad input"
              "ValidationError: bad input at remote.js:1")
    as (Hfacade & Hunwrap & Hdirect).
  - repeat split.
  - cbn zeta. split; [|split].
    + apply Hfacade; reflexivity.
    + apply (Hunwrap unit (backend_resolving return_error) tt hello [] world0
               return_error); reflexivity.
    + eapply (Hdirect unit); try reflexivity. discriminate.
Defined.



(** The direct path lets a rejected invocation through as a rejection of its
    own, and the facade throws a TypeError when the backend rejects with
    [undefined]. *)
Lemma rejection_reaches_caller :
  fst (Aws.cloudifyWithResponse (invoking (Rejected (aws_error "NetworkingError")))
         deployed hello [] idle)
    = Throw (ExnValue (aws_error "NetworkingError")) /\
  fst (cloudifyWithResponse (backend_rejecting VUndefined) tt hello [] world0)
    = Throw ExnTypeError.
Proof. split; reflexivity. Qed.

(** The Call of the direct path has neither a callId nor a start time, and
    two invocations with the same arguments send the same request.  On the
    facade the callIds are as distinct as what uuidv4 hands out: with a
    generator that repeats itself, two invocations through one facade build
    Calls with the same callId. *)
Lemma direct_call_without_callId :
  get (callArgs hello [VStr "world"]) "CallId" = Some VUndefined /\
  get (callArgs hello [VStr "world"]) "start" = Some VUndefined /\
  (let platform := invoking (Resolved {| FunctionError := None; LogResult := None;
                                         Payload := None |}) in
   let invocation := Aws.cloudifyWithResponse platform deployed hello [VStr "world"] in
   issued (snd ((invocation;; invocation) idle))
     = [existT _ (Lambda_invoke (request_of platform deployed hello [VStr "world"]));
        existT _ (Lambda_invoke (request_of platform deployed hello [VStr "world"]))]) /\
  (let repeating :=
     {| ticks := 0%nat; clock := fun n => 1250 + Z.of_nat n;
        drawn := 0%nat; uuids := fun _ => "1f0e";
        functionMetrics := ∅; submitted := [] |} in
   call_CallId <$>
     submitted (lifetime (backend_resolving return_timed) tt
                  [Invoked hello [VStr "a"]; Invoked hello [VStr "b"]] repeating)
   = ["1f0e"; "1f0e"]).
Proof. repeat split. Qed.

End BoundaryFacts.

(* ===================================================================== *)
(** * The child-process backend *)
(* ===================================================================== *)
Module ProcessFacts.
Import JS Shared Process ProcessStatements.

Lemma consistent_initialize : consistent initialize.
Proof.
  split; [|split]; cbn.
  - intros p Hp. apply elem_of_empty in Hp. destruct Hp.
  - intros p Hp. apply elem_of_empty in Hp. destruct Hp.
  - intros s Hs. apply elem_of_nil in Hs. destruct Hs.
Qed.

Lemma consistent_fork w call : consistent w -> consistent (fork w call).
Proof.
  intros (Hc & He & Hs). unfold fork. split; [|split]; cbn.
  - intros p Hp. rewrite length_app; cbn.
    apply elem_of_union in Hp as [->%elem_of_singleton|Hp].
    + split; [lia|]. intros Hin. apply He in Hin. lia.
    + apply Hc in Hp. split; [lia|tauto].
  - intros p Hp. rewrite length_app; cbn. apply He in Hp. lia.
  - exact Hs.
Qed.

Lemma fork_frame w call :
  exited (fork w call) = exited w /\ stops (fork w call) = stops w /\
  killed (fork w call) = killed w /\ cancelled (fork w call) = cancelled w /\
  (length (forked w) <= length (forked (fork w call)))%nat.
Proof. unfold fork; cbn. rewrite length_app. cbn. repeat split. lia. Qed.

Lemma consistent_start_all started w :
  consistent w -> consistent (start_all started w).
Proof.
  revert w. induction started as [|c rest IH]; intros w Hw; cbn; [exact Hw|].
  apply IH, consistent_fork, Hw.
Qed.

Lemma start_all_frame started w :
  exited (start_all started w) = exited w /\
  stops (start_all started w) = stops w /\
  killed (start_all started w) = killed w /\
  cancelled (start_all started w) = cancelled w /\
  (length (forked w) <= length (forked (start_all started w)))%nat.
Proof.
  revert w. induction started as [|c rest IH]; intros w; cbn.
  - repeat split. lia.
  - destruct (IH (fork w c)) as (He & Hs & Hk & Hc & Hl).
    destruct (fork_frame w c) as (He' & Hs' & Hk' & Hc' & Hl').
    unfold start_all in *. repeat split; try congruence. lia.
Qed.

(** Changing the funnel, or the recorded outcome of a child, keeps the
    instance consistent. *)
Lemma consistent_same_children w w' :
  childProcesses (state w') = childProcesses (state w) ->
  length (forked w') = length (forked w) ->
  exited w' = exited w -> stops w' = stops w ->
  consistent w -> consistent w'.
Proof.
  intros Hcp Hl He Hs (H1 & H2 & H3). unfold consistent.
  rewrite Hcp, Hl, He, Hs. auto.
Qed.

Lemma consistent_settle_child p outcome w :
  consistent w -> consistent (settle_child p outcome w).
Proof.
  intros Hw. unfold settle_child.
  destruct (forked w !! p) as [[call [o|]]|]; try exact Hw.
  destruct (Funnel.settle _) as [started f].
  apply consistent_start_all.
  eapply consistent_same_children; [..|exact Hw]; cbn; try reflexivity.
  apply length_insert.
Qed.

Lemma settle_child_frame p outcome w :
  exited (settle_child p outcome w) = exited w /\
  stops (settle_child p outcome w) = stops w /\
  killed (settle_child p outcome w) = killed w /\
  cancelled (settle_child p outcome w) = cancelled w /\
  (length (forked w) <= length (forked (settle_child p outcome w)))%nat.
Proof.
  unfold settle_child.
  destruct (forked w !! p) as [[call [o|]]|]; try (repeat split; lia).
  destruct (Funnel.settle _) as [started f].
  match goal with |- context [start_all started ?w1] =>
    destruct (start_all_frame started w1) as (He & Hs & Hk & Hc & Hl) end.
  cbn in *. rewrite length_insert in Hl. repeat split; assumption.
Qed.

Lemma consistent_delete_child p w :
  consistent w -> consistent (delete_child p w).
Proof.
  intros (Hc & He & Hs). unfold delete_child, with_state.
  split; [|split]; cbn.
  - intros q Hq. apply elem_of_difference in Hq as [Hq _]. apply Hc, Hq.
  - exact He.
  - exact Hs.
Qed.

Lemma consistent_on_exit p code signal w :
  alive p w = true -> consistent w -> consistent (on_exit p code signal w).
Proof.
  intros Halive Hw. unfold on_exit.
  set (w1 := if truthy_num code then _ else _).
  assert (Hw1 : consistent w1).
  { unfold w1. destruct (truthy_num code); [apply consistent_settle_child, Hw|].
    destruct (truthy_str signal); [apply consistent_settle_child, Hw|exact Hw]. }
  assert (Hf1 : exited w1 = exited w /\ stops w1 = stops w /\
                (length (forked w) <= length (forked w1))%nat).
  { unfold w1. destruct (truthy_num code).
    - destruct (settle_child_frame p
        (Rejected (error_object ("Exited with error code " +:+ pretty (default 0 code)))) w)
        as (? & ? & _ & _ & ?). auto.
    - destruct (truthy_str signal).
      + destruct (settle_child_frame p
          (Rejected (error_object ("Aborted with signal " +:+ default "" signal))) w)
          as (? & ? & _ & _ & ?). auto.
      + repeat split. lia. }
  destruct Hf1 as (He1 & Hs1 & Hl1).
  apply andb_true_iff in Halive as [Hlt Hne].
  apply bool_decide_eq_true in Hlt. apply bool_decide_eq_true in Hne.
  destruct Hw1 as (Hc & He & Hs).
  split; [|split]; cbn.
  - intros q Hq. apply elem_of_difference in Hq as [Hq Hqp].
    apply Hc in Hq as [Hlen Hex]. split; [exact Hlen|].
    intros Hin. apply elem_of_union in Hin as [Hin|Hin]; contradiction.
  - intros q Hq. apply elem_of_union in Hq as [Hq|Hq]; [|apply He, Hq].
    apply elem_of_singleton in Hq. subst q. lia.
  - intros s Hin. apply list_elem_of_fmap in Hin as (s0 & -> & Hs0). cbn.
    destruct (Hs s0 Hs0) as [Ha Hb]. split.
    + intros q Hq. destruct (decide (q = p)) as [->|Hqp].
      * right. apply elem_of_union_l, elem_of_singleton. reflexivity.
      * destruct (Ha q Hq) as [Haw|Hex].
        -- left. apply elem_of_difference. split; [exact Haw|].
           intros Heq. apply elem_of_singleton in Heq. contradiction.
        -- right. apply elem_of_union_r, Hex.
    + intros q Hq. apply elem_of_difference in Hq as [Hq Hqp].
      destruct (Hb q Hq) as [Hl Hex]. split; [exact Hl|].
      intros Hin. apply elem_of_union in Hin as [Hin|Hin]; contradiction.
Qed.

Lemma consistent_stop w : consistent w -> consistent (stop w).
Proof.
  intros (Hc & He & Hs). unfold stop. cbn. split; [|split]; cbn.
  - exact Hc.
  - exact He.
  - intros s Hin. apply elem_of_app in Hin as [Hin|Hin]; [apply Hs, Hin|].
    apply list_elem_of_singleton in Hin. subst s. cbn. split.
    + intros p Hp. left. exact Hp.
    + intros p Hp. split; [exact Hp|]. apply Hc, Hp.
Qed.

Lemma consistent_set_funnel f w : consistent w -> consistent (set_funnel f w).
Proof. apply consistent_same_children; reflexivity. Qed.

Lemma consistent_step w e : consistent w -> consistent (step w e).
Proof.
  intros Hw. destruct e as [call|p ret|p err|p code signal| |n]; cbn.
  - unfold callFunction. destruct (Funnel.push _ _) as [started f].
    apply consistent_start_all, consistent_set_funnel, Hw.
  - destruct (is_forked p w); [|exact Hw]. apply consistent_settle_child, Hw.
  - destruct (is_forked p w); [|exact Hw].
    apply consistent_settle_child, consistent_delete_child, Hw.
  - destruct (alive p w) eqn:Ha; [|exact Hw]. apply consistent_on_exit; assumption.
  - apply consistent_stop, Hw.
  - unfold setConcurrency. destruct (Funnel.setMaxConcurrency _ _) as [started f].
    apply consistent_start_all, consistent_set_funnel, Hw.
Qed.

Lemma consistent_run events w : consistent w -> consistent (run events w).
Proof.
  revert w. induction events as [|e rest IH]; intros w Hw; cbn; [exact Hw|].
  apply IH, consistent_step, Hw.
Qed.


Lemma step_keeps_stop w e i s :
  stops w !! i = Some s ->
  exists s', stops (step w e) !! i = Some s' /\ listened s' = listened s.
Proof.
  intros Hi.
  assert (Hsame : forall w', stops w' = stops w ->
            exists s', stops w' !! i = Some s' /\ listened s' = listened s).
  { intros w' ->. eauto. }
  destruct e as [call|p ret|p err|p code signal| |n]; cbn.
  - unfold callFunction. destruct (Funnel.push _ _) as [started f].
    apply Hsame. exact (proj1 (proj2 (start_all_frame started (set_funnel f w)))).
  - destruct (is_forked p w); [|eauto]. apply Hsame.
    exact (proj1 (proj2 (settle_child_frame p (Resolved ret) w))).
  - destruct (is_forked p w); [|eauto]. apply Hsame.
    exact (proj1 (proj2 (settle_child_frame p (Rejected err) (delete_child p w)))).
  - destruct (alive p w); [|eauto]. unfold on_exit. cbn.
    set (w1 := if truthy_num code then _ else _).
    assert (Hs1 : stops w1 = stops w).
    { unfold w1. destruct (truthy_num code).
      - apply settle_child_frame.
      - destruct (truthy_str signal); [|reflexivity]. apply settle_child_frame. }
    rewrite Hs1, list_lookup_fmap, Hi. cbn. eauto.
  - unfold stop. cbn. rewrite lookup_app_l by (apply lookup_lt_Some in Hi; exact Hi).
    eauto.
  - unfold setConcurrency. destruct (Funnel.setMaxConcurrency _ _) as [started f].
    apply Hsame. exact (proj1 (proj2 (start_all_frame started (set_funnel f w)))).
Qed.

Lemma run_keeps_stop events w i s :
  stops w !! i = Some s ->
  exists s', stops (run events w) !! i = Some s' /\ listened s' = listened s.
Proof.
  revert w s. induction events as [|e rest IH]; intros w s Hi; cbn; [eauto|].
  destruct (step_keeps_stop w e i s Hi) as (s1 & Hi1 & Hl1).
  destruct (IH (step w e) s1 Hi1) as (s' & Hi' & Hl'). exists s'.
  split; [exact Hi'|congruence].
Qed.

(** A call of [stop] is resolved exactly when every child it listens on has
    exited. *)
Lemma resolved_iff_exited w s :
  consistent w -> s ∈ stops w ->
  stop_resolved s = true <-> forall p, p ∈ listened s -> p ∈ exited w.
Proof.
  intros (_ & _ & Hs) Hin. destruct (Hs s Hin) as [Ha Hb].
  unfold stop_resolved. rewrite bool_decide_eq_true. split.
  - intros Hempty p Hp. destruct (Ha p Hp) as [Haw|Hex]; [|exact Hex].
    rewrite Hempty in Haw. apply elem_of_empty in Haw. destruct Haw.
  - intros Hall. apply leibniz_equiv. intros p. split.
    + intros Hp. destruct (Hb p Hp) as [Hl Hne]. destruct Hne. apply Hall, Hl.
    + intros Hp. apply elem_of_empty in Hp. destruct Hp.
Qed.

(** C9, as amended.  [stop] first removes every not-yet-started task from the
    funnel's queue, leaving what the funnel runs as it is; it then sends a
    kill signal to every child tracked in [state.resources.childProcesses] at
    that moment, and it is resolved exactly when each of those children has
    emitted its exit event: not before, whatever else happens meanwhile. *)
Theorem stop_awaits_tracked_children (before after : list Event) :
  let w := run before initialize in
  let w1 := stop w in
  let w2 := run after w1 in
  Funnel.pendingQueue (callFunnel (state w1)) = [] /\
  cancelled w1 = cancelled w ++ Funnel.pendingQueue (callFunnel (state w)) /\
  Funnel.running (callFunnel (state w1)) = Funnel.running (callFunnel (state w)) /\
  forked w1 = forked w /\
  killed w1 = killed w ∪ childProcesses (state w) /\
  exists s,
    stops w2 !! length (stops w) = Some s /\
    listened s = childProcesses (state w) /\
    (stop_resolved s = true <->
     forall p, p ∈ childProcesses (state w) -> p ∈ exited w2).
Proof.
  cbn zeta. set (w := run before initialize).
  repeat (split; [reflexivity|]).
  assert (Hw : consistent w) by apply consistent_run, consistent_initialize.
  assert (Hi : stops (stop w) !! length (stops w)
               = Some {| listened := childProcesses (state w);
                         awaited := childProcesses (state w) |}).
  { unfold stop. cbn. rewrite lookup_app_r by lia.
    rewrite Nat.sub_diag. reflexivity. }
  destruct (run_keeps_stop after (stop w) _ _ Hi) as (s & Hs & Hl). cbn in Hl.
  exists s. split; [exact Hs|]. split; [exact Hl|].
  rewrite <- Hl. apply resolved_iff_exited.
  - apply consistent_run, consistent_stop, Hw.
  - eapply list_elem_of_lookup_2, Hs.
Qed.


Lemma stop_awaits_tracked_children_witness :
  exists s,
    stops (run both_exit (stop (run two_running initialize))) !! 0%nat = Some s /\
    stop_resolved s = true.
Proof.
  destruct (stop_awaits_tracked_children two_running both_exit)
    as (_ & _ & _ & _ & _ & s & Hs & _ & Hres).
  exists s. split; [exact Hs|]. apply Hres.
  assert (Hcp : childProcesses (state (run two_running initialize))
                = {[0%nat; 1%nat]}) by (vm_compute; reflexivity).
  intros p Hp. rewrite Hcp in Hp.
  apply elem_of_union in Hp as [Hp|Hp]; apply elem_of_singleton in Hp; subst p;
    vm_compute; reflexivity.
Defined.

(** After a child's error event, [stop] kills the child still in flight and
    is resolved at that child's exit, while the first child has not exited. *)
Lemma stop_kills_in_flight_and_skips_errored :
  let w := run send_failed initialize in
  let w' := run stop_then_exit w in
  in_flight 1%nat w = true /\
  1%nat ∈ killed w' /\
  (stop_resolved <$> stops w') = [true] /\
  length (forked w') = 2%nat /\
  0%nat ∉ exited w'.
Proof.
  cbn zeta. split; [reflexivity|]. split; [vm_compute; reflexivity|].
  split; [reflexivity|]. split; [reflexivity|].
  intros Hin. vm_compute in Hin. discriminate Hin.
Qed.

End ProcessFacts.

(* ===================================================================== *)
(** * The log buffer of the child-process backend *)
(* ===================================================================== *)
Module ProcessLogFacts.
Import ProcessLog.

Lemma log_invariant_run events :
  log_invariant (log_run events no_log) (foldl gauge_step (0, true) events).
Proof.
  induction events as [|e events IH] using rev_ind.
  - exists [], [], 0%nat. cbn. repeat split; try constructor; try lia; auto.
  - unfold log_run in *. rewrite !foldl_app. cbn [foldl].
    set (s := foldl log_step no_log events) in *.
    set (g := foldl gauge_step (0, true) events) in *.
    destruct IH as (prev & since & k & Happ & Hlen & Hlog & Hk & Hsub & Hne & Hbnd & Hok).
    destruct e as [chunk now|]; cbn [log_step gauge_step fst snd].
    + set (entry := {| message := chunk; timestamp := now |}).
      destruct (Z.ltb 5000 (Z.of_nat (length (logEntries s)))) eqn:Etrim.
      * apply Z.ltb_lt in Etrim.
        assert (Hdl : length (logEntries s) = (length since - k)%nat)
          by (rewrite Hlog, length_drop; reflexivity).
        exists prev, (since ++ [entry]), (k + 1000)%nat.
        cbn [appended logEntries yielded fst snd]. unfold appendLog.
        replace (Z.ltb 5000 (Z.of_nat (length (logEntries s)))) with true
          by (symmetry; apply Z.ltb_lt; exact Etrim).
        cbv iota.
        split; [rewrite Happ, app_assoc; reflexivity|].
        split; [rewrite length_app; cbn; lia|].
        split.
        { rewrite Hlog, drop_drop, drop_app_le by lia. reflexivity. }
        split; [rewrite length_app; cbn; lia|].
        split; [exact Hsub|]. split; [exact Hne|].
        split.
        { rewrite length_app, length_drop. cbn [length]. lia. }
        intros Hg. apply andb_true_iff in Hg as [Hg Hle].
        apply Z.leb_le in Hle. destruct (Hok Hg) as [-> _]. lia.
      * apply Z.ltb_ge in Etrim.
        exists prev, (since ++ [entry]), k.
        cbn [appended logEntries yielded fst snd]. unfold appendLog.
        replace (Z.ltb 5000 (Z.of_nat (length (logEntries s)))) with false
          by (symmetry; apply Z.ltb_ge; exact Etrim).
        cbv iota.
        split; [rewrite Happ, app_assoc; reflexivity|].
        split; [rewrite length_app; cbn; lia|].
        split.
        { rewrite Hlog, drop_app_le by lia. reflexivity. }
        split; [rewrite length_app; cbn; lia|].
        split; [exact Hsub|]. split; [exact Hne|].
        split.
        { rewrite length_app. cbn [length].
          assert (Z.of_nat (length (logEntries s)) <= Z.of_nat (length since))
            by (rewrite Hlog, length_drop; lia).
          lia. }
        intros Hg. apply andb_true_iff in Hg as [Hg _]. exact (Hok Hg).
    + exists (prev ++ since), [], 0%nat.
      cbn [appended logEntries yielded readLogs fst snd].
      split; [rewrite app_nil_r; exact Happ|].
      split; [reflexivity|]. split; [reflexivity|]. split; [cbn; lia|].
      assert (Hcat : concat (yielded s ++
                 (if Z.ltb 0 (Z.of_nat (length (logEntries s)))
                  then [logEntries s] else []))
               = concat (yielded s) ++ logEntries s).
      { rewrite concat_app.
        destruct (Z.ltb 0 (Z.of_nat (length (logEntries s)))) eqn:E0; cbn.
        - rewrite app_nil_r. reflexivity.
        - apply Z.ltb_ge in E0. destruct (logEntries s); [reflexivity|cbn in E0; lia]. }
      split.
      { rewrite Hcat. apply sublist_app; [exact Hsub|].
        rewrite Hlog. apply sublist_drop. }
      split.
      { apply Forall_app. split; [exact Hne|].
        destruct (Z.ltb 0 (Z.of_nat (length (logEntries s)))) eqn:E0; [|constructor].
        apply Z.ltb_lt in E0. constructor; [|constructor].
        intros Heq. rewrite Heq in E0. cbn in E0. lia. }
      split; [cbn; lia|].
      intros Hg. split; [reflexivity|].
      destruct (Hok Hg) as [-> Hy]. rewrite Hcat, Hlog, Hy. reflexivity.
Qed.


(** X8.  The log buffer never holds more than 5001 entries; it always is the
    newest part of everything appended, and of the chunks output since it
    was last read it holds all, or at least the newest 4002. *)
Theorem log_bounded_newest (events : list LogEvent) :
  let s := log_run events no_log in
  Z.of_nat (length (logEntries s)) <= 5001 /\
  Z.min (since_read events) 4002 <= Z.of_nat (length (logEntries s)) /\
  exists k, logEntries s = drop k (appended s).
Proof.
  destruct (log_invariant_run events)
    as (prev & since & k & Happ & Hlen & Hlog & Hk & _ & _ & Hbnd & _).
  cbn zeta. unfold since_read. split; [lia|]. split; [lia|].
  exists (length prev + k)%nat. rewrite Happ, Hlog.
  rewrite <- drop_drop, drop_app_length. reflexivity.
Qed.

(** X9.  Reading never yields an empty batch and never yields an entry twice:
    the batches yielded so far, followed by what is still in the buffer, are
    entries of the history in the order they were appended, each taken at
    most once. *)
Theorem log_yielded_once (events : list LogEvent) :
  let s := log_run events no_log in
  Forall (fun batch => batch <> []) (yielded s) /\
  sublist (concat (yielded s) ++ logEntries s) (appended s).
Proof.
  destruct (log_invariant_run events)
    as (prev & since & k & Happ & _ & Hlog & _ & Hsub & Hne & _ & _).
  cbn zeta. split; [exact Hne|].
  rewrite Happ, Hlog. apply sublist_app; [exact Hsub|apply sublist_drop].
Qed.

(** X10.  If the log is read before more than 5001 chunks pile up, nothing is
    lost: the batches yielded, followed by what is still in the buffer, are
    exactly the chunks output, in order. *)
Theorem log_lossless (events : list LogEvent) :
  read_in_time events = true ->
  let s := log_run events no_log in
  concat (yielded s) ++ logEntries s = appended s.
Proof.
  intros Hin.
  destruct (log_invariant_run events)
    as (prev & since & k & Happ & _ & Hlog & _ & _ & _ & _ & Hok).
  destruct (Hok Hin) as [-> Hy]. cbn zeta.
  rewrite Happ, Hlog, Hy. reflexivity.
Qed.

Lemma log_lossless_witness :
  let s := log_run [Output "a" 1; Output "b" 2; Read; Output "c" 3] no_log in
  concat (yielded s) ++ logEntries s
    = [mkLogEntry "a" 1; mkLogEntry "b" 2; mkLogEntry "c" 3].
Proof.
  exact (log_lossless [Output "a" 1; Output "b" 2; Read; Output "c" 3] eq_refl).
Defined.

End ProcessLogFacts.

(* ===================================================================== *)
(** * The calls and children of the child-process backend *)
(* ===================================================================== *)
Module ProcessCallFacts.
Import JS Shared Process ProcessStatements ProcessFacts.

Lemma fork_keeps w call p x :
  forked w !! p = Some x -> forked (fork w call) !! p = Some x.
Proof. intros H. unfold fork. cbn. apply lookup_app_l_Some, H. Qed.

Lemma start_all_keeps started w p x :
  forked w !! p = Some x -> forked (start_all started w) !! p = Some x.
Proof.
  revert w. induction started as [|c rest IH]; intros w H; cbn; [exact H|].
  apply IH, fork_keeps, H.
Qed.

(** Settling the promise of child [q] leaves the record of any other child,
    and of a child whose promise has already settled, as it is. *)
Lemma settle_child_keeps q outcome w p x :
  forked w !! p = Some x ->
  p <> q \/ is_Some (child_outcome x) ->
  forked (settle_child q outcome w) !! p = Some x.
Proof.
  intros Hp Hcase. unfold settle_child.
  destruct (forked w !! q) as [[call [o|]]|] eqn:Eq; try exact Hp.
  destruct (Funnel.settle _) as [started f].
  apply start_all_keeps. cbn.
  destruct (decide (p = q)) as [->|Hne].
  - destruct Hcase as [Hc|Hc]; [contradiction|].
    rewrite Eq in Hp. injection Hp as <-. cbn in Hc. destruct Hc; discriminate.
  - rewrite list_lookup_insert_ne by congruence. exact Hp.
Qed.

Lemma exited_grows w e p : p ∈ exited w -> p ∈ exited (step w e).
Proof.
  intros Hp. destruct e as [call|q ret|q err|q code signal| |n]; cbn.
  - unfold callFunction. destruct (Funnel.push _ _) as [started f].
    rewrite (proj1 (start_all_frame started (set_funnel f w))). exact Hp.
  - destruct (is_forked q w); [|exact Hp]. unfold on_message.
    rewrite (proj1 (settle_child_frame q (Resolved ret) w)). exact Hp.
  - destruct (is_forked q w); [|exact Hp]. unfold on_error.
    rewrite (proj1 (settle_child_frame q (Rejected err) (delete_child q w))). exact Hp.
  - destruct (alive q w); [|exact Hp]. unfold on_exit. cbn.
    apply elem_of_union_r.
    destruct (truthy_num code);
      [rewrite (proj1 (settle_child_frame q _ w)); exact Hp|].
    destruct (truthy_str signal);
      [rewrite (proj1 (settle_child_frame q _ w)); exact Hp|exact Hp].
  - exact Hp.
  - unfold setConcurrency. destruct (Funnel.setMaxConcurrency _ _) as [started f].
    rewrite (proj1 (start_all_frame started (set_funnel f w))). exact Hp.
Qed.

Lemma delete_child_forked q w : forked (delete_child q w) = forked w.
Proof. reflexivity. Qed.

(** The record of a child whose promise has settled is the same after any
    event, and so is the record of a child whose exit event has fired, after
    any event that is not a message or an error of that child. *)
Lemma step_keeps_record w e p x :
  forked w !! p = Some x ->
  is_Some (child_outcome x) \/
  (p ∈ exited w /\ (forall ret, e <> ChildMessage p ret) /\
   (forall err, e <> ChildError p err)) ->
  forked (step w e) !! p = Some x.
Proof.
  intros Hp Hcase.
  destruct e as [call|q ret|q err|q code signal| |n]; cbn.
  - unfold callFunction. destruct (Funnel.push _ _) as [started f].
    apply start_all_keeps. exact Hp.
  - destruct (is_forked q w); [|exact Hp].
    apply settle_child_keeps; [exact Hp|].
    destruct Hcase as [Hs|(_ & Hm & _)]; [right; exact Hs|left].
    intros ->. exact (Hm ret eq_refl).
  - destruct (is_forked q w); [|exact Hp].
    apply settle_child_keeps; [rewrite delete_child_forked; exact Hp|].
    destruct Hcase as [Hs|(_ & _ & He)]; [right; exact Hs|left].
    intros ->. exact (He err eq_refl).
  - destruct (alive q w) eqn:Ea; [|exact Hp]. unfold on_exit. cbn.
    assert (Hguard : p <> q \/ is_Some (child_outcome x)).
    { destruct Hcase as [Hs|(Hex & _)]; [right; exact Hs|left].
      intros ->. apply andb_true_iff in Ea as [_ Hne].
      apply bool_decide_eq_true in Hne. contradiction. }
    destruct (truthy_num code);
      [apply settle_child_keeps; [exact Hp|exact Hguard]|].
    destruct (truthy_str signal);
      [apply settle_child_keeps; [exact Hp|exact Hguard]|exact Hp].
  - exact Hp.
  - unfold setConcurrency. destruct (Funnel.setMaxConcurrency _ _) as [started f].
    apply start_all_keeps. exact Hp.
Qed.

Lemma run_keeps_record events w p x :
  forked w !! p = Some x ->
  is_Some (child_outcome x) \/
  (p ∈ exited w /\ (forall ret, ChildMessage p ret ∉ events) /\
   (forall err, ChildError p err ∉ events)) ->
  forked (run events w) !! p = Some x.
Proof.
  revert w. induction events as [|e rest IH]; intros w Hp Hcase; cbn; [exact Hp|].
  apply IH.
  - apply step_keeps_record; [exact Hp|].
    destruct Hcase as [Hs|(Hex & Hm & He)]; [left; exact Hs|right].
    split; [exact Hex|]. split.
    + intros ret ->. apply (Hm ret). left.
    + intros err ->. apply (He err). left.
  - destruct Hcase as [Hs|(Hex & Hm & He)]; [left; exact Hs|right].
    split; [apply exited_grows, Hex|]. split.
    + intros ret Hin. apply (Hm ret). right. exact Hin.
    + intros err Hin. apply (He err). right. exact Hin.
Qed.

(** X11.  A child that exits with no error code and no signal before it sent
    its message leaves the promise of its call pending: the exit handler
    neither resolves nor rejects it, and nothing that happens afterwards
    settles it (no call, no [stop], no change of concurrency, no event of
    another child) unless a message or an error event of that same child
    still arrives after its exit. *)
Theorem clean_exit_leaves_call_pending (later : list Event) w p call code signal :
  alive p w = true ->
  forked w !! p = Some {| child_call := call; child_outcome := None |} ->
  truthy_num code = false -> truthy_str signal = false ->
  (forall ret, ChildMessage p ret ∉ later) ->
  (forall err, ChildError p err ∉ later) ->
  forked (run later (step w (ChildExit p code signal))) !! p
    = Some {| child_call := call; child_outcome := None |}.
Proof.
  intros Ha Hp Hc Hs Hm He.
  assert (Hstep : forked (step w (ChildExit p code signal)) !! p
                  = Some {| child_call := call; child_outcome := None |} /\
                  p ∈ exited (step w (ChildExit p code signal))).
  { cbn. rewrite Ha. unfold on_exit. rewrite Hc, Hs. cbn.
    split; [exact Hp|]. apply elem_of_union_l, elem_of_singleton. reflexivity. }
  destruct Hstep as [Hf Hex].
  apply run_keeps_record; [exact Hf|right]. split; [exact Hex|]. split; assumption.
Qed.

Lemma clean_exit_leaves_call_pending_witness :
  forked (run [CallFunction call_b; ChildMessage 1%nat Examples.return_timed; Stop]
            (step (run [CallFunction call_a] initialize)
                  (ChildExit 0%nat (Some 0) None))) !! 0%nat
    = Some {| child_call := call_a; child_outcome := None |}.
Proof.
  apply (clean_exit_leaves_call_pending
           [CallFunction call_b; ChildMessage 1%nat Examples.return_timed; Stop]);
    try reflexivity.
  - intros ret Hin.
    repeat (apply elem_of_cons in Hin as [Hin|Hin]; [discriminate Hin|]).
    apply elem_of_nil in Hin. exact Hin.
  - intros err Hin.
    repeat (apply elem_of_cons in Hin as [Hin|Hin]; [discriminate Hin|]).
    apply elem_of_nil in Hin. exact Hin.
Defined.

Lemma killed_step w e : e <> Stop -> killed (step w e) = killed w.
Proof.
  intros Hne. destruct e as [call|q ret|q err|q code signal| |n]; cbn;
    try contradiction.
  - unfold callFunction. destruct (Funnel.push _ _) as [started f].
    apply (start_all_frame started (set_funnel f w)).
  - destruct (is_forked q w); [|reflexivity].
    apply (settle_child_frame q (Resolved ret) w).
  - destruct (is_forked q w); [|reflexivity].
    apply (settle_child_frame q (Rejected err) (delete_child q w)).
  - destruct (alive q w); [|reflexivity]. unfold on_exit. cbn.
    destruct (truthy_num code); [apply (settle_child_frame q _ w)|].
    destruct (truthy_str signal); [apply (settle_child_frame q _ w)|reflexivity].
  - unfold setConcurrency. destruct (Funnel.setMaxConcurrency _ _) as [started f].
    apply (start_all_frame started (set_funnel f w)).
Qed.

(** X12.  No child is ever sent a kill signal except by [stop]: calls, messages,
    errors, exits and changes of concurrency kill nothing. *)
Theorem kill_only_in_stop (events : list Event) w :
  Stop ∉ events -> killed (run events w) = killed w.
Proof.
  unfold run. revert w.
  induction events as [|e rest IH]; intros w Hno; cbn [foldl]; [reflexivity|].
  rewrite IH by (intros Hin; apply Hno; right; exact Hin).
  apply killed_step. intros ->. apply Hno. left.
Qed.

Lemma kill_only_in_stop_witness :
  killed (run [CallFunction call_a; CallFunction call_b;
               ChildExit 0%nat (Some 1) None; SetConcurrency 1]
            initialize) = ∅.
Proof.
  apply (kill_only_in_stop
           [CallFunction call_a; CallFunction call_b;
            ChildExit 0%nat (Some 1) None; SetConcurrency 1] initialize).
  intros Hin. repeat (apply elem_of_cons in Hin as [Hin|Hin]; [discriminate Hin|]).
  apply elem_of_nil in Hin. exact Hin.
Defined.

(** X13.  Every child in [state.resources.childProcesses] was forked by this
    instance and has not emitted its exit event: a child that exited is
    never tracked again. *)
Theorem tracked_children_not_exited (events : list Event) p :
  p ∈ childProcesses (state (run events initialize)) ->
  (p < length (forked (run events initialize)))%nat /\
  p ∉ exited (run events initialize).
Proof.
  intros Hp.
  destruct (consistent_run events initialize consistent_initialize) as (Hc & _).
  apply Hc, Hp.
Qed.

Lemma tracked_children_not_exited_witness :
  1%nat ∉ exited (run [CallFunction call_a; CallFunction call_b;
                       ChildExit 0%nat (Some 1) None] initialize).
Proof.
  apply (tracked_children_not_exited
           [CallFunction call_a; CallFunction call_b; ChildExit 0%nat (Some 1) None]
           1%nat).
  vm_compute. reflexivity.
Defined.

End ProcessCallFacts.

(* ===================================================================== *)
(** * More on the facade *)
(* ===================================================================== *)
Module FacadeFacts.
Import JS Shared Cloudify Statements Examples CloudifyFacts FacadeStatements.

(** X1.  Whatever the remote clock says, the three latencies of a Response add
    up to the time from the Call's start to the processing of its Return,
    both read off the local clock. *)
Theorem latencies_add_up returned callRequest w :
  well_formed returned -> timed returned = true ->
  exists rv w' s e r,
    processResponse returned callRequest w = (Normal rv, w') /\
    startLatency rv = Some s /\ executionLatency rv = Some e /\
    returnLatency rv = Some r /\
    s + e + r = clock w (ticks w) - call_start callRequest.
Proof.
  intros Hwf Ht. eexists _, _, _, _, _.
  split; [apply processResponse_run, Hwf|].
  rewrite Ht. cbn. repeat (split; [reflexivity|]). lia.
Qed.

Lemma latencies_add_up_witness :
  exists rv w' s e r,
    processResponse return_timed call1000 world0 = (Normal rv, w') /\
    startLatency rv = Some s /\ executionLatency rv = Some e /\
    returnLatency rv = Some r /\ s + e + r = 250.
Proof.
  apply (latencies_add_up return_timed call1000 world0); [discriminate|reflexivity].
Defined.

(** X2.  When the backend's promise settles with an error that carries no error
    value (a Return of type "error" whose value is [undefined] or [null], or
    a rejection with such a reason), the invocation throws a TypeError and
    the ledger is left exactly as it was: the call, though handed to the
    backend, is counted neither as completed nor as an error. *)
Theorem valueless_error_not_counted {State} (impl : CloudFunctionImpl State)
    state fn args w :
  processable (callFunction impl state (call_built fn args w)) = false ->
  fst (cloudifyWithResponse impl state fn args w) = Throw ExnTypeError /\
  functionMetrics (snd (cloudifyWithResponse impl state fn args w))
    = functionMetrics w /\
  submitted (snd (cloudifyWithResponse impl state fn args w))
    = submitted w ++ [call_built fn args w].
Proof.
  intros Hp. rewrite cloudifyWithResponse_unfold.
  destruct (callFunction impl state _) as [returned|reason]; cbn in Hp.
  - apply negb_false_iff, andb_true_iff in Hp as [He Hn].
    rewrite (processResponse_throws _ _ _ He Hn). repeat split.
  - apply negb_false_iff in Hp.
    rewrite (processResponse_throws (synthesized reason fn args w) _ _ eq_refl Hp).
    repeat split.
Qed.

Lemma valueless_error_not_counted_witness :
  fst (cloudifyWithResponse (backend_rejecting VNull) tt hello [] world0)
    = Throw ExnTypeError /\
  functionMetrics (snd (cloudifyWithResponse (backend_rejecting VNull) tt hello []
                          world0)) = ∅.
Proof.
  destruct (valueless_error_not_counted (backend_rejecting VNull) tt hello [] world0
              eq_refl) as (Ht & Hm & _).
  split; [exact Ht|exact Hm].
Defined.

(** X3.  A failure of the transport is accounted for like a remote error.  When
    the backend's promise is rejected with an error object and the clock
    does not read 0, the Response has the rebuilt error, the value [false], a
    startLatency of 0, the time from the Call's start to the catch as
    executionLatency and the time from the catch to the processing as
    returnLatency; the ledger counts the call as completed and as an error
    and merges the three latencies. *)
Theorem transport_failure_accounted {State} (impl : CloudFunctionImpl State)
    state fn args w reason :
  callFunction impl state (call_built fn args w) = Rejected reason ->
  nullish reason = false ->
  clock w (ticks w) <> 0 -> clock w (S (ticks w)) <> 0 ->
  let t0 := clock w (ticks w) in
  let t1 := clock w (S (ticks w)) in
  let t2 := clock w (S (S (ticks w))) in
  exists w',
    cloudifyWithResponse impl state fn args w
      = (Normal {| value := VBool false; error := Some (rebuilt reason);
                   rawResponse := VUndefined;
                   startLatency := Some 0;
                   executionLatency := Some (t1 - t0);
                   returnLatency := Some (t2 - t1) |}, w') /\
    let before := metrics_of (fn_name fn) (functionMetrics w) in
    let after := metrics_of (fn_name fn) (functionMetrics w') in
    completedCount after = (completedCount before + 1)%N /\
    errorCount after = (errorCount before + 1)%N /\
    startLatencyAvg after = merge_sample 0 (startLatencyAvg before) /\
    executionLatencyAvg after = merge_sample (t1 - t0) (executionLatencyAvg before) /\
    returnLatencyAvg after = merge_sample (t2 - t1) (returnLatencyAvg before).
Proof.
  intros Hcall Hn H0 H1. cbn zeta.
  rewrite cloudifyWithResponse_unfold, Hcall.
  assert (Hwf : well_formed (synthesized reason fn args w)) by (intros _; exact Hn).
  assert (Ht : timed (synthesized reason fn args w) = true).
  { unfold timed. cbn. apply andb_true_iff.
    split; apply negb_true_iff, Z.eqb_neq; assumption. }
  rewrite (processResponse_run _ _ _ Hwf), Ht.
  assert (Hl : latencies_at (synthesized reason fn args w) (call_built fn args w)
                 (clock (tick (after_submit fn args w))
                    (ticks (tick (after_submit fn args w))))
               = {| lat_execution := clock w (S (ticks w)) - clock w (ticks w);
                    lat_start := 0;
                    lat_return := clock w (S (S (ticks w))) - clock w (S (ticks w)) |}).
  { unfold latencies_at. cbn -[Z.sub]. f_equal. lia. }
  rewrite Hl. eexists. split; [reflexivity|].
  cbn [functionMetrics call_built call_name].
  rewrite metrics_of_ledger_after, Ht. repeat split.
Qed.

Lemma transport_failure_accounted_witness :
  exists w',
    cloudifyWithResponse (backend_rejecting validation_error) tt hello [] world0
      = (Normal {| value := VBool false; error := Some (rebuilt validation_error);
                   rawResponse := VUndefined;
                   startLatency := Some 0;
                   executionLatency := Some 1;
                   returnLatency := Some 1 |}, w') /\
    completed_of "hello" w' = 1%N /\ errors_of "hello" w' = 1%N.
Proof.
  destruct (transport_failure_accounted (backend_rejecting validation_error) tt
              hello [] world0 validation_error) as (w' & Hrun & Hc & He & _);
    [reflexivity | reflexivity | discriminate | discriminate |].
  exists w'. split; [exact Hrun|]. split; [exact Hc|exact He].
Defined.


(** What one turn adds to the counters of function [fn]. *)
Lemma turn_counts {State} (impl : CloudFunctionImpl State) state w t fn :
  completed_of fn (turn impl state w t)
    = (completed_of fn w + N_of_bool (processed fn t))%N /\
  errors_of fn (turn impl state w t)
    = (errors_of fn w + N_of_bool (processed_failure fn t))%N.
Proof.
  unfold completed_of, errors_of.
  destruct t as [f args|callRequest p]; cbn [turn processed processed_failure].
  - rewrite submit_call_run. cbn. lia.
  - rewrite respond_run. destruct p as [returned|reason]; cbn [processable failure].
    + destruct (well_formed_dec returned) as [Hwf|[He Hn]].
      * rewrite (processResponse_run _ _ _ Hwf). cbn [snd functionMetrics].
        assert (Hp : negb (is_error returned && nullish (ret_value returned)) = true).
        { unfold well_formed in Hwf. destruct (is_error returned); [|reflexivity].
          rewrite (Hwf eq_refl). reflexivity. }
        rewrite Hp.
        destruct (String.eqb_spec (call_name callRequest) fn) as [->|Hne].
        -- rewrite metrics_of_ledger_after.
           destruct (is_error returned), (timed returned); cbn; lia.
        -- unfold metrics_of. rewrite (ledger_after_other _ _ _ _ _ Hne). cbn. lia.
      * rewrite (processResponse_throws _ _ _ He Hn), He, Hn. cbn.
        rewrite !andb_false_r. cbn. lia.
    + match goal with |- context [processResponse ?r _ _] => set (synth := r) end.
      destruct (nullish reason) eqn:Hn.
      * rewrite (processResponse_throws synth _ _ eq_refl Hn). cbn.
        rewrite !andb_false_r. cbn. lia.
      * assert (Hwf : well_formed synth) by (intros _; exact Hn).
        rewrite (processResponse_run _ _ _ Hwf). cbn [snd functionMetrics negb].
        destruct (String.eqb_spec (call_name callRequest) fn) as [->|Hne].
        -- rewrite metrics_of_ledger_after.
           change (is_error synth) with true.
           destruct (timed synth); cbn; lia.
        -- unfold metrics_of. rewrite (ledger_after_other _ _ _ _ _ Hne). cbn. lia.
Qed.

Lemma count_cons f t turns :
  count f (t :: turns) = (N_of_bool (f t) + count f turns)%N.
Proof. unfold count. cbn. destruct (f t); cbn; lia. Qed.

(** X4.  Over any series of turns, the completed counter of a function grows by
    the number of its calls that were processed, and its errors counter by
    the number of those that had failed; a call whose error carries no error
    value counts for neither. *)
Theorem ledger_counts_processed_calls {State} (impl : CloudFunctionImpl State)
    state turns w fn :
  completed_of fn (lifetime impl state turns w)
    = (completed_of fn w + count (processed fn) turns)%N /\
  errors_of fn (lifetime impl state turns w)
    = (errors_of fn w + count (processed_failure fn) turns)%N.
Proof.
  unfold lifetime. revert w.
  induction turns as [|t rest IH]; intros w; cbn [foldl].
  - unfold count. cbn. lia.
  - destruct (IH (turn impl state w t)) as [Hc He].
    destruct (turn_counts impl state w t fn) as [Hc1 He1].
    rewrite !count_cons. lia.
Qed.

Lemma respond_sound callRequest p w :
  ledger_sound (functionMetrics w) ->
  ledger_sound (functionMetrics (snd (respond callRequest p w))).
Proof.
  intros Hs.
  assert (Hkey : forall returned w0,
             functionMetrics w0 = functionMetrics w ->
             ledger_sound (functionMetrics (snd (processResponse returned callRequest w0)))).
  { intros returned w0 Hw0.
    destruct (well_formed_dec returned) as [Hwf|[He Hn]].
    - rewrite (processResponse_run _ _ _ Hwf). cbn [snd functionMetrics].
      rewrite Hw0. intros g. cbn zeta.
      destruct (decide (call_name callRequest = g)) as [<-|Hne].
      + rewrite metrics_of_ledger_after.
        destruct (Hs (call_name callRequest)) as (H1 & H2 & H3 & H4).
        destruct (is_error returned), (timed returned); cbn;
          rewrite ?H3, ?H4; repeat split; lia.
      + unfold metrics_of. rewrite (ledger_after_other _ _ _ _ _ Hne). apply Hs.
    - rewrite (processResponse_throws _ _ _ He Hn). cbn. rewrite Hw0. exact Hs. }
  rewrite respond_run. destruct p as [returned|reason]; apply Hkey; reflexivity.
Qed.

(** X5.  The ledger stays sound over any series of turns: no function ever has
    more errors than completed calls or more latency samples than completed
    calls, and its three running averages have merged the same number of
    samples. *)
Theorem ledger_stays_sound {State} (impl : CloudFunctionImpl State) state turns w :
  ledger_sound (functionMetrics w) ->
  ledger_sound (functionMetrics (lifetime impl state turns w)).
Proof.
  unfold lifetime. revert w.
  induction turns as [|t rest IH]; intros w Hs; cbn [foldl]; [exact Hs|].
  apply IH. destruct t as [f args|callRequest p]; cbn [turn].
  - rewrite submit_call_run. exact Hs.
  - apply respond_sound, Hs.
Qed.

Lemma ledger_stays_sound_witness :
  ledger_sound (functionMetrics (lifetime (backend_resolving return_timed) tt
                                   overlapping world0)).
Proof.
  apply (ledger_stays_sound (backend_resolving return_timed) tt overlapping world0).
  intros g. unfold metrics_of. cbn [functionMetrics world0].
  rewrite lookup_empty. cbn. repeat split; lia.
Defined.

(** X6.  A remote error value that is not an object (a thrown string, number,
    boolean or array) loses its content on the way: the error rebuilt from it
    has an empty message and neither name nor stack. *)
Theorem primitive_error_loses_content returned callRequest w :
  is_error returned = true -> primitive (ret_value returned) = true ->
  exists rv w',
    processResponse returned callRequest w = (Normal rv, w') /\
    error rv = Some {| JS.message := ""; name := VUndefined; stack := VUndefined |} /\
    value rv = VBool false.
Proof.
  intros He Hp.
  assert (Hwf : well_formed returned).
  { intros _. destruct (ret_value returned); try discriminate; reflexivity. }
  eexists _, _. split; [apply processResponse_run, Hwf|].
  rewrite He.
  assert (Hr : rebuilt (ret_value returned)
               = {| JS.message := ""; name := VUndefined; stack := VUndefined |}).
  { destruct (ret_value returned); try discriminate; reflexivity. }
  rewrite Hr. destruct (timed returned); split; reflexivity.
Qed.

Lemma primitive_error_loses_content_witness :
  exists rv w',
    processResponse
      {| ret_type := "error"; ret_value := VStr "disk full"; ret_CallId := "c1";
         ret_rawResponse := VNull; executionStart := None; executionEnd := None |}
      call1000 world0 = (Normal rv, w') /\
    error rv = Some {| JS.message := ""; name := VUndefined; stack := VUndefined |} /\
    value rv = VBool false.
Proof.
  apply (primitive_error_loses_content
           {| ret_type := "error"; ret_value := VStr "disk full"; ret_CallId := "c1";
              ret_rawResponse := VNull; executionStart := None; executionEnd := None |}
           call1000 world0); reflexivity.
Defined.

(** X7.  The proxy of [cloudify] returns a value exactly when the backend
    resolved with a Return that is not an error, and then returns that
    Return's value; in every case it leaves the world (clock, identifiers,
    ledger, calls handed over) as the proxy of [cloudifyWithResponse]
    does. *)
Theorem cloudify_returns_remote_value {State} (impl : CloudFunctionImpl State)
    state fn args w :
  snd (cloudify impl state fn args w) = snd (cloudifyWithResponse impl state fn args w) /\
  forall v,
    fst (cloudify impl state fn args w) = Normal v <->
    exists returned,
      callFunction impl state (call_built fn args w) = Resolved returned /\
      is_error returned = false /\ ret_value returned = v.
Proof.
  split.
  - unfold cloudify, mbind, SE_bind.
    destruct (cloudifyWithResponse impl state fn args w) as [[rv|e] w'];
      [|reflexivity].
    destruct (error rv); reflexivity.
  - intros v. unfold cloudify, mbind, SE_bind.
    rewrite cloudifyWithResponse_unfold.
    destruct (callFunction impl state _) as [returned|reason].
    + destruct (well_formed_dec returned) as [Hwf|[He Hn]].
      * rewrite (processResponse_run _ _ _ Hwf).
        destruct (is_error returned) eqn:He, (timed returned); cbn; split.
        all: try (intros H; discriminate H).
        all: try (intros (r & [= <-] & Hne & _); congruence).
        all: try (intros [= <-]; exists returned; auto).
        all: intros (r & [= <-] & _ & <-); reflexivity.
      * rewrite (processResponse_throws _ _ _ He Hn). cbn. split.
        -- intros H; discriminate H.
        -- intros (r & [= <-] & Hne & _). congruence.
    + split.
      * intros H. exfalso.
        match type of H with context [processResponse ?r ?c ?w0] =>
          destruct (well_formed_dec r) as [Hwf|[He Hn]];
          [rewrite (processResponse_run r c w0 Hwf) in H
          |rewrite (processResponse_throws r c w0 He Hn) in H] end.
        -- cbn in H. destruct (timed _); discriminate H.
        -- discriminate H.
      * intros (r & Hr & _). discriminate Hr.
Qed.

End FacadeFacts.

(* ===================================================================== *)
(** * More on the AWS direct path and the teardown *)
(* ===================================================================== *)
Module AwsTraceFacts.
Import JS Aws AwsStatements AwsSim AwsFacts AwsTraceStatements.
Import Statements CloudifyFacts.

Section WithPlatform.
Context {Cloud : Type} (platform : Platform Cloud).

(** X14.  Each invocation of the direct proxy sends exactly one request, the
    invocation of the deployed function with the serialized call as payload
    and the log tail asked for, whether it then returns or throws: nothing is
    retried. *)
Theorem direct_sends_one_request state fn args w :
  let result := Aws.cloudifyWithResponse platform state fn args w in
  let request := request_of platform state fn args in
  issued (snd result) = issued w ++ [existT _ (Lambda_invoke request)] /\
  req_FunctionName request = FunctionName state /\
  req_LogType request = "Tail" /\
  req_Payload request = JSON_stringify platform (callArgs fn args) /\
  cloud (snd result) = snd (serve platform _ (Lambda_invoke request) (cloud w)).
Proof.
  cbn zeta. unfold Aws.cloudifyWithResponse, promise, mbind, SE_bind.
  fold (request_of platform state fn args).
  destruct (serve platform _ _ (cloud w)) as [[raw|reason] c]; cbn;
    [|repeat split].
  destruct (truthy_str (FunctionError raw)); cbn; [repeat split|].
  destruct (truthy_str (Payload raw)) eqn:Hp; cbn.
  - destruct (JSON_parse platform _) as [returned|]; cbn; [|repeat split].
    destruct (truthy returned); cbn; [|repeat split].
    destruct (strict_eq_str _ "error"); cbn; [|repeat split].
    destruct (rebuildError _); cbn; repeat split.
  - assert (Hf : truthy (opt_str (Payload raw)) = false)
      by (destruct (Payload raw); exact Hp).
    rewrite Hf. cbn. repeat split.
Qed.

(** X15.  The direct proxy throws in three situations and no other: the
    invocation request is rejected (the reason is thrown as it is); no
    FunctionError is reported and the payload is not JSON (a SyntaxError); the
    payload is the JSON of an error Return without an error value (a
    TypeError).  Otherwise it returns a Response. *)
Theorem direct_throws_exactly state fn args w :
  let outcome :=
    fst (serve platform _ (Lambda_invoke (request_of platform state fn args)) (cloud w)) in
  match direct_failure platform outcome with
  | Some f => fst (Aws.cloudifyWithResponse platform state fn args w) = Throw (thrown f)
  | None => exists rv, fst (Aws.cloudifyWithResponse platform state fn args w) = Normal rv
  end.
Proof.
  cbn zeta. unfold Aws.cloudifyWithResponse, promise, mbind, SE_bind.
  fold (request_of platform state fn args).
  destruct (serve platform _ _ (cloud w)) as [[raw|reason] c]; cbn; [|reflexivity].
  destruct (truthy_str (FunctionError raw)); cbn; [eauto|].
  destruct (truthy_str (Payload raw)) eqn:Hp; cbn.
  - destruct (JSON_parse platform _) as [returned|]; cbn; [|reflexivity].
    unfold getd.
    destruct (truthy returned) eqn:Ht; cbn; [|eauto].
    destruct (strict_eq_str _ "error"); cbn; [|eauto].
    destruct (nullish (default VUndefined (get returned "value"))) eqn:Hn; cbn.
    + rewrite (rebuildError_nullish _ Hn). reflexivity.
    + rewrite (rebuildError_object _ Hn). cbn. eauto.
  - assert (Hf : truthy (opt_str (Payload raw)) = false)
      by (destruct (Payload raw); exact Hp).
    rewrite Hf. cbn. eauto.
Qed.

(** X16.  When Lambda reports a FunctionError, the payload is not parsed: the
    Response's error has the payload text as its message, the name "Error"
    and a local stack, whatever the payload holds, and its value is
    [false]. *)
Theorem function_error_keeps_payload_text state fn args w raw c :
  serve platform _ (Lambda_invoke (request_of platform state fn args)) (cloud w)
    = (Resolved raw, c) ->
  truthy_str (FunctionError raw) = true ->
  fst (Aws.cloudifyWithResponse platform state fn args w)
    = Normal {| Cloudify.value := VBool false;
                Cloudify.error :=
                  Some {| message := Error_message (opt_str (Payload raw));
                          name := VStr "Error";
                          stack := VStr (local_stack platform) |};
                Cloudify.rawResponse := raw;
                Cloudify.startLatency := None;
                Cloudify.executionLatency := None;
                Cloudify.returnLatency := None |}.
Proof.
  intros Hs Hfe. unfold Aws.cloudifyWithResponse, promise, mbind, SE_bind.
  fold (request_of platform state fn args). rewrite Hs. cbn. rewrite Hfe.
  reflexivity.
Qed.

Lemma detach_all_run RoleName (policies : list AttachedPolicy) w :
  exists ys w',
    Promise_all_map
      (fun policy => carefully platform (IAM_detachRolePolicy RoleName (PolicyArn policy)))
      policies w = (Normal ys, w') /\
    issued w' = issued w ++ map (detach_request RoleName) policies.
Proof.
  revert w. induction policies as [|p rest IH]; intros w; cbn [Promise_all_map].
  - exists [], w. split; [reflexivity|]. cbn. rewrite app_nil_r. reflexivity.
  - unfold mbind, SE_bind. rewrite carefully_run.
    destruct (serve platform _ _ (cloud w)) as [[reply|err] c].
    + match goal with |- context [Promise_all_map _ rest ?w1] =>
        destruct (IH w1) as (ys & w' & Hrun & Hiss) end.
      rewrite Hrun. eexists _, _. split; [reflexivity|].
      rewrite Hiss. cbn. rewrite <- app_assoc. reflexivity.
    + match goal with |- context [Promise_all_map _ rest ?w1] =>
        destruct (IH w1) as (ys & w' & Hrun & Hiss) end.
      rewrite Hrun. eexists _, _. split; [reflexivity|].
      rewrite Hiss. cbn. rewrite <- app_assoc. reflexivity.
Qed.

Lemma deleteRole_trace RoleName noCreateLogGroupPolicy w :
  exists w',
    deleteRole platform RoleName noCreateLogGroupPolicy w = (Normal tt, w') /\
    issued w' = issued w ++
      deleteRole_requests RoleName noCreateLogGroupPolicy
        (fst (serve platform _ (IAM_listAttachedRolePolicies RoleName) (cloud w))).
Proof.
  unfold deleteRole, deleteRole_requests, mbind, SE_bind.
  rewrite carefully_run.
  destruct (serve platform _ (IAM_listAttachedRolePolicies RoleName) (cloud w))
    as [[reply|err] c]; cbn [fst listed].
  - unfold try_catch.
    match goal with |- context [Promise_all_map _ ?ps ?w1] =>
      destruct (detach_all_run RoleName ps w1) as (ys & w2 & Hrun & Hiss) end.
    unfold mbind, SE_bind. rewrite Hrun. cbn [mret SE_ret].
    destruct (truthy_str noCreateLogGroupPolicy).
    + rewrite carefully_run.
      destruct (serve platform _ (IAM_deleteRolePolicy _ _) (cloud w2)) as [[r1|e1] c1];
        cbn; rewrite carefully_run;
        match goal with |- context [serve platform _ (IAM_deleteRole _) ?c0] =>
          destruct (serve platform _ (IAM_deleteRole RoleName) c0) as [[r2|e2] c2] end;
        cbn; eexists; (split; [reflexivity|]); cbn; rewrite Hiss; cbn;
        rewrite <- !app_assoc; reflexivity.
    + cbn. rewrite carefully_run.
      destruct (serve platform _ (IAM_deleteRole RoleName) (cloud w2)) as [[r2|e2] c2];
        cbn; eexists; (split; [reflexivity|]); cbn; rewrite Hiss; cbn;
        rewrite <- !app_assoc; reflexivity.
  - unfold try_catch. cbn.
    destruct (truthy_str noCreateLogGroupPolicy).
    + rewrite carefully_run. cbn.
      destruct (serve platform _ (IAM_deleteRolePolicy _ _) c) as [[r1|e1] c1];
        cbn; rewrite carefully_run; cbn;
        match goal with |- context [serve platform _ (IAM_deleteRole _) ?c0] =>
          destruct (serve platform _ (IAM_deleteRole RoleName) c0) as [[r2|e2] c2] end;
        cbn; eexists; (split; [reflexivity|]); cbn;
        rewrite <- !app_assoc; reflexivity.
    + cbn. rewrite carefully_run. cbn.
      destruct (serve platform _ (IAM_deleteRole RoleName) c) as [[r2|e2] c2];
        cbn; eexists; (split; [reflexivity|]); cbn;
        rewrite <- !app_assoc; reflexivity.
Qed.


(** X17.  [deleteRole] lists the policies attached to the role, detaches every
    policy the listing returned, in the order listed, then deletes the inline
    policy if one is named, and only then attempts to delete the role; if the
    listing fails it detaches nothing and goes on.  It sends no other
    request and never throws. *)
Theorem deleteRole_detaches_listed RoleName noCreateLogGroupPolicy w :
  exists w',
    deleteRole platform RoleName noCreateLogGroupPolicy w = (Normal tt, w') /\
    issued w' = issued w ++
      deleteRole_requests RoleName noCreateLogGroupPolicy
        (fst (serve platform _ (IAM_listAttachedRolePolicies RoleName) (cloud w))).
Proof. apply deleteRole_trace. Qed.

Lemma cleanup_trace state w :
  exists w',
    cleanup platform state w = (Normal tt, w') /\
    issued w' = issued w ++ cleanup_requests platform state (cloud w).
Proof.
  unfold cleanup, cleanup_requests. fold (owns_role state).
  destruct (truthy_str (p_FunctionName state)), (owns_role state),
    (truthy_str (p_logGroupName state));
    unfold mbind, SE_bind; cbn [log mret SE_ret];
    repeat first
      [ rewrite carefully_run
      | progress cbn [mret SE_ret cloud issued logged]
      | match goal with
        | |- context [deleteRole platform ?r ?p ?w0] =>
            let w2 := fresh "w" in
            let Hrun := fresh "Hrun" in
            let Hiss := fresh "Hiss" in
            destruct (deleteRole_trace r p w0) as (w2 & Hrun & Hiss);
            rewrite Hrun; cbn [cloud issued logged] in Hiss
        | |- context [serve platform unit ?rq ?c] =>
            destruct (serve platform unit rq c) as [[? | ?] ?];
            cbn [fst snd cloud issued logged] in *
        end ];
    eexists; (split; [reflexivity|]); cbn [issued];
    rewrite ?app_nil_r, <- ?app_assoc; try reflexivity.
  all: try (match goal with H : issued _ = _ |- _ => rewrite H end;
            rewrite <- ?app_assoc; reflexivity).
Qed.

(** X18.  [cleanup] never throws and sends its requests in a fixed order: the
    deletion of the function if one is named, then the teardown of the role
    if the state names one and marks it as needing cleanup, then the deletion
    of the log group if one is named; each is attempted whether or not the
    ones before it succeeded. *)
Theorem cleanup_requests_in_order state w :
  exists w',
    cleanup platform state w = (Normal tt, w') /\
    issued w' = issued w ++ cleanup_requests platform state (cloud w).
Proof. apply cleanup_trace. Qed.

Lemma cleanup_no_iam state w :
  owns_role state = false ->
  List.filter to_iam (issued (snd (cleanup platform state w)))
  = List.filter to_iam (issued w).
Proof.
  intros Hown. destruct (cleanup_trace state w) as (w' & Hrun & Hiss).
  rewrite Hrun. cbn [snd]. rewrite Hiss. unfold cleanup_requests. rewrite Hown.
  rewrite List.filter_app.
  destruct (truthy_str (p_FunctionName state)), (truthy_str (p_logGroupName state));
    cbn; rewrite ?app_nil_r; reflexivity.
Qed.

(** X19.  Unless the state names a role and marks it with [roleNeedsCleanup],
    [cleanup] sends no request to IAM: a role the caller supplied, its
    attached policies and the inline policy that initialization put on it all
    stay. *)
Theorem cleanup_spares_foreign_role state w :
  owns_role state = false ->
  List.filter to_iam (issued (snd (cleanup platform state w)))
  = List.filter to_iam (issued w).
Proof. apply cleanup_no_iam. Qed.

End WithPlatform.

Lemma function_error_keeps_payload_text_witness :
  fst (Aws.cloudifyWithResponse
         (invoking (Resolved {| FunctionError := Some "Unhandled";
                                LogResult := None;
                                Payload := Some "<error>" |}))
         deployed Examples.hello [] idle)
  = Normal {| Cloudify.value := VBool false;
              Cloudify.error :=
                Some {| message := "<error>"; name := VStr "Error";
                        stack := VStr "Error at local.js:1" |};
              Cloudify.rawResponse :=
                {| FunctionError := Some "Unhandled"; LogResult := None;
                   Payload := Some "<error>" |};
              Cloudify.startLatency := None;
              Cloudify.executionLatency := None;
              Cloudify.returnLatency := None |}.
Proof.
  exact (function_error_keeps_payload_text
           (invoking (Resolved {| FunctionError := Some "Unhandled";
                                  LogResult := None;
                                  Payload := Some "<error>" |}))
           deployed Examples.hello [] idle _ tt eq_refl eq_refl).
Defined.

Lemma cleanup_spares_foreign_role_witness :
  owns_role borrowed_role = false /\
  List.filter to_iam (issued (snd (cleanup sim borrowed_role (start_world account)))) = [].
Proof.
  split; [reflexivity|].
  exact (cleanup_spares_foreign_role sim borrowed_role (start_world account) eq_refl).
Defined.

End AwsTraceFacts.

(* ===================================================================== *)
(** * aws-cloudify.ts: [zipStreamToBuffer] and [initialize] *)
(* ===================================================================== *)
Module AwsInitFacts.
Import JS AwsInit AwsInitStatements.

(** ** The archive *)

Lemma listen_settled c e reply :
  promised c = Some reply -> promised (listen c e) = Some reply.
Proof. intros H. destruct e; cbn; rewrite ?H; reflexivity. Qed.

Lemma foldl_listen_settled events c reply :
  promised c = Some reply -> promised (foldl listen c events) = Some reply.
Proof.
  revert c. induction events as [|e events IH]; intros c H; cbn; [exact H|].
  apply IH, listen_settled, H.
Qed.

Lemma foldl_listen_data chunks c :
  foldl listen c (map OnData chunks)
  = {| buffers := buffers c ++ chunks; promised := promised c |}.
Proof.
  revert c. induction chunks as [|d chunks IH]; intros c; cbn.
  - rewrite app_nil_r. destruct c; reflexivity.
  - rewrite IH. cbn. rewrite <- app_assoc. reflexivity.
Qed.

Lemma events_split (events : list StreamEvent) :
  exists chunks rest,
    events = map OnData chunks ++ rest /\
    match rest with
    | OnData _ :: _ => False
    | _ => True
    end.
Proof.
  induction events as [|e events (chunks & rest & -> & Hrest)].
  - exists [], []. split; [reflexivity|exact I].
  - destruct e as [d| |reason].
    + exists (d :: chunks), rest. split; [reflexivity|exact Hrest].
    + exists [], (OnEnd :: map OnData chunks ++ rest). split; [reflexivity|exact I].
    + exists [], (OnError reason :: map OnData chunks ++ rest).
      split; [reflexivity|exact I].
Qed.

(** X20.  [zipStreamToBuffer] settles at the first end or error of the stream and
    ignores whatever the stream emits afterwards: after chunks only, an end
    resolves it with the chunks concatenated in the order received, an error
    rejects it with the error's reason, and a stream that emits neither
    leaves the promise pending for ever. *)
Theorem zipStreamToBuffer_first_end_or_error chunks later reason :
  zipStreamToBuffer (map OnData chunks) = None /\
  zipStreamToBuffer (map OnData chunks ++ OnEnd :: later)
    = Some (Resolved (concat chunks)) /\
  zipStreamToBuffer (map OnData chunks ++ OnError reason :: later)
    = Some (Rejected reason).
Proof.
  unfold zipStreamToBuffer. repeat split.
  - rewrite foldl_listen_data. reflexivity.
  - rewrite foldl_app, foldl_listen_data. cbn [foldl].
    apply foldl_listen_settled. reflexivity.
  - rewrite foldl_app, foldl_listen_data. cbn [foldl].
    apply foldl_listen_settled. reflexivity.
Qed.

Section WithPlatform.
Context {Cloud : Type} (platform : Platform Cloud).

(** ** The steps *)

Lemma since_refl (w : World Cloud) : since w w [] [].
Proof. split; rewrite app_nil_r; reflexivity. Qed.

Lemma since_trans (w w1 w2 : World Cloud) h1 z1 h2 z2 :
  since w w1 h1 z1 -> since w1 w2 h2 z2 -> since w w2 (h1 ++ h2) (z1 ++ z2).
Proof.
  intros [Hi1 Hs1] [Hi2 Hs2]. split.
  - rewrite Hi2, Hi1, <- app_assoc. reflexivity.
  - rewrite Hs2, Hs1, <- app_assoc. reflexivity.
Qed.

Lemma init_quietly_run region T (arg : Request T) (w : World Cloud) :
  exists ok w',
    quietly platform region arg w = (Returned ok, w') /\
    since w w' [exchange arg (bool_decide (is_Some ok))] [].
Proof.
  unfold quietly, promise, mbind, Async_bind.
  destruct (serve platform region T arg (cloud w)) as [[reply|err] c]; cbn;
    eexists _, _; (split; [reflexivity|]); split; cbn; rewrite ?app_nil_r; reflexivity.
Qed.

Lemma init_carefully_run region T (arg : Request T) (w : World Cloud) :
  exists ok w',
    carefully platform region arg w = (Returned ok, w') /\
    since w w' [exchange arg (bool_decide (is_Some ok))] [].
Proof.
  unfold carefully, promise, mbind, Async_bind.
  destruct (serve platform region T arg (cloud w)) as [[reply|err] c]; cbn;
    eexists _, _; (split; [reflexivity|]); split; cbn; rewrite ?app_nil_r; reflexivity.
Qed.

Lemma init_log_run entry (w : World Cloud) :
  exists w', log entry w = (Returned tt, w') /\ since w w' [] [].
Proof.
  eexists. split; [reflexivity|]. split; cbn; rewrite app_nil_r; reflexivity.
Qed.

Lemma init_sleep_run ms (w : World Cloud) :
  exists w', sleep ms w = (Returned tt, w') /\ since w w' [] [ms].
Proof.
  eexists. split; [reflexivity|]. split; cbn; rewrite ?app_nil_r; reflexivity.
Qed.

Lemma await_packer_run options (w : World Cloud) :
  exists w',
    ((exists packed,
        await_packer platform options w = (Returned packed, w') /\
        fst (packer platform options (cloud w)) = Resolved packed) \/
     (exists reason,
        await_packer platform options w = (Thrown (ExnValue reason), w') /\
        fst (packer platform options (cloud w)) = Rejected reason)) /\
    since w w' [] [].
Proof.
  unfold await_packer.
  destruct (packer platform options (cloud w)) as [[packed|reason] c]; cbn;
    eexists; split.
  - left. exists packed. split; reflexivity.
  - split; cbn; rewrite app_nil_r; reflexivity.
  - right. exists reason. split; reflexivity.
  - split; cbn; rewrite app_nil_r; reflexivity.
Qed.

Lemma await_run {A} (p : option (settled A)) (w : World Cloud) :
  (exists a, p = Some (Resolved a) /\ await p w = (Returned a, w)) \/
  (p = None /\ await p w = (Pending, w)) \/
  (exists reason,
     p = Some (Rejected reason) /\ await p w = (Thrown (ExnValue reason), w)).
Proof.
  destruct p as [[a|reason]|]; cbn; eauto.
Qed.

Lemma interrupted_thrown serverModule {A} reason :
  packing_failed platform serverModule reason ->
  @interrupted _ platform serverModule A (Thrown (ExnValue reason)).
Proof. intros H. right. eauto. Qed.

Lemma interrupted_pending serverModule {A} :
  packing_stalled platform serverModule ->
  @interrupted _ platform serverModule A Pending.
Proof. intros H. left. split; [reflexivity|exact H]. Qed.

Ltac since_solve :=
  unfold since in *;
  repeat match goal with H : _ /\ _ |- _ => destruct H end;
  split;
  repeat match goal with
         | H : issued _ = _ |- _ => rewrite H; clear H
         | H : slept _ = _ |- _ => rewrite H; clear H
         end;
  rewrite <- ?app_assoc, ?app_nil_r; cbn [app];
  rewrite <- ?app_assoc, ?app_nil_r; reflexivity.

Ltac run_step :=
  match goal with
  | |- context [log ?e ?w] =>
      let w' := fresh "w" in let Hrun := fresh "Hrun" in let Hs := fresh "Hs" in
      destruct (init_log_run e w) as (w' & Hrun & Hs); rewrite Hrun; clear Hrun
  | |- context [sleep ?ms ?w] =>
      let w' := fresh "w" in let Hrun := fresh "Hrun" in let Hs := fresh "Hs" in
      destruct (init_sleep_run ms w) as (w' & Hrun & Hs); rewrite Hrun; clear Hrun
  | |- context [quietly platform ?region ?arg ?w] =>
      let ok := fresh "ok" in
      let w' := fresh "w" in let Hrun := fresh "Hrun" in let Hs := fresh "Hs" in
      destruct (init_quietly_run region _ arg w) as (ok & w' & Hrun & Hs);
      rewrite Hrun; clear Hrun
  | |- context [carefully platform ?region ?arg ?w] =>
      let ok := fresh "ok" in
      let w' := fresh "w" in let Hrun := fresh "Hrun" in let Hs := fresh "Hs" in
      destruct (init_carefully_run region _ arg w) as (ok & w' & Hrun & Hs);
      rewrite Hrun; clear Hrun
  end.

Lemma poll_spec region req n (w : World Cloud) :
  let attempt := exchange (Lambda_createFunction req) in
  let r := poll platform region req n w in
  (fst r = Returned None /\
   since w (snd r) (replicate n (attempt false)) (replicate n 1000)) \/
  (exists created k,
     (k < n)%nat /\ fst r = Returned (Some created) /\
     since w (snd r) (replicate k (attempt false) ++ [attempt true])
       (replicate k 1000)).
Proof.
  cbn zeta. revert w. induction n as [|n IH]; intros w; cbn [poll].
  - left. split; [reflexivity|]. apply since_refl.
  - unfold mbind, Async_bind. run_step. run_step.
    destruct ok as [created|]; cbn [bool_decide] in *.
    + right. exists created, 0%nat. split; [lia|]. split; [reflexivity|].
      cbn [fst snd replicate app mret Async_ret].
      rewrite bool_decide_true in Hs0 by eauto. since_solve.
    + rewrite bool_decide_false in Hs0 by (intros [? ?]; discriminate).
      run_step.
      destruct (IH w2) as [[Hr Hsince]|(created & k & Hk & Hr & Hsince)].
      * left. split; [exact Hr|]. cbn [replicate].
        destruct (poll platform region req n w2) as [r w3]. cbn [fst snd] in *.
        since_solve.
      * right. exists created, (S k). split; [lia|]. split; [exact Hr|].
        cbn [replicate].
        destruct (poll platform region req n w2) as [r w3]. cbn [fst snd] in *.
        since_solve.
Qed.

Ltac packer_step :=
  match goal with
  | |- context [await_packer platform ?o ?w] =>
      let w' := fresh "w" in let Hrun := fresh "Hrun" in let Hs := fresh "Hs" in
      let packed := fresh "packed" in let reason := fresh "reason" in
      let Hpk := fresh "Hpk" in
      destruct (await_packer_run o w)
        as (w' & [(packed & Hrun & Hpk) | (reason & Hrun & Hpk)] & Hs);
      rewrite Hrun; clear Hrun
  | |- context [pack platform ?m ?w] =>
      let w' := fresh "w" in let Hrun := fresh "Hrun" in let Hs := fresh "Hs" in
      let packed := fresh "packed" in let reason := fresh "reason" in
      let Hpk := fresh "Hpk" in
      unfold pack;
      match goal with
      | |- context [await_packer platform ?o w] =>
          destruct (await_packer_run o w)
            as (w' & [(packed & Hrun & Hpk) | (reason & Hrun & Hpk)] & Hs);
          rewrite Hrun; clear Hrun
      end
  end.

(** Which of the two packages the failure at hand belongs to. *)
Ltac which_package := first [left; reflexivity | right; reflexivity].

Ltac interrupted_solve :=
  cbn [fst snd];
  first
    [ apply interrupted_pending;
      eexists _, _, _; split; [|split; eassumption]; which_package
    | apply interrupted_thrown;
      eexists _, _;
      split; [|first [left; eassumption | right; eexists; split; eassumption]];
      which_package ].

Ltac await_step :=
  match goal with
  | |- context [@await ?W ?A ?p ?w] =>
      let a := fresh "ZipFile" in let reason := fresh "reason" in
      let Hrun := fresh "Hrun" in let Hz := fresh "Hz" in
      destruct (@await_run A p w)
        as [(a & Hz & Hrun) | [(Hz & Hrun) | (reason & Hz & Hrun)]];
      rewrite Hrun; clear Hrun
  end.

Lemma readiness_spec serverModule region nonce role (w : World Cloud) :
  let r := checkRoleReadiness platform region nonce role w in
  (interrupted platform serverModule (fst r) /\ since w (snd r) [] []) \/
  (exists ZipFile rd,
     within_attempts rd /\ fst r = Returned (is_ready rd) /\
     since w (snd r) (polling nonce role ZipFile rd) (waited rd)).
Proof.
  cbn zeta. unfold checkRoleReadiness, mbind, Async_bind.
  run_step. packer_step.
  2:{ left. split; [interrupted_solve|]. cbn [snd]. since_solve. }
  await_step.
  2,3: (left; split; [interrupted_solve|]; cbn [snd]; since_solve).
  run_step.
  match goal with |- context [poll platform region ?req 100 ?w0] =>
    pose proof (poll_spec region req 100 w0) as Hpoll;
    destruct (poll platform region req 100 w0) as [rp wp] end.
  cbn zeta in Hpoll. cbn [fst snd] in Hpoll.
  destruct Hpoll as [[-> Hsp]|(created & k & Hk & -> & Hsp)].
  - run_step. right. exists ZipFile, NotReady.
    split; [exact I|]. split; [reflexivity|].
    cbn [snd mret Async_ret polling waited failures_of]. since_solve.
  - run_step. run_step. right.
    exists ZipFile, (Ready k (bool_decide (is_Some ok))).
    split; [exact Hk|]. split; [reflexivity|].
    cbn [snd mret Async_ret polling waited failures_of]. since_solve.
Qed.

Lemma createRole_spec serverModule region nonce options (w : World Cloud) :
  let RoleName := RoleName_of nonce options in
  let attempt := exchange (IAM_createRole (role_request platform nonce options)) in
  let r := createRole platform region nonce RoleName (PolicyArn_of options) w in
  (fst r = Returned None /\ since w (snd r) [attempt false] []) \/
  (exists attached,
     interrupted platform serverModule (fst r) /\
     since w (snd r)
       [attempt true;
        exchange (IAM_attachRolePolicy RoleName (PolicyArn_of options)) attached] []) \/
  (exists response attached ZipFile rd,
     within_attempts rd /\ fst r = Returned (Some response) /\
     since w (snd r)
       ([attempt true;
         exchange (IAM_attachRolePolicy RoleName (PolicyArn_of options)) attached]
        ++ polling nonce (Role response) ZipFile rd)
       (waited rd)).
Proof.
  cbn zeta. unfold createRole, mbind, Async_bind.
  fold (role_request platform nonce options).
  run_step. run_step.
  destruct ok as [response|].
  - rewrite bool_decide_true in Hs0 by eauto. run_step.
    match goal with |- context [checkRoleReadiness platform region nonce ?role ?w0] =>
      pose proof (readiness_spec serverModule region nonce role w0) as Hready;
      destruct (checkRoleReadiness platform region nonce role w0) as [rr wr] end.
    cbn zeta in Hready. cbn [fst snd] in Hready.
    destruct Hready as [[Hint Hsr]|(ZipFile & rd & Hrd & -> & Hsr)].
    + right. left. exists (bool_decide (is_Some ok)). split.
      * destruct Hint as [[-> Hst] | (reason & -> & Hf)]; cbn [fst].
        -- apply interrupted_pending, Hst.
        -- apply interrupted_thrown, Hf.
      * destruct Hint as [[-> Hst] | (reason & -> & Hf)]; cbn [snd]; since_solve.
    + right. right. exists response, (bool_decide (is_Some ok)), ZipFile, rd.
      split; [exact Hrd|]. split; [reflexivity|].
      cbn [snd mret Async_ret]. since_solve.
  - rewrite bool_decide_false in Hs0 by (intros [? ?]; discriminate).
    left. split; [reflexivity|]. cbn [snd mret Async_ret]. since_solve.
Qed.

Lemma createFunction_spec region nonce options serverModule role (w : World Cloud) :
  let r := createFunction platform region nonce serverModule
             (default no_overrides (o_awsLambdaOptions options)) role w in
  (fst r = Returned None /\ since w (snd r) [lookup_exchange nonce true] []) \/
  (exists ZipFile,
     fst r = Returned None /\
     since w (snd r)
       [lookup_exchange nonce false; deploy_exchange nonce options role ZipFile false] []) \/
  (exists ZipFile,
     fst r = Returned (Some ("cloudify-" +:+ nonce)) /\
     since w (snd r)
       [lookup_exchange nonce false; deploy_exchange nonce options role ZipFile true] []) \/
  (interrupted platform serverModule (fst r) /\
   (since w (snd r) [] [] \/ since w (snd r) [lookup_exchange nonce false] [])).
Proof.
  cbn zeta. unfold createFunction, mbind, Async_bind.
  packer_step.
  2:{ do 3 right. split; [interrupted_solve|]. left. cbn [snd]. since_solve. }
  run_step. destruct ok as [previous|].
  - rewrite bool_decide_true in Hs0 by eauto. run_step.
    left. split; [reflexivity|]. cbn [snd mret Async_ret]. unfold lookup_exchange.
    since_solve.
  - rewrite bool_decide_false in Hs0 by (intros [? ?]; discriminate).
    await_step.
    2,3: (do 3 right; split; [interrupted_solve|]; right; cbn [snd];
          unfold lookup_exchange; since_solve).
    run_step. run_step. destruct ok as [created|].
    + rewrite bool_decide_true in Hs2 by eauto. run_step.
      right. right. left. exists ZipFile. split; [reflexivity|].
      cbn [snd mret Async_ret]. unfold lookup_exchange, deploy_exchange. since_solve.
    + rewrite bool_decide_false in Hs2 by (intros [? ?]; discriminate).
      right. left. exists ZipFile. split; [reflexivity|].
      cbn [snd mret Async_ret]. unfold lookup_exchange, deploy_exchange. since_solve.
Qed.

Lemma roleNeedsCleanup_spec nonce options :
  negb (bool_decide (Some (RoleName_of nonce options) = o_RoleName options))
  = bool_decide (o_RoleName options = None).
Proof.
  unfold RoleName_of. destruct (o_RoleName options) as [given|]; cbn [default];
    repeat case_bool_decide; cbn in *; try reflexivity; congruence.
Qed.

Lemma truthy_prefixed (prefix rest : string) :
  prefix <> "" -> truthy_str (Some (prefix +:+ rest)) = true.
Proof.
  intros H. destruct prefix as [|c prefix]; [congruence|]. reflexivity.
Qed.

Lemma init_uuid_run (w : World Cloud) :
  exists w',
    uuid platform w = (Returned (uuidv4 platform (drawn w)), w') /\ since w w' [] [].
Proof.
  eexists. split; [reflexivity|]. split; cbn; rewrite app_nil_r; reflexivity.
Qed.

Lemma deployment_tail region nonce options serverModule role (w : World Cloud) r w' :
  (FunctionName ← createFunction platform region nonce serverModule
                    (default no_overrides (o_awsLambdaOptions options)) role;
   if truthy_str FunctionName
   then
     let logGroupName := "/aws/lambda/" +:+ default "" FunctionName in
     carefully platform region (CloudWatch_createLogGroup logGroupName);;
     let roleNeedsCleanup :=
       negb (bool_decide (Some (RoleName_of nonce options) = o_RoleName options)) in
     noCreateLogGroupPolicy ←
       addNoCreateLogPolicyToRole platform region (RoleName_of nonce options);
     mret {| Aws.FunctionName := default "" FunctionName;
             Aws.RoleName := RoleName_of nonce options;
             Aws.roleNeedsCleanup := roleNeedsCleanup;
             Aws.logGroupName := logGroupName;
             Aws.region := region;
             Aws.noCreateLogGroupPolicy := noCreateLogGroupPolicy |}
   else
     throw (new_Error platform
              ("Could not create lambda function "
               +:+ ToString (Aws.opt_str FunctionName)))) w = (r, w') ->
  region = region_of options ->
  exists h, since w w' h [] /\ deployment platform nonce options serverModule role r h.
Proof.
  intros Hrun Hregion. revert Hrun. cbn zeta. unfold mbind, Async_bind.
  pose proof (createFunction_spec region nonce options serverModule role w) as Hcf.
  cbn zeta in Hcf.
  destruct (createFunction platform region nonce serverModule
              (default no_overrides (o_awsLambdaOptions options)) role w) as [rf wf].
  cbn [fst snd] in Hcf.
  destruct Hcf as [[-> Hs]|[(ZipFile & -> & Hs)|[(ZipFile & -> & Hs)|[Hint Hs]]]].
  - cbn [truthy_str throw]. intros [= <- <-].
    eexists. split; [exact Hs|]. left. split; reflexivity.
  - cbn [truthy_str throw]. intros [= <- <-].
    eexists. split; [exact Hs|]. right; left. exists ZipFile. split; reflexivity.
  - rewrite truthy_prefixed by discriminate.
    unfold addNoCreateLogPolicyToRole, mbind, Async_bind.
    run_step. run_step. run_step.
    cbn [fst snd mret Async_ret default from_option id] in *.
    rewrite roleNeedsCleanup_spec. subst region. intros [= <- <-].
    eexists. split; [|right; right; left;
                      exists ZipFile, (bool_decide (is_Some ok)),
                        (bool_decide (is_Some ok0)); split; reflexivity].
    unfold policy_exchange. since_solve.
  - destruct Hint as [[-> Hst] | (reason & -> & Hf)]; intros [= <- <-];
      destruct Hs as [Hs|Hs];
      (eexists; split; [exact Hs|]); do 3 right;
      (split; [first [apply interrupted_pending, Hst | apply interrupted_thrown, Hf]|]);
      auto.
Qed.

Lemma initialize_outline serverModule options (w : World Cloud) r w' :
  initialize platform serverModule options w = (r, w') ->
  exists h z,
    since w w' h z /\
    outline platform (uuidv4 platform (drawn w)) options serverModule r h z.
Proof.
  unfold initialize. unfold mbind at 1 2 3. unfold Async_bind at 1 2 3.
  destruct (init_uuid_run w) as (w0 & -> & Hs0).
  set (nonce := uuidv4 platform (drawn w)).
  run_step.
  fold (RoleName_of nonce options).
  run_step. destruct ok as [found|].
  - rewrite bool_decide_true in Hs1 by eauto.
    unfold mbind at 1. unfold Async_bind at 1. cbn [mret Async_ret].
    intros Hrun. apply deployment_tail in Hrun; [|reflexivity].
    destruct Hrun as (h & Hs2 & Hd).
    eexists _, _. split; [|right; right; exists (Role found); eexists _, h;
                           split; [left; split; reflexivity|split; [exact Hd|reflexivity]]].
    since_solve.
  - rewrite bool_decide_false in Hs1 by (intros [? ?]; discriminate).
    unfold mbind at 1. unfold Async_bind at 1.
    match goal with |- context [createRole platform ?rg nonce _ _ ?wk] =>
      pose proof (createRole_spec serverModule rg nonce options wk) as Hcr;
      cbn zeta in Hcr;
      change (createRole platform rg nonce (RoleName_of nonce options)
                (PolicyArn_of options) wk)
        with (createRole platform rg nonce (RoleName_of nonce options)
                (default (d_PolicyArn defaults) (o_PolicyArn options)) wk) in Hcr;
      destruct (createRole platform rg nonce (RoleName_of nonce options)
                  (default (d_PolicyArn defaults) (o_PolicyArn options)) wk)
        as [rr wr]
    end.
    cbn [fst snd] in Hcr.
    destruct Hcr as [[-> Hs2]|[(attached & Hint & Hs2)
                              |(response & attached & ZipFile & rd & Hrd & -> & Hs2)]].
    + cbn [throw]. intros [= <- <-].
      eexists _, _. split; [|left; split; [reflexivity|split; reflexivity]].
      unfold role_refused. since_solve.
    + destruct Hint as [[-> Hst] | (reason & -> & Hf)]; intros [= <- <-];
        (eexists _, _; split;
         [|right; left; exists attached;
           split; [first [apply interrupted_pending, Hst | apply interrupted_thrown, Hf]
                  |split; reflexivity]]);
        unfold role_created; since_solve.
    + intros Hrun. apply deployment_tail in Hrun; [|reflexivity].
      destruct Hrun as (h & Hs3 & Hd).
      eexists _, _.
      split; [|right; right; exists (Role response); eexists _, h;
               split; [right; exists attached, ZipFile, rd;
                       split; [exact Hrd|split; reflexivity]
                      |split; [exact Hd|reflexivity]]].
      unfold role_created. since_solve.
Qed.

Lemma added_since (w w' : World Cloud) h z : since w w' h z -> added w w' = h.
Proof.
  intros [Hi _]. unfold added. rewrite Hi. apply drop_app_length.
Qed.

Lemma not_interrupted_returned serverModule {A} (a : A) :
  ~ interrupted platform serverModule (Returned a).
Proof. intros [[H _]|(reason & H & _)]; discriminate. Qed.

Lemma interrupted_thrown_inv serverModule {A} e :
  @interrupted _ platform serverModule A (Thrown e) ->
  exists reason, e = ExnValue reason /\ packing_failed platform serverModule reason.
Proof.
  intros [[H _]|(reason & H & Hf)]; [discriminate|]. injection H as ->. eauto.
Qed.

Lemma returned_outline serverModule options (w : World Cloud) r w' state :
  initialize platform serverModule options w = (r, w') ->
  r = Returned state ->
  let nonce := uuidv4 platform (drawn w) in
  state = state_of nonce options /\
  exists role h_role ZipFile group policy,
    role_obtained platform nonce options role h_role (drop (length (slept w)) (slept w')) /\
    added w w' =
      h_role ++
      [lookup_exchange nonce false; deploy_exchange nonce options role ZipFile true;
       exchange (CloudWatch_createLogGroup ("/aws/lambda/cloudify-" +:+ nonce)) group;
       policy_exchange platform nonce options policy].
Proof.
  intros Hrun ->. cbn zeta.
  apply initialize_outline in Hrun as (h & z & Hs & Ho).
  rewrite (added_since _ _ _ _ Hs).
  destruct Hs as [_ Hz]. rewrite Hz, drop_app_length.
  destruct Ho as [[H _]|[(attached & Hint & _)|(role & h1 & h2 & Hr & Hd & ->)]].
  - discriminate.
  - destruct (not_interrupted_returned _ _ Hint).
  - destruct Hd as [[H _]|[(Z1 & H & _)|[(Z1 & g & p & H & ->)|[Hint _]]]];
      try discriminate.
    + injection H as ->. split; [reflexivity|].
      exists role, h1, Z1, g, p. split; [exact Hr|reflexivity].
    + destruct (not_interrupted_returned _ _ Hint).
Qed.

(** X22.  When [initialize] returns, the state names what it derived from the
    nonce and the options: the function [cloudify-<nonce>], its log group
    [/aws/lambda/cloudify-<nonce>], the role given in the options or else
    [cloudify-role-<nonce>], the region given or else us-east-1, and the
    inline policy's fixed name; [roleNeedsCleanup] is true exactly when the
    options name no role. *)
Theorem initialize_state serverModule options (w : World Cloud) state :
  fst (initialize platform serverModule options w) = Returned state ->
  state = state_of (uuidv4 platform (drawn w)) options.
Proof.
  destruct (initialize platform serverModule options w) as [r w'] eqn:Hrun.
  cbn [fst]. intros Hr. apply (returned_outline _ _ _ _ _ _ Hrun Hr).
Qed.

Lemma polling_setup nonce role ZipFile rd :
  Forall (fun x => is_deployment x = false) (polling nonce role ZipFile rd).
Proof.
  destruct rd as [k deleted|]; cbn [polling].
  - apply Forall_app. split.
    + apply Forall_replicate. reflexivity.
    + repeat (apply List.Forall_cons; [reflexivity|]). apply List.Forall_nil.
  - apply Forall_replicate. reflexivity.
Qed.

Lemma deploy_exchange_failed nonce options role ZipFile :
  is_deployment (deploy_exchange nonce options role ZipFile false) = false.
Proof.
  unfold is_deployment, deploy_exchange, exchange. cbn. apply andb_false_r.
Qed.

Ltac no_deployment :=
  repeat (apply List.Forall_cons;
          [first [reflexivity | apply deploy_exchange_failed]|]);
  apply List.Forall_nil.

Lemma deploy_exchange_is_deployment nonce options role ZipFile :
  is_deployment (deploy_exchange nonce options role ZipFile true) = true.
Proof.
  unfold is_deployment, deploy_exchange, exchange, deploy_request, spread. cbn.
  destruct (ov_Description _); reflexivity.
Qed.

(** X23.  [initialize] returns a state exactly when the request that creates the
    trampoline function resolved: a failed readiness test, a failed policy
    attachment, a failed log group creation and a failed inline policy do
    not make it fail, and nothing else makes it succeed. *)
Theorem initialize_returns_iff_deployed serverModule options (w : World Cloud) :
  let r := initialize platform serverModule options w in
  (exists state, fst r = Returned state) <->
  Exists (deployed_with (uuidv4 platform (drawn w)) options) (added w (snd r)).
Proof.
  cbn zeta.
  destruct (initialize platform serverModule options w) as [r w'] eqn:Hrun.
  cbn [fst snd].
  apply initialize_outline in Hrun as (h & z & Hs & Ho).
  rewrite (added_since _ _ _ _ Hs). clear Hs.
  set (nonce := uuidv4 platform (drawn w)) in *.
  assert (Hno : forall l,
    Forall (fun x => is_deployment x = false) l ->
    ~ Exists (deployed_with nonce options) l).
  { intros l Hl Hex. apply Exists_exists in Hex as (x & Hin & role & Z1 & ->).
    rewrite Forall_forall in Hl. specialize (Hl _ Hin).
    change (is_deployment (deploy_exchange nonce options role Z1 true) = false) in Hl.
    rewrite deploy_exchange_is_deployment in Hl. discriminate. }
  assert (Hrole : forall role h1, role_obtained platform nonce options role h1 z ->
    Forall (fun x => is_deployment x = false) h1).
  { intros role h1 [[-> _]|(attached & Z1 & rd & _ & -> & _)].
    - no_deployment.
    - apply Forall_app. split; [no_deployment|apply polling_setup]. }
  destruct Ho as [(-> & -> & _)|[(attached & Hint & -> & _)
                               |(role & h1 & h2 & Hr & Hd & ->)]].
  - split; [intros [state H]; discriminate|].
    intros Hex. exfalso. revert Hex. apply Hno. no_deployment.
  - split; [intros [state ->]; destruct (not_interrupted_returned _ _ Hint)|].
    intros Hex. exfalso. revert Hex. apply Hno. no_deployment.
  - specialize (Hrole _ _ Hr).
    destruct Hd as [[-> ->]|[(Z1 & -> & ->)|[(Z1 & g & p & -> & ->)|[Hint Hh]]]].
    + split; [intros [state H]; discriminate|].
      intros Hex. exfalso. revert Hex. apply Hno.
      apply Forall_app. split; [exact Hrole|no_deployment].
    + split; [intros [state H]; discriminate|].
      intros Hex. exfalso. revert Hex. apply Hno.
      apply Forall_app. split; [exact Hrole|no_deployment].
    + split; [|eauto]. intros _. apply Exists_app. right.
      apply Exists_cons_tl, Exists_cons_hd. exists role, Z1. reflexivity.
    + split; [intros [state ->]; destruct (not_interrupted_returned _ _ Hint)|].
      intros Hex. exfalso. revert Hex. apply Hno.
      apply Forall_app. split; [exact Hrole|].
      destruct Hh as [-> | ->]; no_deployment.
Qed.

(** X24.  [initialize] throws one of three things: the error "Could not create
    role <name>", after a rejected lookup and a rejected creation of the role
    and nothing else; the error "Could not create lambda function undefined"
    (the name is never part of the message), right after the lookup of the
    function's name found a function or the function's creation was
    rejected; or, as it is, the reason with which packing failed: the very
    value the packer rejected with when asked for one of the two packages, or
    the very value the archive it resolved with gave to its error event. *)
Theorem initialize_throws serverModule options (w : World Cloud) e :
  let r := initialize platform serverModule options w in
  let nonce := uuidv4 platform (drawn w) in
  fst r = Thrown e ->
  (e = error_role platform nonce options /\
   added w (snd r) = role_refused platform nonce options) \/
  (e = error_function platform /\
   (last (added w (snd r)) = Some (lookup_exchange nonce true) \/
    exists role ZipFile,
      last (added w (snd r)) = Some (deploy_exchange nonce options role ZipFile false))) \/
  (exists reason,
     e = ExnValue reason /\ packing_failed platform serverModule reason).
Proof.
  cbn zeta.
  destruct (initialize platform serverModule options w) as [r w'] eqn:Hrun.
  cbn [fst snd]. intros ->.
  apply initialize_outline in Hrun as (h & z & Hs & Ho).
  rewrite (added_since _ _ _ _ Hs). clear Hs.
  destruct Ho as [(H & -> & _)|[(attached & Hint & _)|(role & h1 & h2 & _ & Hd & ->)]].
  - injection H as ->. left. split; reflexivity.
  - right. right. apply (interrupted_thrown_inv _ _ Hint).
  - destruct Hd as [[H ->]|[(Z1 & H & ->)|[(Z1 & g & p & H & _)|[Hint _]]]].
    + injection H as ->. right. left. split; [reflexivity|]. left.
      apply last_snoc.
    + injection H as ->. right. left. split; [reflexivity|]. right.
      exists role, Z1.
      change [lookup_exchange (uuidv4 platform (drawn w)) false;
              deploy_exchange (uuidv4 platform (drawn w)) options role Z1 false]
        with ([lookup_exchange (uuidv4 platform (drawn w)) false]
              ++ [deploy_exchange (uuidv4 platform (drawn w)) options role Z1 false]).
      rewrite app_assoc. apply last_snoc.
    + discriminate.
    + right. right. apply (interrupted_thrown_inv _ _ Hint).
Qed.

Lemma deployment_no_setup nonce options serverModule role r h :
  deployment platform nonce options serverModule role r h ->
  List.filter role_setup h = [].
Proof.
  assert (Hd : forall Z1 ok,
    role_setup (deploy_exchange nonce options role Z1 ok) = false).
  { intros Z1 ok. unfold role_setup, deploy_exchange, exchange, deploy_request, spread.
    cbn. destruct (ov_Description _); reflexivity. }
  intros [[_ ->]|[(Z1 & _ & ->)|[(Z1 & g & p & _ & ->)|[_ [-> | ->]]]]];
    cbn [List.filter]; rewrite ?Hd; reflexivity.
Qed.

(** X25.  When the lookup of the role finds it, [initialize] neither creates a
    role nor attaches a policy, runs no readiness test and waits for
    nothing. *)
Theorem existing_role_skips_setup serverModule options (w : World Cloud) :
  let r := initialize platform serverModule options w in
  let nonce := uuidv4 platform (drawn w) in
  head (added w (snd r)) = Some (exchange (IAM_getRole (RoleName_of nonce options)) true) ->
  List.filter role_setup (added w (snd r)) = [] /\ slept (snd r) = slept w.
Proof.
  cbn zeta.
  destruct (initialize platform serverModule options w) as [r w'] eqn:Hrun.
  cbn [fst snd].
  apply initialize_outline in Hrun as (h & z & Hs & Ho).
  rewrite (added_since _ _ _ _ Hs). destruct Hs as [_ Hz]. rewrite Hz. clear Hz.
  destruct Ho as [(_ & -> & _)|[(attached & _ & -> & _)|(role & h1 & h2 & Hr & Hd & ->)]].
  - intros H. discriminate H.
  - intros H. discriminate H.
  - destruct Hr as [[-> ->]|(attached & Z1 & rd & _ & -> & _)].
    + intros _. rewrite List.filter_app, (deployment_no_setup _ _ _ _ _ _ Hd).
      split; [reflexivity|apply app_nil_r].
    + intros H. discriminate H.
Qed.

(** X21.  When [checkRoleReadiness] returns, it has waited two seconds and then
    tried to create the test function at most a hundred times, one second
    after each rejected attempt (so at most 102 seconds in all); it returns
    [true] exactly when an attempt resolved, which it follows with one
    attempt to delete the test function, and [false] after a hundred
    rejections, with nothing to delete. *)
Theorem readiness_test_bounded region nonce role (w : World Cloud) ready :
  let r := checkRoleReadiness platform region nonce role w in
  fst r = Returned ready ->
  exists ZipFile outcome,
    is_ready outcome = ready /\
    (failures_of outcome <= 100)%nat /\
    (ready = true -> (failures_of outcome < 100)%nat) /\
    added w (snd r) = polling nonce role ZipFile outcome /\
    slept (snd r) = slept w ++ 2000 :: replicate (failures_of outcome) 1000.
Proof.
  cbn zeta. pose proof (readiness_spec "" region nonce role w) as H. cbn zeta in H.
  destruct (checkRoleReadiness platform region nonce role w) as [r w'].
  cbn [fst snd] in *. intros ->.
  destruct H as [[Hint _]|(Z1 & rd & Hrd & Hr & Hs)].
  - destruct (not_interrupted_returned _ _ Hint).
  - injection Hr as ->. exists Z1, rd. split; [reflexivity|].
    rewrite (added_since _ _ _ _ Hs). destruct Hs as [_ Hz].
    destruct rd as [k deleted|]; cbn in *; repeat split; auto; try lia.
Qed.

(** X26.  A function name among [awsLambdaOptions] replaces the name in the
    request that creates the function, but not the name [initialize]
    returns: the state names [cloudify-<nonce>] while the function was
    created under the name given. *)
Theorem override_name_not_recorded serverModule options (w : World Cloud)
    state overrides given :
  let r := initialize platform serverModule options w in
  fst r = Returned state ->
  o_awsLambdaOptions options = Some overrides ->
  ov_FunctionName overrides = Some given ->
  Aws.FunctionName state = "cloudify-" +:+ uuidv4 platform (drawn w) /\
  exists request,
    cf_FunctionName request = given /\
    In (exchange (Lambda_createFunction request) true) (added w (snd r)).
Proof.
  cbn zeta.
  destruct (initialize platform serverModule options w) as [r w'] eqn:Hrun.
  cbn [fst snd]. intros Hr Hov Hname.
  destruct (returned_outline _ _ _ _ _ _ Hrun Hr)
    as (-> & role & h1 & Z1 & g & p & _ & ->).
  split; [reflexivity|].
  eexists. split; [|apply in_or_app; right; right; left; reflexivity].
  rewrite Hov. cbn. rewrite Hname. reflexivity.
Qed.

End WithPlatform.

(** ** [initialize], then [cleanup] *)

Section Teardown.
Context {Cloud : Type} (platform : Platform Cloud).
Context {Resources : Type} (provider : Aws.Platform Resources).
Import AwsTraceStatements.

(** X27.  When the options name the role, [initialize] puts its inline policy on
    that role (and creates the role if it is not there), but [cleanup] of the
    state it returned sends no request to IAM: the policy, and a role
    created under the given name, are left behind. *)
Theorem supplied_role_keeps_policy serverModule options (w : World Cloud)
    state given :
  let r := initialize platform serverModule options w in
  fst r = Returned state ->
  o_RoleName options = Some given ->
  (exists document ok,
     In (exchange (IAM_putRolePolicy given "cloudify-deny-create-log-group-policy"
                     document) ok)
        (added w (snd r))) /\
  forall v,
    List.filter to_iam (Aws.issued (snd (Aws.cleanup provider (as_partial state) v)))
    = List.filter to_iam (Aws.issued v).
Proof.
  cbn zeta.
  destruct (initialize platform serverModule options w) as [r w'] eqn:Hrun.
  cbn [fst snd]. intros Hr Hgiven.
  destruct (returned_outline _ _ _ _ _ _ _ Hrun Hr)
    as (-> & role & h1 & Z1 & g & p & _ & ->).
  split.
  - eexists _, p. apply in_or_app. right. do 3 right. left.
    unfold policy_exchange, RoleName_of. rewrite Hgiven. reflexivity.
  - intros v. apply AwsTraceFacts.cleanup_no_iam.
    unfold owns_role, as_partial, state_of. cbn. rewrite Hgiven.
    rewrite (bool_decide_false (Some given = None)) by discriminate.
    rewrite (bool_decide_false (Some false = Some true)) by discriminate.
    apply andb_false_r.
Qed.

(** X28.  When the options name no role, [cleanup] of the state [initialize]
    returned deletes the function [cloudify-<nonce>], tears down the role
    [cloudify-role-<nonce>] with the inline policy, and deletes the log group
    [/aws/lambda/cloudify-<nonce>], in this order and whatever fails. *)
Theorem own_role_torn_down serverModule options (w : World Cloud) state v :
  let r := initialize platform serverModule options w in
  let nonce := uuidv4 platform (drawn w) in
  fst r = Returned state ->
  o_RoleName options = None ->
  exists v',
    Aws.cleanup provider (as_partial state) v = (Normal tt, v') /\
    Aws.issued v' =
      Aws.issued v
      ++ [existT _ (Aws.Lambda_deleteFunction ("cloudify-" +:+ nonce))]
      ++ deleteRole_requests ("cloudify-role-" +:+ nonce)
           (Some "cloudify-deny-create-log-group-policy")
           (fst (Aws.serve provider _
                   (Aws.IAM_listAttachedRolePolicies ("cloudify-role-" +:+ nonce))
                   (snd (Aws.serve provider _
                           (Aws.Lambda_deleteFunction ("cloudify-" +:+ nonce))
                           (Aws.cloud v)))))
      ++ [existT _ (Aws.CloudWatch_deleteLogGroup ("/aws/lambda/cloudify-" +:+ nonce))].
Proof.
  cbn zeta.
  destruct (initialize platform serverModule options w) as [r w'] eqn:Hrun.
  cbn [fst]. intros Hr Hnone.
  destruct (returned_outline _ _ _ _ _ _ _ Hrun Hr) as (-> & _).
  destruct (AwsTraceFacts.cleanup_trace provider
              (as_partial (state_of (uuidv4 platform (drawn w)) options)) v)
    as (v' & Hclean & Hiss).
  exists v'. split; [exact Hclean|]. rewrite Hiss. f_equal.
  unfold cleanup_requests, owns_role, as_partial, state_of, RoleName_of.
  rewrite Hnone. reflexivity.
Qed.

End Teardown.

(** ** Instances *)

Lemma initialize_state_witness :
  {| Aws.FunctionName := "cloudify-1f0e";
     Aws.RoleName := "cloudify-role-1f0e";
     Aws.roleNeedsCleanup := true;
     Aws.logGroupName := "/aws/lambda/cloudify-1f0e";
     Aws.region := "us-east-1";
     Aws.noCreateLogGroupPolicy := "cloudify-deny-create-log-group-policy" |}
  = state_of "1f0e" no_options.
Proof.
  apply (initialize_state sim "server" no_options (start_world fresh_account)).
  vm_compute. reflexivity.
Defined.

Lemma initialize_throws_witness :
  let r := initialize sim "server" with_role (start_world account_with_collision) in
  (error_function sim = error_role sim "1f0e" with_role /\
   added (start_world account_with_collision) (snd r) = role_refused sim "1f0e" with_role) \/
  (error_function sim = error_function sim /\
   (last (added (start_world account_with_collision) (snd r))
      = Some (lookup_exchange "1f0e" true) \/
    exists role ZipFile,
      last (added (start_world account_with_collision) (snd r))
        = Some (deploy_exchange "1f0e" with_role role ZipFile false))) \/
  (exists reason,
     error_function sim = ExnValue reason /\ packing_failed sim "server" reason).
Proof.
  apply (initialize_throws sim "server" with_role (start_world account_with_collision)).
  vm_compute. reflexivity.
Defined.

Lemma existing_role_skips_setup_witness :
  let r := initialize sim "server" with_role (start_world account_with_role) in
  List.filter role_setup (added (start_world account_with_role) (snd r)) = [] /\
  slept (snd r) = [].
Proof.
  apply (existing_role_skips_setup sim "server" with_role (start_world account_with_role)).
  vm_compute. reflexivity.
Defined.

Lemma readiness_test_bounded_witness :
  let r := checkRoleReadiness sim "us-east-1" "1f0e" {| Arn := "arn:aws:iam::role/r" |}
             (start_world fresh_account) in
  exists ZipFile outcome,
    is_ready outcome = true /\
    (failures_of outcome <= 100)%nat /\
    (true = true -> (failures_of outcome < 100)%nat) /\
    added (start_world fresh_account) (snd r)
      = polling "1f0e" {| Arn := "arn:aws:iam::role/r" |} ZipFile outcome /\
    slept (snd r) = [] ++ 2000 :: replicate (failures_of outcome) 1000.
Proof.
  apply (readiness_test_bounded sim "us-east-1" "1f0e" {| Arn := "arn:aws:iam::role/r" |}
           (start_world fresh_account) true).
  vm_compute. reflexivity.
Defined.

Lemma override_name_not_recorded_witness :
  let r := initialize sim "server" with_name (start_world account_with_role) in
  Aws.FunctionName (state_of "1f0e" with_name) = "cloudify-1f0e" /\
  exists request,
    cf_FunctionName request = "my-function" /\
    In (exchange (Lambda_createFunction request) true)
       (added (start_world account_with_role) (snd r)).
Proof.
  apply (override_name_not_recorded sim "server" with_name (start_world account_with_role)
           (state_of "1f0e" with_name)
           {| ov_FunctionName := Some "my-function"; ov_Role := None;
              ov_Runtime := None; ov_Handler := None; ov_ZipFile := None;
              ov_Description := None; ov_Timeout := Some 300;
              ov_MemorySize := None |}
           "my-function").
  - vm_compute. reflexivity.
  - reflexivity.
  - reflexivity.
Defined.

Lemma supplied_role_keeps_policy_witness :
  let r := initialize sim "server" with_role (start_world account_with_role) in
  (exists document ok,
     In (exchange (IAM_putRolePolicy "my-role" "cloudify-deny-create-log-group-policy"
                     document) ok)
        (added (start_world account_with_role) (snd r))) /\
  forall v,
    List.filter AwsTraceStatements.to_iam
      (Aws.issued (snd (Aws.cleanup AwsSim.sim
                          (as_partial (state_of "1f0e" with_role)) v)))
    = List.filter AwsTraceStatements.to_iam (Aws.issued v).
Proof.
  apply (supplied_role_keeps_policy sim AwsSim.sim "server" with_role
           (start_world account_with_role) (state_of "1f0e" with_role) "my-role").
  - vm_compute. reflexivity.
  - reflexivity.
Defined.

Lemma own_role_torn_down_witness :
  exists v',
    Aws.cleanup AwsSim.sim (as_partial (state_of "1f0e" no_options))
      (AwsSim.start_world AwsSim.empty_account) = (Normal tt, v') /\
    Aws.issued v' =
      [existT _ (Aws.Lambda_deleteFunction "cloudify-1f0e");
       existT _ (Aws.IAM_listAttachedRolePolicies "cloudify-role-1f0e");
       existT _ (Aws.IAM_deleteRolePolicy "cloudify-role-1f0e"
                   "cloudify-deny-create-log-group-policy");
       existT _ (Aws.IAM_deleteRole "cloudify-role-1f0e");
       existT _ (Aws.CloudWatch_deleteLogGroup "/aws/lambda/cloudify-1f0e")].
Proof.
  apply (own_role_torn_down sim AwsSim.sim "server" no_options
           (start_world fresh_account) (state_of "1f0e" no_options)
           (AwsSim.start_world AwsSim.empty_account)).
  - vm_compute. reflexivity.
  - reflexivity.
Defined.

End AwsInitFacts.
